(** * StormWater-AI: a shallow embedding of the analysis pipeline

    The development follows the TypeScript sources:

    - [JS]            the fragment of the ECMAScript string library the
                      sources rely on ([trim], [split], [includes],
                      [substring], number printing);
    - [Analyzer]      the class [AIAnalyzer] (response parser, reference
                      context, fallback analysis, [analyzeDocument]);
    - [Interpreter]   the class [PythonInterpreter] (subprocess runner);
    - [Plugins]       the class [PluginManager] (registration and resource
                      caps).

    The statements about them are in [AnalyzerSpec], [InterpreterSpec]
    and [PluginsSpec].

    ECMAScript strings are sequences of UTF-16 code units; a string is
    modelled as a list of code units, each a number of type [N]. *)

From Stdlib Require Import ZArith NArith List String Ascii Lia DecimalString.
From Stdlib Require Import Permutation Sorted.
From stdpp Require Import base list gmap.
Import ListNotations.

Local Open Scope N_scope.

(* ================================================================== *)
(** * The ECMAScript string fragment                                   *)
(* ================================================================== *)

Module JS.

(** A string literal of the source (ASCII only) as code units. *)
Definition lit (s : string) : list N :=
  List.map N_of_ascii (list_ascii_of_string s).

(** [WhiteSpace] and [LineTerminator] of ECMA-262: the characters that
    [String.prototype.trim] strips and that the regular-expression class
    [\s] matches. *)
Definition isWhiteSpace (c : N) : bool :=
  (c =? 9) || (c =? 10) || (c =? 11) || (c =? 12) || (c =? 13) || (c =? 32)
  || (c =? 160) || (c =? 5760)
  || ((8192 <=? c) && (c <=? 8202))
  || (c =? 8232) || (c =? 8233) || (c =? 8239) || (c =? 8287)
  || (c =? 12288) || (c =? 65279).

Fixpoint trimStart (s : list N) : list N :=
  match s with
  | c :: s' => if isWhiteSpace c then trimStart s' else s
  | [] => []
  end.

Definition trimEnd (s : list N) : list N := rev (trimStart (rev s)).

Definition trim (s : list N) : list N := trimEnd (trimStart s).

(** Truthiness of a string: only the empty string is falsy. *)
Definition truthy (s : list N) : bool :=
  match s with [] => false | _ :: _ => true end.

(** [s.startsWith(p)], returning the rest of [s] behind [p]. *)
Fixpoint strip_prefix (p s : list N) : option (list N) :=
  match p, s with
  | [], _ => Some s
  | a :: p', c :: s' => if a =? c then strip_prefix p' s' else None
  | _ :: _, [] => None
  end.

Definition startsWith (s p : list N) : bool :=
  match strip_prefix p s with Some _ => true | None => false end.

(** [s.includes(sub)] *)
Fixpoint includes (s sub : list N) : bool :=
  startsWith s sub ||
  match s with
  | [] => false
  | _ :: s' => includes s' sub
  end.

(** [s.split(sep)] for a non-empty separator string [sep]: [skip] counts
    the code units of a separator occurrence still to be passed over and
    [cur] holds, reversed, the piece being read. *)
Fixpoint split_loop (sep : list N) (skip : nat) (cur s : list N)
  : list (list N) :=
  match s with
  | [] => [rev cur]
  | c :: s' =>
    match skip with
    | S k => split_loop sep k cur s'
    | O =>
      if startsWith s sep
      then rev cur :: split_loop sep (Nat.pred (List.length sep)) [] s'
      else split_loop sep O (c :: cur) s'
    end
  end.

Definition split (s sep : list N) : list (list N) := split_loop sep O [] s.

(** [pieces.join(sep)] *)
Fixpoint join (sep : list N) (pieces : list (list N)) : list N :=
  match pieces with
  | [] => []
  | [p] => p
  | p :: rest => p ++ sep ++ join sep rest
  end.

(** [s.substring(0, n)] *)
Definition substring0 (n : nat) (s : list N) : list N := firstn n s.

(** [String(n)] for a non-negative integer: its decimal digits. *)
Definition decimal (n : N) : list N :=
  lit (NilZero.string_of_uint (N.to_uint n)).

(** [x.toFixed(1)] for [x = n / 1024] with [n] a non-negative integer.
    The quotient is exact in binary floating point, so the result is the
    number of tenths nearest to [x], the larger one on a tie. *)
Definition toFixed1_div1024 (n : N) : list N :=
  let tenths := (10 * n + 512) / 1024 in
  decimal (tenths / 10) ++ lit "." ++ decimal (tenths mod 10).

(** [haystack] contains [needle] as a contiguous run of code units. *)
Definition Contains (haystack needle : list N) : Prop :=
  exists pre post, haystack = pre ++ needle ++ post.

(** A string is trimmed when neither end is white space. *)
Definition trimmed (s : list N) : Prop :=
  trimStart s = s /\ trimEnd s = s.

(** A call either returns a value or throws. *)
Record JsError := { status : option N; message : list N }.

Inductive outcome (A : Type) : Type :=
| Returned (a : A)
| Thrown (e : JsError).
Arguments Returned {A} a.
Arguments Thrown {A} e.

#[global] Instance outcome_ret : MRet outcome := @Returned.

#[global] Instance outcome_bind : MBind outcome :=
  fun A B k m =>
    match m with
    | Returned a => k a
    | Thrown e => Thrown e
    end.

(** [try { body } catch (error) { handler }] *)
Definition try_catch {A : Type} (body : outcome A) (handler : JsError -> outcome A)
  : outcome A :=
  match body with
  | Returned a => Returned a
  | Thrown e => handler e
  end.

End JS.

(* ================================================================== *)
(** * The class [AIAnalyzer]                                           *)
(* ================================================================== *)

Module Analyzer.
Import JS.

(** [Document] of the shared schema, with the fields the analyzer reads. *)
Record Document := {
  originalName : list N;
  content : list N;
  category : list N;
  description : option (list N)
}.

Record Recommendation := {
  title : list N;
  rec_content : list N;
  rec_category : list N;
  subcategory : option (list N);
  citation : list N
}.

Record AnalysisResult := {
  analysis : list N;
  insights : list (list N);
  recommendations : list Recommendation
}.

(** ** [extractSection]

    The regular expression is
    [new RegExp(`${sectionName}:\\s*([\\s\\S]*?)(?=\\n\\n[A-Z]+:|$)`, 'i')].
    The flag [i] applies to the whole expression: to the label and to the
    class [[A-Z]] of the look-ahead alike.  Without the flag [u] the
    case folding [Canonicalize] never maps a code unit above 127 to one
    below 128, so on the ASCII patterns used here it is the ASCII
    upper-casing below.  The model covers section names free of
    regular-expression metacharacters (the three call sites pass
    ANALYSIS, INSIGHTS and RECOMMENDATIONS). *)

Definition canonicalize (c : N) : N :=
  if (97 <=? c) && (c <=? 122) then c - 32 else c.

Definition isUpper (c : N) : bool := (65 <=? c) && (c <=? 90).

(** [[A-Z]] under the flag [i]. *)
Definition isLetter_i (c : N) : bool := isUpper (canonicalize c).

(** The label, matched case-insensitively; the rest of the input. *)
Fixpoint match_label (pat s : list N) : option (list N) :=
  match pat, s with
  | [], _ => Some s
  | p :: pat', c :: s' =>
    if canonicalize p =? canonicalize c then match_label pat' s' else None
  | _ :: _, [] => None
  end.

(** [[A-Z]+:] with the class given by [cls]; [seen] tells whether a
    letter has been consumed. *)
Fixpoint letters_colon (cls : N -> bool) (seen : bool) (s : list N) : bool :=
  match s with
  | c :: s' =>
    if cls c then letters_colon cls true s'
    else seen && (c =? 58)
  | [] => false
  end.

(** The look-ahead alternative [\n\n[A-Z]+:]. *)
Definition header_ahead_with (cls : N -> bool) (s : list N) : bool :=
  match s with
  | 10 :: 10 :: r => letters_colon cls false r
  | _ => false
  end.

Definition header_ahead : list N -> bool := header_ahead_with isLetter_i.

(** The lazy group [([\s\S]*?)]: the shortest run after which the
    look-ahead [(?=\n\n[A-Z]+:|$)] holds. *)
Fixpoint lazy_body (ahead : list N -> bool) (s : list N) : list N :=
  if ahead s then []
  else match s with
       | [] => []
       | c :: s' => c :: lazy_body ahead s'
       end.

(** Leftmost match of the whole expression; the captured group.  The
    lazy group and the look-ahead can always be satisfied, at the latest
    at the end of the input, so the greedy [\s*] keeps all the white
    space it finds and the leftmost occurrence of the label decides the
    match. *)
Fixpoint section_match (ahead : list N -> bool) (label text : list N)
  : option (list N) :=
  match match_label label text with
  | Some rest => Some (lazy_body ahead (trimStart rest))
  | None =>
    match text with
    | [] => None
    | _ :: text' => section_match ahead label text'
    end
  end.

Definition extractSection (text sectionName : list N) : list N :=
  match section_match header_ahead (sectionName ++ [58]) text with
  | Some body => trim body
  | None => []
  end.

(** The reading of the specification: the next header has to be in upper
    case to end a section.  Only the look-ahead class differs. *)
Definition extractSection_upper (text sectionName : list N) : list N :=
  match section_match (header_ahead_with isUpper) (sectionName ++ [58]) text with
  | Some body => trim body
  | None => []
  end.

(** ** [extractInsights]

    The character class of the separator reads, in the source file,
    hyphen, U+00E2, U+20AC, U+00A2, asterisk. *)

Definition isBulletMarker (c : N) : bool :=
  (c =? 45) || (c =? 226) || (c =? 8364) || (c =? 162) || (c =? 42).

(** [s.split(/[-...*]\s*/)]: a separator is one marker and the white
    space behind it; [in_sep] holds while that white space is read. *)
Fixpoint split_markers (in_sep : bool) (cur s : list N) : list (list N) :=
  match s with
  | [] => [rev cur]
  | c :: s' =>
    if in_sep && isWhiteSpace c then split_markers true cur s'
    else if isBulletMarker c then rev cur :: split_markers true [] s'
    else split_markers false (c :: cur) s'
  end.

Definition fallbackInsights : list (list N) :=
  [ lit "Document successfully processed and indexed";
    lit "Content is available for search and reference" ].

Definition extractInsights (text : list N) : list (list N) :=
  let insightsSection := extractSection text (lit "INSIGHTS") in
  if negb (truthy insightsSection) then fallbackInsights
  else
    let insights :=
      List.map trim
        (List.filter (fun line => truthy (trim line))
           (split_markers false [] insightsSection)) in
    firstn 5 insights.

(** What splitting on markers means: [MarkerSplit pieces s] holds when
    [s] is the pieces put back together, consecutive pieces being set
    apart by one marker and all the white space behind it, and no piece
    holding a marker. *)
Inductive MarkerSplit : list (list N) -> list N -> Prop :=
| split_end (p : list N) :
    (forall c, c ∈ p -> isBulletMarker c = false) ->
    MarkerSplit [p] p
| split_at (p : list N) (m : N) (ws s : list N) (pieces : list (list N)) :
    (forall c, c ∈ p -> isBulletMarker c = false) ->
    isBulletMarker m = true ->
    Forall (fun c => isWhiteSpace c = true) ws ->
    trimStart s = s ->
    MarkerSplit pieces s ->
    MarkerSplit (p :: pieces) (p ++ m :: ws ++ s).

(** ** [extractRecommendations] *)

Definition has_marker (line : list N) : bool :=
  includes line (lit "STORMWATER:") || includes line (lit "QSD:")
  || includes line (lit "SWPPP:") || includes line (lit "EROSION:").

(** [s.replace(/^(STORMWATER|QSD|SWPPP|EROSION):\s*/, '')] *)
Fixpoint strip_marker_among (markers : list (list N)) (s : list N) : list N :=
  match markers with
  | [] => s
  | m :: markers' =>
    match strip_prefix (m ++ [58]) s with
    | Some rest => trimStart rest
    | None => strip_marker_among markers' s
    end
  end.

Definition strip_marker : list N -> list N :=
  strip_marker_among
    [lit "STORMWATER"; lit "QSD"; lit "SWPPP"; lit "EROSION"].

Definition subcategory_of (line : list N) : list N :=
  if includes line (lit "QSD:") then lit "QSD"
  else if includes line (lit "SWPPP:") then lit "SWPPP"
  else if includes line (lit "EROSION:") then lit "Erosion Control"
  else lit "General".

(** One turn of the loop [for (const line of lines)]; [recommendations]
    is the array built so far. *)
Definition recommendation_step (document : Document)
    (recommendations : list Recommendation) (line : list N)
  : list Recommendation :=
  if has_marker line then
    let parts := split line (lit " - ") in
    if (2 <=? List.length parts)%nat then
      let titlePart := strip_marker (hd [] parts) in
      recommendations ++
      [ {| title := trim titlePart;
           rec_content := trim (join (lit " - ") (tl parts));
           rec_category := lit "stormwater";
           subcategory := Some (subcategory_of line);
           citation :=
             originalName document ++ lit ", Section "
             ++ decimal (N.of_nat (List.length recommendations) + 1) |} ]
    else recommendations
  else recommendations.

Definition reviewRequired (document : Document) : Recommendation :=
  {| title := lit "Document Review Required";
     rec_content := lit "This document has been processed and is available for search. Manual review is recommended to extract specific engineering recommendations.";
     rec_category := lit "stormwater";
     subcategory := None;
     citation := originalName document ++ lit ", Full Document" |}.

Definition extractRecommendations (text : list N) (document : Document)
  : list Recommendation :=
  let recommendationsSection := extractSection text (lit "RECOMMENDATIONS") in
  if negb (truthy recommendationsSection) then [reviewRequired document]
  else
    let lines :=
      List.filter (fun line => truthy (trim line))
        (split recommendationsSection [10]) in
    firstn 10 (fold_left (recommendation_step document) lines []).

(** ** [parseAnalysisResponse] *)

Definition contentLength (document : Document) : N :=
  N.of_nat (List.length (content document)).

Definition parseAnalysisResponse (analysisText : list N) (document : Document)
  : AnalysisResult :=
  let section := extractSection analysisText (lit "ANALYSIS") in
  {| analysis :=
       if truthy section then section
       else lit "Document analysis for " ++ originalName document
            ++ lit " (" ++ category document
            ++ lit "). The document contains "
            ++ decimal (contentLength document)
            ++ lit " characters of content related to stormwater management.";
     insights := extractInsights analysisText;
     recommendations := extractRecommendations analysisText document |}.

(** ** [generateFallbackAnalysis]

    An absent query and an empty query are both falsy. *)

Definition queryClause (query : option (list N)) : list N :=
  match query with
  | Some q => if truthy q then lit "Query: " ++ q ++ lit ". " else []
  | None => []
  end.

Definition generateFallbackAnalysis (document : Document)
    (query : option (list N)) : AnalysisResult :=
  {| analysis :=
       lit "Document analysis for " ++ originalName document
       ++ lit " (" ++ category document ++ lit "). "
       ++ queryClause query
       ++ lit "The document contains "
       ++ decimal (contentLength document)
       ++ lit " characters of content related to stormwater management. Due to AI service limitations, detailed analysis is not available at this time.";
     insights :=
       [ lit "Document successfully processed and indexed";
         lit "Content is available for search and reference";
         lit "Manual review recommended for detailed insights" ];
     recommendations := [reviewRequired document] |}.

(** ** [buildReferenceContext] *)

(** [Array.prototype.sort] with the comparator
    [(a, b) => b.content.length - a.content.length].  The sort is stable
    (ECMAScript 2019), so its result does not depend on the algorithm; it
    is computed here by insertion, an element going in front of the
    first one that is not longer. *)
Fixpoint insert_by_length (d : Document) (l : list Document) : list Document :=
  match l with
  | [] => [d]
  | x :: l' =>
    if (List.length (content x) <=? List.length (content d))%nat
    then d :: x :: l'
    else x :: insert_by_length d l'
  end.

Definition sort_by_length (l : list Document) : list Document :=
  fold_right insert_by_length [] l.

Definition substantial (doc : Document) : bool :=
  truthy (content doc) && (50 <? List.length (content doc))%nat.

Definition referenceDocs (allDocuments : list Document) : list Document :=
  sort_by_length (List.filter substantial allDocuments).

Definition referenceEntry (doc : Document) : list N :=
  let preview := substring0 1500 (content doc) in
  let docName :=
    if truthy (originalName doc) then originalName doc
    else lit "Untitled Document" in
  lit "[REFERENCE: " ++ [34] ++ docName ++ [34] ++ lit "] (" ++ category doc
  ++ lit ")" ++ [10]
  ++ lit "FILE SIZE: " ++ toFixed1_div1024 (contentLength doc) ++ lit "KB"
  ++ [10]
  ++ lit "CONTENT EXTRACT: " ++ preview
  ++ (if (1500 <? List.length (content doc))%nat
      then lit "...[FULL DOCUMENT AVAILABLE]" else [])
  ++ [10] ++ lit "---".

Definition bmpImplementationGuide : list N := lit "

**COMPREHENSIVE BMP IMPLEMENTATION DATABASE:**

**EROSION CONTROL BMPs:**

Silt Fence Installation:
- Materials: Geotextile fabric (ASTM D4632, min 200 lb tensile), steel T-posts (6 ft), hardware cloth, zip ties
- Quantities: 1 post per 6-8 feet, fabric height 36 inches
- Installation: Dig 6-inch trench, install posts 3 feet deep, attach fabric with 6 inches above grade
- Cost: $3-5 per linear foot (materials and labor)

Straw Wattles:
- Materials: Certified weed-free straw, biodegradable netting, wooden stakes (2x2 inches)
- Installation: Create 6-inch deep trench on contour, stake every 4 feet, overlap ends 2 feet
- Maintenance: Replace after 90% breakdown or loss of function
- Cost: $8-12 per linear foot

Hydroseeding:
- Materials: Seed mix (2-4 lbs/1000 sf), wood fiber mulch (1500-2000 lbs/acre), tackifier
- Application: Mix in hydro-tank, spray evenly, water if no rain within 48 hours
- Timing: Optimal planting seasons (spring/fall), avoid extreme weather
- Cost: $0.15-0.30 per square foot

**SEDIMENT CONTROL BMPs:**

Sediment Basin Construction:
- Sizing: 1800 cf per acre of drainage area (minimum 2-year, 24-hour storm)
- Materials: Excavation, outlet structure (riser pipe/orifice), emergency spillway, rip-rap
- Installation: Compact bottom, install outlet, stabilize embankment
- Maintenance: Remove sediment when 50% capacity reached
- Cost: $2-8 per cubic foot

Check Dam Installation:
- Materials: Rock (6-18 inch diameter), filter fabric, geotextile
- Spacing: 200-300 feet apart in channels, center notch 12 inches deep
- Installation: Excavate foundation, place fabric, install rock with center low
- Cost: $50-200 per check dam

**INFILTRATION BMPs:**

Bioretention Cell:
- Sizing: 5-10% of drainage area, minimum 18-inch ponding depth
- Materials: Engineered soil mix (sand/topsoil/compost), plants, underdrain system
- Components: Pretreatment, ponding area, soil media (36-48 inches), underdrain
- Plants: Native species, salt/pollution tolerant, varied root depths
- Cost: $5-15 per square foot

Rain Garden:
- Sizing: 20-30% of roof drainage area
- Materials: Amended soil (50% sand, 30% topsoil, 20% compost), native plants
- Installation: Excavate 6-18 inches deep, install overflow, plant selection
- Maintenance: Weeding, mulching, plant replacement as needed
- Cost: $3-8 per square foot

**MATERIAL SPECIFICATIONS:**
- Geotextile: ASTM D4632, minimum 200 lb tensile strength, UV stable
- Aggregate: ASTM C33, clean washed stone, 1.5-2.5 inch diameter for rip-rap
- Steel Posts: Galvanized T-posts, 6-foot length, driven 3 feet minimum
- Seed Mix: Certified, 90% germination, appropriate for local climate
- Filter Fabric: Non-woven, 140 gsm minimum, high flow rate

**INSTALLATION TIMING:**
- Best: Dry weather periods, avoid frozen ground
- Seeding: Spring (March-May) or Fall (September-November)
- Avoid: During rain events, extreme heat, or winter months".

Definition noReferenceDocuments : list N :=
  lit "No reference documents available in the library.".

Definition buildReferenceContext (allDocuments : list Document) : list N :=
  match referenceDocs allDocuments with
  | [] => noReferenceDocuments
  | docs => join [10] (List.map referenceEntry docs) ++ bmpImplementationGuide
  end.

(** ** Notions used in the statements about the parser *)

(** The citations of [recs] are the running counter. *)
Definition cited (document : Document) (recs : list Recommendation) : Prop :=
  forall (k : nat) (r : Recommendation),
    recs !! k = Some r ->
    citation r
    = originalName document ++ lit ", Section " ++ decimal (N.of_nat k + 1).

(** [a] may stand in front of [b] in the sorted library. *)
Definition longer_first (a b : Document) : Prop := (List.length (content b) <= List.length (content a))%nat.

(** ** [analyzeDocument]

    The prompt and system
    texts are long template literals; they are parameters of the model
    ([Templates]), as are the storage layer and the hosted model
    ([Services]). *)

Inductive ContentBlock :=
| TextBlock (text : list N)
| OtherBlock.

Record Request := {
  max_tokens : N;
  system : list N;
  prompt : list N;
  image : option (list N * list N)
}.

(** The template literals: the prompts, as functions of what they
    interpolate (document, number of library documents, reference
    context, query), the system texts, and [getMediaType]. *)
Record Templates := {
  textAnalysisPrompt : Document -> nat -> list N -> option (list N) -> list N;
  imageAnalysisPrompt : Document -> list N -> option (list N) -> list N;
  contextPrompt : Document -> list N -> option (list N) -> list N;
  buildAnalysisPrompt : Document -> option (list N) -> list N;
  systemLargeImage : list N;
  systemImage : list N;
  systemContext : list N;
  systemText : list N;
  getMediaType : list N -> list N
}.

(** What the analyzer calls: [hasApiKey] tells whether the constructor
    found a key (the client [anthropic] is non-null exactly then),
    [getAllDocuments] stands for the import of the storage module and
    [storage.getAllDocuments()], [messages_create] for
    [anthropic.messages.create], returning the content blocks. *)
Record Services := {
  hasApiKey : bool;
  getAllDocuments : outcome (list Document);
  messages_create : Request -> outcome (list ContentBlock)
}.

(** [response.content[0].type === 'text' ? response.content[0].text : '']:
    reading [type] of a missing first block throws a [TypeError]. *)
Definition firstText (blocks : list ContentBlock) : outcome (list N) :=
  match blocks with
  | [] => Thrown {| status := None;
                    message := lit "Cannot read properties of undefined (reading 'type')" |}
  | TextBlock t :: _ => Returned t
  | OtherBlock :: _ => Returned []
  end.

(** [/\.(jpg|jpeg|png|gif|bmp|webp|heic|heif)$/i.test(name)] *)
Definition endsWith_i (s suffix : list N) : bool :=
  match match_label (rev suffix) (rev s) with Some _ => true | None => false end.

Definition isImage (name : list N) : bool :=
  existsb (fun ext => endsWith_i name (46 :: ext))
    [lit "jpg"; lit "jpeg"; lit "png"; lit "gif"; lit "bmp"; lit "webp";
     lit "heic"; lit "heif"].

(** [content.match(/IMAGE_BASE64:([A-Za-z0-9+/=]+)/)], the captured group. *)
Definition isBase64Char (c : N) : bool :=
  ((65 <=? c) && (c <=? 90)) || ((97 <=? c) && (c <=? 122))
  || ((48 <=? c) && (c <=? 57)) || (c =? 43) || (c =? 47) || (c =? 61).

Fixpoint takeWhile (p : N -> bool) (s : list N) : list N :=
  match s with
  | c :: s' => if p c then c :: takeWhile p s' else []
  | [] => []
  end.

Fixpoint base64Match (s : list N) : option (list N) :=
  let here :=
    match strip_prefix (lit "IMAGE_BASE64:") s with
    | Some rest =>
      match takeWhile isBase64Char rest with
      | [] => None
      | data => Some data
      end
    | None => None
    end in
  match here with
  | Some data => Some data
  | None =>
    match s with
    | [] => None
    | _ :: s' => base64Match s'
    end
  end.

Section AnalyzeDocument.
Variable T : Templates.
Variable S : Services.

Definition complete (req : Request) (document : Document) : outcome AnalysisResult :=
  blocks ← messages_create S req;
  analysisText ← firstText blocks;
  mret (parseAnalysisResponse analysisText document).

Definition analyzeTextDocument (document : Document) (query : option (list N))
  : outcome AnalysisResult :=
  complete {| max_tokens := 8000; system := systemText T;
              prompt := buildAnalysisPrompt T document query;
              image := None |} document.

Definition analyzeImageWithContext (document : Document)
    (allDocuments : list Document) (query : option (list N))
  : outcome AnalysisResult :=
  let referenceContext := buildReferenceContext allDocuments in
  if includes (content document) (lit "IMAGE_TOO_LARGE:") then
    complete {| max_tokens := 4000; system := systemLargeImage T;
                prompt := textAnalysisPrompt T document
                            (List.length allDocuments) referenceContext query;
                image := None |} document
  else
    match base64Match (content document) with
    | Some base64Image =>
      complete {| max_tokens := 4000; system := systemImage T;
                  prompt := imageAnalysisPrompt T document referenceContext query;
                  image := Some (getMediaType T (originalName document),
                                 base64Image) |} document
    | None => analyzeTextDocument document query
    end.

Definition analyzeDocumentWithContext (document : Document)
    (allDocuments : list Document) (query : option (list N))
  : outcome AnalysisResult :=
  let referenceContext := buildReferenceContext allDocuments in
  complete {| max_tokens := 8000; system := systemContext T;
              prompt := contextPrompt T document referenceContext query;
              image := None |} document.

Definition analyzeDocument (document : Document) (query : option (list N))
  : outcome AnalysisResult :=
  if negb (hasApiKey S) then Returned (generateFallbackAnalysis document query)
  else
    try_catch
      (allDocuments ← getAllDocuments S;
       if isImage (originalName document)
       then analyzeImageWithContext document allDocuments query
       else analyzeDocumentWithContext document allDocuments query)
      (fun _ => Returned (generateFallbackAnalysis document query)).

End AnalyzeDocument.

End Analyzer.

(* ================================================================== *)
(** * The class [PythonInterpreter]                                    *)
(* ================================================================== *)

Module Interpreter.
Import JS.

(** Values produced by [JSON.parse]. *)
Unset Elimination Schemes.
Inductive JSONValue :=
| JNull
| JBool (b : bool)
| JNumber (z : Z)
| JString (s : list N)
| JArray (items : list JSONValue)
| JObject (members : list (list N * JSONValue)).
Set Elimination Schemes.

Definition json_truthy (v : JSONValue) : bool :=
  match v with
  | JNull => false
  | JBool b => b
  | JNumber z => negb (z =? 0)%Z
  | JString s => truthy s
  | JArray _ | JObject _ => true
  end.

Fixpoint lookup_member (key : list N) (members : list (list N * JSONValue))
  : option JSONValue :=
  match members with
  | [] => None
  | (k, v) :: rest =>
    if decide (k = key) then Some v else lookup_member key rest
  end.

(** [v.key] for one of the keys [plots] and [analysis]: [undefined]
    ([None]) unless [v] is an object with that member; a [TypeError] on
    [null]. *)
Definition get_property (v : JSONValue) (key : list N)
  : outcome (option JSONValue) :=
  match v with
  | JNull =>
    Thrown {| status := None;
              message := lit "Cannot read properties of null (reading '"
                         ++ key ++ lit "')" |}
  | JObject members => Returned (lookup_member key members)
  | _ => Returned None
  end.

(** [x || dflt] *)
Definition or_default (x : option JSONValue) (dflt : JSONValue) : JSONValue :=
  match x with
  | Some v => if json_truthy v then v else dflt
  | None => dflt
  end.

Inductive AnalysisType := data_analysis | visualization | calculation | modeling.

Record PythonExecutionResult := {
  success : bool;
  output : option (list N);
  error : option (list N);
  plots : option JSONValue;
  dataAnalysis : option JSONValue
}.

Record ScriptResult := {
  script_success : bool;
  script_output : option (list N);
  script_error : option (list N)
}.

(** The host: the JSON library, the script template and the failures of
    the synchronous file operations ([Some msg]: the call on that path
    throws an error with message [msg]). *)
Record Host := {
  JSON_parse : list N -> option JSONValue;
  JSON_stringify : JSONValue -> list N;
  prepareStormwaterEnvironment :
    list N -> list N -> list N -> AnalysisType -> list N;
  write_error : list N -> option (list N);
  read_error : list N -> option (list N);
  unlink_error : list N -> option (list N)
}.

(** The file system (path to content) and whether [kill] has been sent
    to the child by the time a call returns.  (The timer is never
    cleared; when it fires after the promise is settled, its [resolve]
    has no effect.) *)
Record World := {
  files : gmap (list N) (list N);
  killed : bool
}.

Definition IO (A : Type) : Type := World -> World * outcome A.

#[global] Instance IO_ret : MRet IO := fun A a w => (w, Returned a).

#[global] Instance IO_bind : MBind IO :=
  fun A B k m w =>
    match m w with
    | (w', Returned a) => k a w'
    | (w', Thrown e) => (w', Thrown e)
    end.

Definition io_try {A : Type} (body : IO A) (handler : JsError -> IO A) : IO A :=
  fun w =>
    match body w with
    | (w', Returned a) => (w', Returned a)
    | (w', Thrown e) => handler e w'
    end.

Definition io_of {A : Type} (m : outcome A) : IO A := fun w => (w, m).

Definition fs_error (msg : list N) : JsError :=
  {| status := None; message := msg |}.

Section WithHost.
Variable H : Host.

Definition existsSync (path : list N) : IO bool :=
  fun w => (w, Returned (bool_decide (is_Some (files w !! path)))).

Definition writeFileSync (path data : list N) : IO unit :=
  fun w =>
    match write_error H path with
    | Some msg => (w, Thrown (fs_error msg))
    | None => ({| files := <[path := data]> (files w); killed := killed w |},
               Returned tt)
    end.

Definition readFileSync (path : list N) : IO (list N) :=
  fun w =>
    match read_error H path, files w !! path with
    | Some msg, _ => (w, Thrown (fs_error msg))
    | None, Some data => (w, Returned data)
    | None, None =>
      (w, Thrown (fs_error (lit "ENOENT: no such file or directory")))
    end.

Definition unlinkSync (path : list N) : IO unit :=
  fun w =>
    match unlink_error H path with
    | Some msg => (w, Thrown (fs_error msg))
    | None => ({| files := delete path (files w); killed := killed w |},
               Returned tt)
    end.

(** [cleanup]: each file on its own, a failure is logged and dropped. *)
Definition cleanup_one (file : list N) : IO unit :=
  io_try
    (present ← existsSync file;
     if present : bool then unlinkSync file else mret tt)
    (fun _ => mret tt).

Fixpoint cleanup (files : list (list N)) : IO unit :=
  match files with
  | [] => mret tt
  | file :: rest => _ ← cleanup_one file; cleanup rest
  end.

(** What the spawned child does: which of the three callbacks settles
    the promise of [executePythonScript] (['close'] with the exit code,
    [None] for a child ended by a signal; ['error']; the 30000 ms
    timer), the data received on the two pipes before, the files the
    child has written by then, and, for a child that is still running
    when the timer fires, what it goes on to write.  [kill()] only sends
    SIGTERM and nothing waits for the exit, so such a child may write
    while the runner cleans up and after; [survivor_writes] is the net
    effect of these writes on the files that the clean-up leaves. *)
Inductive Settlement :=
| Closed (code : option Z)
| SpawnFailed (msg : list N)
| TimedOut.

Record ChildRun := {
  settled_by : Settlement;
  stdout : list N;
  stderr : list N;
  child_writes : gmap (list N) (list N) -> gmap (list N) (list N);
  survivor_writes : gmap (list N) (list N) -> gmap (list N) (list N)
}.

(** The files once a child that outlived the timer has done with them;
    after ['close'] and ['error'] there is no child left. *)
Definition survived (run : ChildRun) (fs : gmap (list N) (list N))
  : gmap (list N) (list N) :=
  match settled_by run with
  | TimedOut => survivor_writes run fs
  | _ => fs
  end.

Definition outlived (run : ChildRun) : IO unit :=
  fun w => ({| files := survived run (files w); killed := killed w |},
            Returned tt).

Definition timeoutMessage : list N :=
  lit "Python execution timed out after 30 seconds".

Definition executePythonScript (run : ChildRun) : IO ScriptResult :=
  fun w =>
    let fs := child_writes run (files w) in
    match settled_by run with
    | Closed code =>
      ({| files := fs; killed := killed w |},
       Returned
         {| script_success := bool_decide (code = Some 0%Z);
            script_output := Some (trim (stdout run));
            script_error :=
              if truthy (trim (stderr run)) then Some (trim (stderr run))
              else None |})
    | SpawnFailed msg =>
      ({| files := fs; killed := killed w |},
       Returned
         {| script_success := false;
            script_output := None;
            script_error := Some (lit "Failed to start Python process: " ++ msg) |})
    | TimedOut =>
      ({| files := fs; killed := true |},
       Returned
         {| script_success := false;
            script_output := None;
            script_error := Some timeoutMessage |})
    end.

Definition path_join (dir name : list N) : list N := dir ++ [47] ++ name.

Definition scriptPath (tempDir sessionId : list N) : list N :=
  path_join tempDir (lit "script_" ++ sessionId ++ lit ".py").
Definition dataPath (tempDir sessionId : list N) : list N :=
  path_join tempDir (lit "data_" ++ sessionId ++ lit ".json").
Definition outputPath (tempDir sessionId : list N) : list N :=
  path_join tempDir (lit "output_" ++ sessionId ++ lit ".json").

Definition summaryObject (summary : list N) : JSONValue :=
  JObject [ (lit "summary", JString summary);
            (lit "insights", JArray []);
            (lit "recommendations", JArray []) ].

Definition data_truthy (data : option JSONValue) : bool :=
  match data with Some d => json_truthy d | None => false end.

(** The [catch] block of [executeStormwaterAnalysis].  It is entered
    either before the child is started (a write failed) or after the
    promise is settled; only then is there a child that may have
    outlived the timer. *)
Definition catch_block (tempDir sessionId : list N) (run : ChildRun)
    (childStarted : bool) (error : JsError) : IO PythonExecutionResult :=
  _ ← cleanup [scriptPath tempDir sessionId; dataPath tempDir sessionId;
               outputPath tempDir sessionId];
  _ ← (if childStarted then outlived run else mret tt);
  mret {| success := false;
          output := None;
          error := Some (lit "Python interpreter error: " ++ message error);
          plots := None;
          dataAnalysis :=
            Some (summaryObject (lit "Failed to execute Python analysis")) |}.

(** [tempDir] is the directory of the interpreter and [sessionId] the
    value drawn from [uuidv4()].  The one [try] of the source is written
    in two, around the part before the child is started and around the
    part behind it, with the same [catch] block; the block returns, so
    the two read as the one. *)
Definition executeStormwaterAnalysis (tempDir sessionId : list N)
    (code : list N) (data : option JSONValue) (analysisType : AnalysisType)
    (run : ChildRun) : IO PythonExecutionResult :=
  let scriptPath := scriptPath tempDir sessionId in
  let dataPath := dataPath tempDir sessionId in
  let outputPath := outputPath tempDir sessionId in
  io_try
    (let enhancedCode :=
       prepareStormwaterEnvironment H code dataPath outputPath analysisType in
     _ ← (match data with
          | Some d =>
            if json_truthy d then writeFileSync dataPath (JSON_stringify H d)
            else mret tt
          | None => mret tt
          end);
     _ ← writeFileSync scriptPath enhancedCode;
     io_try
       (result ← executePythonScript run;
        present ← existsSync outputPath;
        analysisResults ←
          (if present : bool then
             outputContent ← readFileSync outputPath;
             mret (match JSON_parse H outputContent with
                   | Some v => v
                   | None => JObject []
                   end)
           else mret (JObject []));
        _ ← cleanup [scriptPath; dataPath; outputPath];
        plotsMember ← io_of (get_property analysisResults (lit "plots"));
        analysisMember ← io_of (get_property analysisResults (lit "analysis"));
        _ ← outlived run;
        mret {| success := script_success result;
                output := script_output result;
                error := script_error result;
                plots := Some (or_default plotsMember (JArray []));
                dataAnalysis :=
                  Some (or_default analysisMember
                          (summaryObject
                             (if script_success result
                              then lit "Python execution completed successfully"
                              else lit "Execution failed"))) |})
       (catch_block tempDir sessionId run true))
    (catch_block tempDir sessionId run false).

End WithHost.

(** ** Notions used in the statements about the runner *)

Definition temp_paths (tempDir sessionId : list N) : list (list N) :=
  [ scriptPath tempDir sessionId; dataPath tempDir sessionId;
    outputPath tempDir sessionId ].

(** Both temporary files could be written, so that the runner goes on
    to spawn the child. *)
Definition inputs_written (H : Host) (tempDir sessionId : list N)
    (data : option JSONValue) : Prop :=
  write_error H (scriptPath tempDir sessionId) = None
  /\ (data_truthy data = true ->
      write_error H (dataPath tempDir sessionId) = None).

(** The files at the time the promise of [executePythonScript] settles. *)
Definition files_at_settlement (H : Host) (tempDir sessionId code : list N)
    (data : option JSONValue) (analysisType : AnalysisType) (run : ChildRun)
    (fs : gmap (list N) (list N)) : gmap (list N) (list N) :=
  child_writes run
    (<[scriptPath tempDir sessionId :=
         prepareStormwaterEnvironment H code (dataPath tempDir sessionId)
           (outputPath tempDir sessionId) analysisType]>
       (match data with
        | Some d =>
          if json_truthy d
          then <[dataPath tempDir sessionId := JSON_stringify H d]> fs
          else fs
        | None => fs
        end)).

(** The output file is absent, or it can be read and does not hold the
    JSON value [null]. *)
Definition output_tolerated (H : Host) (fs : gmap (list N) (list N))
    (path : list N) : Prop :=
  match fs !! path with
  | None => True
  | Some data => read_error H path = None /\ JSON_parse H data <> Some JNull
  end.

(** The error reported when the parsed output is the value [null]. *)
Definition nullError : list N :=
  lit "Python interpreter error: Cannot read properties of null (reading 'plots')".

(** The files left by one and by several best-effort deletions. *)
Definition swept (H : Host) (file : list N) (fs : gmap (list N) (list N))
  : gmap (list N) (list N) :=
  if bool_decide (is_Some (fs !! file)) then
    match unlink_error H file with
    | None => delete file fs
    | Some _ => fs
    end
  else fs.

Definition swept_all (H : Host) (paths : list (list N))
    (fs : gmap (list N) (list N)) : gmap (list N) (list N) :=
  fold_left (fun fs p => swept H p fs) paths fs.

(** A child that outlives the timer does not write the file at [path]
    again once it is deleted. *)
Definition not_rewritten (run : ChildRun) (path : list N) : Prop :=
  forall fs, fs !! path = None -> survivor_writes run fs !! path = None.

End Interpreter.

(* ================================================================== *)
(** * The class [PluginManager]                                        *)
(* ================================================================== *)

Module Plugins.
Import JS.

Local Open Scope Z_scope.

Record ResourceUsage := {
  memory : Z;
  cpu : Z;
  activeRequests : Z;
  queuedRequests : Z
}.

(** A plugin: its declared figures, what [getResourceUsage()] reports,
    and whether its [initialize()] and [shutdown()] return or throw. *)
Record AIPlugin := {
  id : list N;
  name : list N;
  memoryUsage : Z;
  cpuUsage : Z;
  isActive : bool;
  getResourceUsage : ResourceUsage;
  initialize : outcome unit;
  shutdown : outcome unit
}.

Definition set_active (b : bool) (p : AIPlugin) : AIPlugin :=
  {| id := id p; name := name p; memoryUsage := memoryUsage p;
     cpuUsage := cpuUsage p; isActive := b;
     getResourceUsage := getResourceUsage p;
     initialize := initialize p; shutdown := shutdown p |}.

Inductive Lifecycle :=
| InitializeCalled (pluginId : list N)
| ShutdownCalled (pluginId : list N).

(** The manager: the map [plugins] and, for the statements below, the
    lifecycle calls it has made (latest first). *)
Record Manager := {
  plugins : gmap (list N) AIPlugin;
  calls : list Lifecycle
}.

Definition maxMemoryUsage : Z := 4096.
Definition maxCpuUsage : Z := 80.

Definition newManager : Manager := {| plugins := ∅; calls := [] |}.

(** [Array.from(this.plugins.values()).reduce(...)]: the sums are taken
    over integers, so the order of the map plays no role. *)
Definition getTotalMemoryUsage (m : Manager) : Z :=
  map_fold (fun _ plugin total => total + memory (getResourceUsage plugin))
           0 (plugins m).

Definition getTotalCpuUsage (m : Manager) : Z :=
  map_fold (fun _ plugin total => total + cpu (getResourceUsage plugin))
           0 (plugins m).

Definition canLoadPlugin (m : Manager) (plugin : AIPlugin) : bool :=
  let currentMemory := getTotalMemoryUsage m in
  let currentCpu := getTotalCpuUsage m in
  (currentMemory + memoryUsage plugin <=? maxMemoryUsage)
  && (currentCpu + cpuUsage plugin <=? maxCpuUsage).

Definition registerPlugin (m : Manager) (plugin : AIPlugin) : bool * Manager :=
  if negb (canLoadPlugin m plugin) then (false, m)
  else
    match initialize plugin with
    | Thrown _ =>
      (false, {| plugins := plugins m;
                 calls := InitializeCalled (id plugin) :: calls m |})
    | Returned _ =>
      (true, {| plugins := <[id plugin := set_active true plugin]> (plugins m);
                calls := InitializeCalled (id plugin) :: calls m |})
    end.

Definition unregisterPlugin (m : Manager) (pluginId : list N) : bool * Manager :=
  match plugins m !! pluginId with
  | None => (false, m)
  | Some plugin =>
    match shutdown plugin with
    | Thrown _ =>
      (false, {| plugins := plugins m;
                 calls := ShutdownCalled pluginId :: calls m |})
    | Returned _ =>
      (true, {| plugins := delete pluginId (plugins m);
                calls := ShutdownCalled pluginId :: calls m |})
    end
  end.

(** [registerPlugin] up to [await plugin.initialize()], where
    [initialize()] has been called ([None]: the plugin is refused and the
    call returns [false]), and from there on.  A call that is not
    awaited leaves the manager to other calls in between. *)
Definition registerPlugin_start (m : Manager) (plugin : AIPlugin)
  : option Manager :=
  if negb (canLoadPlugin m plugin) then None
  else Some {| plugins := plugins m;
               calls := InitializeCalled (id plugin) :: calls m |}.

Definition registerPlugin_finish (m : Manager) (plugin : AIPlugin)
  : bool * Manager :=
  match initialize plugin with
  | Thrown _ => (false, m)
  | Returned _ =>
    (true, {| plugins := <[id plugin := set_active true plugin]> (plugins m);
              calls := calls m |})
  end.

(** A sequence of calls, each one awaited before the next. *)
Inductive Call :=
| Register (plugin : AIPlugin)
| Unregister (pluginId : list N).

Definition perform (m : Manager) (c : Call) : Manager :=
  match c with
  | Register plugin => snd (registerPlugin m plugin)
  | Unregister pluginId => snd (unregisterPlugin m pluginId)
  end.

Definition perform_all (cs : list Call) : Manager :=
  fold_left perform cs newManager.

(** [getResourceUsage] reports the declared constants. *)
Definition reports_declared (p : AIPlugin) : Prop :=
  memory (getResourceUsage p) = memoryUsage p
  /\ cpu (getResourceUsage p) = cpuUsage p.

(** The declared constants are amounts (megabytes, percent): they are
    not negative.  Nothing in the source checks it. *)
Definition declares_amounts (p : AIPlugin) : Prop :=
  0 <= memoryUsage p /\ 0 <= cpuUsage p.

Definition well_behaved (p : AIPlugin) : Prop :=
  reports_declared p /\ declares_amounts p.

(** The sum of [g] over the registered plugins. *)
Definition total (g : AIPlugin -> Z) (m : gmap (list N) AIPlugin) : Z :=
  map_fold (fun _ plugin acc => acc + g plugin) 0 m.

(** The sums the manager computes stay within the caps. *)
Definition within_caps (m : Manager) : Prop :=
  getTotalMemoryUsage m <= maxMemoryUsage
  /\ getTotalCpuUsage m <= maxCpuUsage.

Definition all_well_behaved (m : Manager) : Prop :=
  forall i p, plugins m !! i = Some p -> well_behaved p.

(** Every plugin that the call registers has the property [P]. *)
Definition registers (P : AIPlugin -> Prop) (c : Call) : Prop :=
  match c with
  | Register plugin => P plugin
  | Unregister _ => True
  end.

End Plugins.

(* ================================================================== *)
(** * Sample inputs                                                    *)
(* ================================================================== *)

Module Samples.
Import JS Analyzer.

Definition sitePlan : Document :=
  {| originalName := lit "site-plan.pdf";
     content := lit "Grading plan for the north parcel.";
     category := lit "stormwater";
     description := None |}.

(** A reply with the three headers whose INSIGHTS body is a rule of
    hyphens and whose RECOMMENDATIONS body is a numbered list. *)
Definition replyWithoutItems : list N :=
  lit "ANALYSIS: The site drains to the north.

INSIGHTS:
---

RECOMMENDATIONS:
1. Install a silt fence along the north boundary".

(** A reply whose ANALYSIS body has a second paragraph opened by a
    mixed-case word and a colon. *)
Definition replyWithNote : list N :=
  lit "ANALYSIS: Slope is steep.

Note: verify on site.

INSIGHTS:
- Soil loose".

(** The first scenario of the specification. *)
Definition replyScenario1 : list N :=
  lit "ANALYSIS: Site has erosion.

INSIGHTS:
- Soil loose
- Slope steep

RECOMMENDATIONS:
STORMWATER: Add silt fence - Install per spec X".

Definition replyPlainInsight : list N :=
  lit "INSIGHTS: Soil is loose near the outfall".

(** A reply whose insights are itemised with the bullet U+2022. *)
Definition replyWithBullets : list N :=
  lit "INSIGHTS: " ++ [8226; 32] ++ lit "Soil loose "
  ++ [8226; 32] ++ lit "Slope steep".

(** Two library documents, of 50 and of 60 characters. *)
Definition note50 : Document :=
  {| originalName := lit "note-50.txt";
     content := lit "Inlet protection is required at every storm drain.";
     category := lit "stormwater";
     description := None |}.

Definition note60 : Document :=
  {| originalName := lit "note-60.txt";
     content := lit "Inlet protection is required at every storm drain on site...";
     category := lit "stormwater";
     description := None |}.

(** Templates that keep only the name of the document, and a hosted
    model that answers every request with the rate-limit error 429. *)
Definition nameOnlyTemplates : Templates :=
  {| textAnalysisPrompt := fun d _ _ _ => originalName d;
     imageAnalysisPrompt := fun d _ _ => originalName d;
     contextPrompt := fun d _ _ => originalName d;
     buildAnalysisPrompt := fun d _ => originalName d;
     systemLargeImage := [];
     systemImage := [];
     systemContext := [];
     systemText := [];
     getMediaType := fun _ => lit "image/jpeg" |}.

Definition rateLimited : Services :=
  {| hasApiKey := true;
     getAllDocuments := Returned [sitePlan];
     messages_create := fun _ =>
       Thrown {| status := Some 429; message := lit "rate_limit_error" |} |}.

End Samples.

Module RunnerSamples.
Import JS Interpreter.

Definition tempDir : list N := lit "/app/uploads/python_temp".
Definition sessionId : list N := lit "9b2f6c1e-3d4a-4f7b-8a1c-5e6d7f8a9b0c".
Definition userCode : list N := lit "import time; time.sleep(60)".

(** A parser which agrees with [JSON.parse] on the text [null], the one
    text it is applied to in these samples, and rejects every other. *)
Definition parseNull (text : list N) : option JSONValue :=
  if decide (text = lit "null") then Some JNull else None.

(** A host on which no file operation fails. *)
Definition soundHost : Host :=
  {| JSON_parse := parseNull;
     JSON_stringify := fun _ => lit "{}";
     prepareStormwaterEnvironment := fun code _ _ _ => code;
     write_error := fun _ => None;
     read_error := fun _ => None;
     unlink_error := fun _ => None |}.

(** A host on which the script file cannot be deleted. *)
Definition lockedHost : Host :=
  {| JSON_parse := parseNull;
     JSON_stringify := fun _ => lit "{}";
     prepareStormwaterEnvironment := fun code _ _ _ => code;
     write_error := fun _ => None;
     read_error := fun _ => None;
     unlink_error := fun path =>
       if decide (path = scriptPath tempDir sessionId)
       then Some (lit "EPERM: operation not permitted, unlink")
       else None |}.

(** A child that is still running when the timer fires. *)
Definition sleeper : ChildRun :=
  {| settled_by := TimedOut;
     stdout := [];
     stderr := [];
     child_writes := fun fs => fs;
     survivor_writes := fun fs => fs |}.

(** A child that is still running when the timer fires, takes no notice
    of SIGTERM and writes its output file once the runner has cleaned
    up. *)
Definition lateWriter : ChildRun :=
  {| settled_by := TimedOut;
     stdout := [];
     stderr := [];
     child_writes := fun fs => fs;
     survivor_writes := fun fs => <[outputPath tempDir sessionId := lit "{}"]> fs |}.

(** A child that writes the text [null] to the output file and exits
    with status 0. *)
Definition nullWriter : ChildRun :=
  {| settled_by := Closed (Some 0%Z);
     stdout := lit "Python analysis complete";
     stderr := [];
     child_writes := fun fs => <[outputPath tempDir sessionId := lit "null"]> fs;
     survivor_writes := fun fs => fs |}.

Definition emptyWorld : World := {| files := ∅; killed := false |}.

End RunnerSamples.

Module PluginSamples.
Import JS Plugins.

Local Open Scope Z_scope.

(** The declared figures of two plugins of the repository. *)
Definition stormwaterAnalysis : AIPlugin :=
  {| id := lit "stormwater-analysis";
     name := lit "Stormwater Analysis AI";
     memoryUsage := 512;
     cpuUsage := 25;
     isActive := false;
     getResourceUsage :=
       {| memory := 512; cpu := 25; activeRequests := 0; queuedRequests := 0 |};
     initialize := Returned tt;
     shutdown := Returned tt |}.

Definition chatService : AIPlugin :=
  {| id := lit "chat-service";
     name := lit "AI Chat Service";
     memoryUsage := 256;
     cpuUsage := 15;
     isActive := false;
     getResourceUsage :=
       {| memory := 256; cpu := 15; activeRequests := 0; queuedRequests := 0 |};
     initialize := Returned tt;
     shutdown := Returned tt |}.

Definition startup : list Call :=
  [ Register stormwaterAnalysis; Register chatService;
    Unregister (lit "stormwater-analysis") ].

(** A plugin that declares, and reports, the given figures. *)
Definition declaring (pluginId : string) (mem cpuPct : Z) : AIPlugin :=
  {| id := lit pluginId;
     name := lit pluginId;
     memoryUsage := mem;
     cpuUsage := cpuPct;
     isActive := false;
     getResourceUsage :=
       {| memory := mem; cpu := cpuPct;
          activeRequests := 0; queuedRequests := 0 |};
     initialize := Returned tt;
     shutdown := Returned tt |}.

(** A plugin with a negative memory figure between two large ones, and
    its removal. *)
Definition withCredit : list Call :=
  [ Register (declaring "bulk" 4000 10);
    Register (declaring "credit" (-1000) 0);
    Register (declaring "filler" 1000 10);
    Unregister (lit "credit") ].

(** Two plugins of 3000 MB each. *)
Definition twin1 : AIPlugin := declaring "twin-1" 3000 10.
Definition twin2 : AIPlugin := declaring "twin-2" 3000 10.

End PluginSamples.

(* ================================================================== *)
(** * Further notions about the analyzer                               *)
(* ================================================================== *)

Module AnalyzerNotions.
Import JS Analyzer.

(** What [parseAnalysisResponse] yields when no section is found. *)
Definition parsedFallback (document : Document) : AnalysisResult :=
  {| analysis :=
       lit "Document analysis for " ++ originalName document
       ++ lit " (" ++ category document
       ++ lit "). The document contains "
       ++ decimal (contentLength document)
       ++ lit " characters of content related to stormwater management.";
     insights := fallbackInsights;
     recommendations := [reviewRequired document] |}.

(** The text the analyzer reads from the first content block. *)
Definition blockText (b : ContentBlock) : list N :=
  match b with
  | TextBlock t => t
  | OtherBlock => []
  end.

(** No occurrence of [sep] begins in [head], the string going on with
    [tail]. *)
Definition first_at (sep head tail : list N) : Prop :=
  forall k, (k < List.length head)%nat ->
            startsWith (skipn k (head ++ tail)) sep = false.

End AnalyzerNotions.

Module MoreSamples.
Import JS Analyzer.

(** A reply without headers. *)
Definition replyPlain : list N := lit "just some text".

(** A hosted model that answers every request with one text block. *)
Definition answering (reply : list N) : Services :=
  {| hasApiKey := true;
     getAllDocuments := Returned [Samples.sitePlan];
     messages_create := fun _ => Returned [TextBlock reply] |}.

(** A hosted model whose replies carry no content block. *)
Definition answeringEmpty : Services :=
  {| hasApiKey := true;
     getAllDocuments := Returned [Samples.sitePlan];
     messages_create := fun _ => Returned [] |}.

End MoreSamples.


(* ================================================================== *)
(** * Further notions about the runner                                 *)
(* ================================================================== *)

Module InterpreterNotions.
Import JS Interpreter.

(** The result built by the [catch] block of
    [executeStormwaterAnalysis] for an error with message [msg]. *)
Definition interpreterFailure (msg : list N) : PythonExecutionResult :=
  {| success := false;
     output := None;
     error := Some (lit "Python interpreter error: " ++ msg);
     plots := None;
     dataAnalysis :=
       Some (summaryObject (lit "Failed to execute Python analysis")) |}.

(** The files once the data file, if any, is written. *)
Definition data_written (H : Host) (tempDir sessionId : list N)
    (data : option JSONValue) (fs : gmap (list N) (list N))
  : gmap (list N) (list N) :=
  match data with
  | Some d =>
    if json_truthy d
    then <[dataPath tempDir sessionId := JSON_stringify H d]> fs
    else fs
  | None => fs
  end.

(** The child leaves the file at [path] as it finds it, before the
    promise is settled and after. *)
Definition untouched_by (run : ChildRun) (path : list N) : Prop :=
  forall fs, child_writes run fs !! path = fs !! path
             /\ survivor_writes run fs !! path = fs !! path.

(** What the promise of [executePythonScript] is resolved with. *)
Definition settled (run : ChildRun) : ScriptResult :=
  match settled_by run with
  | Closed code =>
    {| script_success := bool_decide (code = Some 0%Z);
       script_output := Some (trim (stdout run));
       script_error :=
         if truthy (trim (stderr run)) then Some (trim (stderr run)) else None |}
  | SpawnFailed msg =>
    {| script_success := false;
       script_output := None;
       script_error := Some (lit "Failed to start Python process: " ++ msg) |}
  | TimedOut =>
    {| script_success := false;
       script_output := None;
       script_error := Some timeoutMessage |}
  end.

(** [v.key] on a value other than [null]. *)
Definition member (v : JSONValue) (key : list N) : option JSONValue :=
  match v with
  | JObject members => lookup_member key members
  | _ => None
  end.

(** The summary used when the output file names no analysis. *)
Definition defaultAnalysis (ok : bool) : JSONValue :=
  summaryObject (if ok then lit "Python execution completed successfully"
                 else lit "Execution failed").

(** The result returned by the [try] block for the script result [sr]
    and the parsed output [v]. *)
Definition completed (sr : ScriptResult) (v : JSONValue) : PythonExecutionResult :=
  {| success := script_success sr;
     output := script_output sr;
     error := script_error sr;
     plots := Some (or_default (member v (lit "plots")) (JArray []));
     dataAnalysis :=
       Some (or_default (member v (lit "analysis"))
               (defaultAnalysis (script_success sr))) |}.

(** What the output file contributes: the parsed value, or the empty
    object for a file that is absent or does not parse. *)
Definition parsed_output (H : Host) (fs : gmap (list N) (list N))
    (path : list N) : JSONValue :=
  match fs !! path with
  | Some text =>
    match JSON_parse H text with
    | Some v => v
    | None => JObject []
    end
  | None => JObject []
  end.

End InterpreterNotions.

Module MoreRunnerSamples.
Import JS Interpreter.

(** A host on which the script file cannot be written. *)
Definition fullDiskHost : Host :=
  {| JSON_parse := RunnerSamples.parseNull;
     JSON_stringify := fun _ => lit "{}";
     prepareStormwaterEnvironment := fun code _ _ _ => code;
     write_error := fun path =>
       if decide (path = scriptPath RunnerSamples.tempDir RunnerSamples.sessionId)
       then Some (lit "ENOSPC: no space left on device, write")
       else None;
     read_error := fun _ => None;
     unlink_error := fun _ => None |}.

Definition otherSession : list N := lit "0a1b2c3d-4e5f-4a6b-8c7d-9e0f1a2b3c4d".

(** A world in which another session has its script on disk. *)
Definition busyWorld : World :=
  {| files := {[ scriptPath RunnerSamples.tempDir otherSession := lit "print(1)" ]};
     killed := false |}.

(** A parser which agrees with [JSON.parse] on the one text below. *)
Definition plotsText : list N :=
  lit "{" ++ [34] ++ lit "plots" ++ [34] ++ lit ": [" ++ [34]
  ++ lit "runoff.png" ++ [34] ++ lit "]}".
Definition plotsValue : JSONValue :=
  JObject [ (lit "plots", JArray [JString (lit "runoff.png")]) ].
Definition parsePlots (text : list N) : option JSONValue :=
  if decide (text = plotsText) then Some plotsValue else None.

Definition plotsHost : Host :=
  {| JSON_parse := parsePlots;
     JSON_stringify := fun _ => lit "{}";
     prepareStormwaterEnvironment := fun code _ _ _ => code;
     write_error := fun _ => None;
     read_error := fun _ => None;
     unlink_error := fun _ => None |}.

(** A child that writes the output file above, prints a line and exits
    with status 0. *)
Definition plotter : ChildRun :=
  {| settled_by := Closed (Some 0%Z);
     stdout := lit "Python analysis complete" ++ [10];
     stderr := [];
     child_writes := fun fs =>
       <[outputPath RunnerSamples.tempDir RunnerSamples.sessionId := plotsText]> fs;
     survivor_writes := fun fs => fs |}.

End MoreRunnerSamples.

(* ================================================================== *)
(** * The class [PluginRegistry]                                       *)
(* ================================================================== *)

Module Registry.
Import JS Plugins.

Local Open Scope Z_scope.

(** A plugin object as its class constructs it: the declared figures,
    which [getResourceUsage()] reports once [initialize()] has run, and
    [initialize()] and [shutdown()] that only set flags and return. *)
Definition pluginObject (pluginId pluginName : string) (mem cpuPct : Z)
  : AIPlugin :=
  {| id := lit pluginId;
     name := lit pluginName;
     memoryUsage := mem;
     cpuUsage := cpuPct;
     isActive := false;
     getResourceUsage :=
       {| memory := mem; cpu := cpuPct;
          activeRequests := 0; queuedRequests := 0 |};
     initialize := Returned tt;
     shutdown := Returned tt |}.

(** [corePlugins] of [initializeAllPlugins], in the order of the source. *)
Definition corePlugins : list AIPlugin :=
  [ pluginObject "stormwater-analysis" "Stormwater Analysis AI" 512 25;
    pluginObject "chat-service" "AI Chat Service" 256 15;
    pluginObject "document-generator" "Document Generator AI" 384 20;
    pluginObject "regulatory-compliance" "Regulatory Compliance AI" 180 15;
    pluginObject "cost-estimation" "Cost Estimation AI" 160 12;
    pluginObject "site-planning" "Site Planning AI" 200 18;
    pluginObject "risk-assessment" "Risk Assessment AI" 175 14;
    pluginObject "training-certification" "Training & Certification AI" 140 10;
    pluginObject "environmental-monitoring" "Environmental Monitoring AI" 190 16 ].

Record SystemResources := {
  sys_memory : Z;
  sys_cpu : Z;
  pluginCount : nat
}.

Definition getSystemResources (m : Manager) : SystemResources :=
  {| sys_memory := getTotalMemoryUsage m;
     sys_cpu := getTotalCpuUsage m;
     pluginCount := size (plugins m) |}.

(** The ids of [listPlugins()].  The source lists them in the order of
    insertion; the order plays no role in what is stated below. *)
Definition listPlugins (m : Manager) : list (list N) :=
  (map_to_list (plugins m)).*1.

(** The registry together with the manager it drives. *)
Record PluginRegistry := {
  isInitialized : bool;
  pluginManager : Manager
}.

Definition freshRegistry : PluginRegistry :=
  {| isInitialized := false; pluginManager := newManager |}.

Definition initializeAllPlugins (r : PluginRegistry) : PluginRegistry :=
  if isInitialized r then r
  else
    {| isInitialized := true;
       pluginManager :=
         fold_left (fun m plugin => snd (registerPlugin m plugin))
                   corePlugins (pluginManager r) |}.

Definition shutdownAllPlugins (r : PluginRegistry) : PluginRegistry :=
  if negb (isInitialized r) then r
  else
    {| isInitialized := false;
       pluginManager :=
         fold_left (fun m pluginId => snd (unregisterPlugin m pluginId))
                   (listPlugins (pluginManager r)) (pluginManager r) |}.

(** The plugin registered under [pluginId] is there and its
    [shutdown()] throws. *)
Definition stuck (m : Manager) (pluginId : list N) : Prop :=
  exists p e, plugins m !! pluginId = Some p /\ shutdown p = Thrown e.

End Registry.

Module MorePluginSamples.
Import JS Plugins.

Local Open Scope Z_scope.

(** A plugin that takes more than half of the memory cap. *)
Definition largeModel : AIPlugin :=
  {| id := lit "large-model";
     name := lit "Large Model";
     memoryUsage := 2500;
     cpuUsage := 10;
     isActive := false;
     getResourceUsage :=
       {| memory := 2500; cpu := 10; activeRequests := 0; queuedRequests := 0 |};
     initialize := Returned tt;
     shutdown := Returned tt |}.

(** A plugin whose [shutdown()] throws. *)
Definition stubborn : AIPlugin :=
  {| id := lit "stubborn";
     name := lit "Stubborn";
     memoryUsage := 100;
     cpuUsage := 5;
     isActive := false;
     getResourceUsage :=
       {| memory := 100; cpu := 5; activeRequests := 0; queuedRequests := 0 |};
     initialize := Returned tt;
     shutdown := Thrown {| status := None; message := lit "busy" |} |}.

Definition withLargeModel : Manager := snd (registerPlugin newManager largeModel).

Definition runningRegistry : Registry.PluginRegistry :=
  {| Registry.isInitialized := true;
     Registry.pluginManager :=
       snd (registerPlugin (snd (registerPlugin newManager stubborn))
              PluginSamples.chatService) |}.

End MorePluginSamples.

(* ================================================================== *)
(** * The class [DocumentProcessor]                                    *)
(* ================================================================== *)

Module Processor.
Import JS.

(** The class [\w] of a regular expression without flags. *)
Definition isWordChar (c : N) : bool :=
  ((48 <=? c) && (c <=? 57)) || ((65 <=? c) && (c <=? 90)) || (c =? 95)
  || ((97 <=? c) && (c <=? 122)).

(** The characters [. , ! ? - ( ) [ ] { }]. *)
Definition isKeptPunctuation (c : N) : bool :=
  (c =? 46) || (c =? 44) || (c =? 33) || (c =? 63) || (c =? 45)
  || (c =? 40) || (c =? 41) || (c =? 91) || (c =? 93)
  || (c =? 123) || (c =? 125).

(** The complement of the class [[^\w\s\.\,\!\?\-\(\)\[\]\{\}]]. *)
Definition kept (c : N) : bool :=
  isWordChar c || isWhiteSpace c || isKeptPunctuation c.

(** [text.replace(/[^\w\s\.\,\!\?\-\(\)\[\]\{\}]/g, ' ')] *)
Definition blank_others (text : list N) : list N :=
  List.map (fun c => if kept c then c else 32) text.

(** [s.replace(/\s+/g, ' ')]: [in_run] tells that the character before
    belongs to the run of white space being replaced. *)
Fixpoint collapse_spaces (in_run : bool) (s : list N) : list N :=
  match s with
  | [] => []
  | c :: s' =>
    if isWhiteSpace c then
      if in_run then collapse_spaces true s'
      else 32 :: collapse_spaces true s'
    else c :: collapse_spaces false s'
  end.

Definition cleanExtractedText (text : list N) : list N :=
  trim (collapse_spaces false (blank_others text)).

(** [content.split(/\s+/)]: [cur] holds, reversed, the piece being
    read; a run of white space at either end leaves an empty piece. *)
Fixpoint split_spaces (in_run : bool) (cur s : list N) : list (list N) :=
  match s with
  | [] => [rev cur]
  | c :: s' =>
    if isWhiteSpace c then
      if in_run then split_spaces true [] s'
      else rev cur :: split_spaces true [] s'
    else split_spaces false (c :: cur) s'
  end.

(** [content.split(/\s+/).filter(word => word.length > 0)] *)
Definition words (content : list N) : list (list N) :=
  List.filter (fun word => (0 <? List.length word)%nat)
              (split_spaces false [] content).

Definition wordCount (content : list N) : nat := List.length (words content).

(** A word: not empty and free of white space. *)
Definition is_word (w : list N) : Prop :=
  w <> [] /\ Forall (fun c => isWhiteSpace c = false) w.

(** ** [processDocument] *)

Inductive FileKind :=
| Txt | Pdf | Docx | Excel | Csv | Json | Xml | Rtf | Image | Html
| Markdown | Log.

(** The [switch] on [fileExtension], the lower-cased result of
    [path.extname(originalName)]. *)
Definition cases : list (list N * FileKind) :=
  [ (lit ".txt", Txt); (lit ".pdf", Pdf);
    (lit ".docx", Docx); (lit ".doc", Docx);
    (lit ".xlsx", Excel); (lit ".xls", Excel);
    (lit ".csv", Csv); (lit ".json", Json); (lit ".xml", Xml);
    (lit ".rtf", Rtf);
    (lit ".jpg", Image); (lit ".jpeg", Image); (lit ".png", Image);
    (lit ".gif", Image); (lit ".bmp", Image); (lit ".webp", Image);
    (lit ".heic", Image); (lit ".heif", Image);
    (lit ".html", Html); (lit ".htm", Html);
    (lit ".md", Markdown); (lit ".markdown", Markdown);
    (lit ".log", Log) ].

Fixpoint kind_of_among (table : list (list N * FileKind))
    (fileExtension : list N) : option FileKind :=
  match table with
  | [] => None
  | (ext, k) :: table' =>
    if decide (fileExtension = ext) then Some k
    else kind_of_among table' fileExtension
  end.

Definition kind_of : list N -> option FileKind := kind_of_among cases.

Definition unsupported (fileExtension : list N) : JsError :=
  {| status := None;
     message :=
       lit "Unsupported file type: " ++ fileExtension
       ++ lit ". Supported formats: .txt, .pdf, .docx, .doc, .xlsx, .xls, .csv, .json, .xml, .rtf, .jpg, .jpeg, .png, .gif, .bmp, .webp, .heic, .heif, .html, .htm, .md, .markdown, .log" |}.

Record ProcessedDocument := {
  doc_content : list N;
  wordCount_of : nat;
  fileType : list N
}.

(** The environment of the processor: what the libraries and the
    format-specific rewriting make of a file of a given kind (the text
    handed to [cleanExtractedText], or for an image the final content;
    [None] stands for a missing file; [Thrown e] for the error that the
    method rethrows), and whether [fs.unlink] fails on a path that
    exists. *)
Record Env := {
  extract : FileKind -> list N -> option (list N) -> outcome (list N);
  unlink_fails : list N -> bool
}.

Definition processFile (E : Env) (k : FileKind) (filePath : list N)
    (file : option (list N)) : outcome (list N) :=
  match k with
  | Txt =>
    match file with
    | Some text => Returned text
    | None =>
      Thrown {| status := None;
                message := lit "ENOENT: no such file or directory, open '"
                           ++ filePath ++ lit "'" |}
    end
  | Image => extract E Image filePath file
  | _ => text ← extract E k filePath file; mret (cleanExtractedText text)
  end.

(** The [finally] block: [fs.unlink] in a [try] of its own. *)
Definition unlink_quietly (E : Env) (filePath : list N)
    (fs : gmap (list N) (list N)) : gmap (list N) (list N) :=
  if unlink_fails E filePath then fs else delete filePath fs.

Definition processDocument (E : Env) (filePath fileExtension : list N)
    (fs : gmap (list N) (list N))
  : gmap (list N) (list N) * outcome ProcessedDocument :=
  let result :=
    match kind_of fileExtension with
    | Some k =>
      content ← processFile E k filePath (fs !! filePath);
      mret {| doc_content := content;
              wordCount_of := wordCount content;
              fileType := fileExtension |}
    | None => Thrown (unsupported fileExtension)
    end in
  (unlink_quietly E filePath fs, result).

(** The formats named in the message of [unsupported]. *)
Definition supportedFormats : list (list N) :=
  split (lit ".txt, .pdf, .docx, .doc, .xlsx, .xls, .csv, .json, .xml, .rtf, .jpg, .jpeg, .png, .gif, .bmp, .webp, .heic, .heif, .html, .htm, .md, .markdown, .log")
        (lit ", ").

End Processor.

Module ProcessorSamples.
Import JS Processor.

(** An environment whose libraries hand the file on as it is. *)
Definition plainEnv : Env :=
  {| extract := fun _ _ file =>
       match file with
       | Some text => Returned text
       | None => Thrown {| status := None; message := lit "ENOENT" |}
       end;
     unlink_fails := fun _ => false |}.

Definition upload : list N := lit "uploads/3f2a9c".

Definition disk : gmap (list N) (list N) :=
  {[ upload := lit "BMP:  silt fence;" ++ [10] ++ lit "inlet protection" ]}.

End ProcessorSamples.

(* ================================================================== *)
(** * The class [MemStorage]                                           *)
(* ================================================================== *)

Module Storage.
Import JS.

(** [x || null] for an optional string and for an optional number. *)
Definition or_null (x : option (list N)) : option (list N) :=
  match x with
  | Some s => if truthy s then Some s else None
  | None => None
  end.

Definition number_or_null (x : option N) : option N :=
  match x with
  | Some n => if n =? 0 then None else Some n
  | None => None
  end.

Record InsertRecommendation := {
  ins_title : list N;
  ins_content : list N;
  ins_category : list N;
  ins_subcategory : option (list N);
  ins_citation : list N;
  ins_documentId : option N;
  ins_sourceDocumentId : option N;
  ins_isBookmarked : option bool
}.

(** The types [Recommendation], [Document] and [AiAnalysis] of the
    schema, as stored. *)
Record StoredRecommendation := {
  stored_id : N;
  stored_title : list N;
  stored_content : list N;
  stored_category : list N;
  stored_subcategory : option (list N);
  stored_citation : option (list N);
  documentId : option N;
  sourceDocumentId : option N;
  isBookmarked : bool;
  createdAt : N
}.

Record StoredDocument := {
  doc_id : N;
  doc_originalName : list N;
  stored_doc_content : list N;
  doc_category : list N;
  doc_description : option (list N);
  uploadedAt : N
}.

Record AiAnalysis := {
  analysis_id : N;
  analysis_text : list N;
  analysis_insights : option (list (list N));
  analysis_query : option (list N);
  analysis_documentId : option N;
  analysis_createdAt : N
}.

(** A [Map] keyed by number, as the list of its values in the order of
    insertion; [set] on a key in use replaces the value where it is. *)
Fixpoint map_set {A : Type} (key : A -> N) (v : A) (m : list A) : list A :=
  match m with
  | [] => [v]
  | x :: m' => if key x =? key v then v :: m' else x :: map_set key v m'
  end.

Definition map_get {A : Type} (key : A -> N) (k : N) (m : list A) : option A :=
  List.find (fun x => key x =? k) m.

(** [Array.prototype.sort] with a comparator [(a, b) => time(b) - time(a)]:
    stable, so computed here by insertion, an element going in front of
    the first one that is not later. *)
Fixpoint insert_latest_first {A : Type} (time : A -> N) (v : A) (l : list A)
  : list A :=
  match l with
  | [] => [v]
  | x :: l' =>
    if time x <=? time v then v :: x :: l'
    else x :: insert_latest_first time v l'
  end.

Definition sort_latest_first {A : Type} (time : A -> N) (l : list A) : list A :=
  fold_right (insert_latest_first time) [] l.

(** The maps [documents], [recommendations] and [aiAnalyses] of the
    class and its three counters. *)
Record MemStorage := {
  documentsMap : list StoredDocument;
  recommendationsMap : list StoredRecommendation;
  aiAnalysesMap : list AiAnalysis;
  currentDocumentId : N;
  currentRecommendationId : N;
  currentAnalysisId : N
}.

Definition newMemStorage : MemStorage :=
  {| documentsMap := []; recommendationsMap := []; aiAnalysesMap := [];
     currentDocumentId := 1; currentRecommendationId := 1;
     currentAnalysisId := 1 |}.

(** [now] is the value of [new Date()] in the call. *)
Definition createRecommendation (st : MemStorage) (rec : InsertRecommendation)
    (now : N) : MemStorage * StoredRecommendation :=
  let recommendation :=
    {| stored_id := currentRecommendationId st;
       stored_title := ins_title rec;
       stored_content := ins_content rec;
       stored_category := ins_category rec;
       stored_subcategory := or_null (ins_subcategory rec);
       stored_citation := or_null (Some (ins_citation rec));
       documentId := ins_documentId rec;
       sourceDocumentId := number_or_null (ins_sourceDocumentId rec);
       isBookmarked :=
         match ins_isBookmarked rec with Some b => b | None => false end;
       createdAt := now |} in
  ({| documentsMap := documentsMap st;
      recommendationsMap := map_set stored_id recommendation (recommendationsMap st);
      aiAnalysesMap := aiAnalysesMap st;
      currentDocumentId := currentDocumentId st;
      currentRecommendationId := currentRecommendationId st + 1;
      currentAnalysisId := currentAnalysisId st |},
   recommendation).

Definition getRecommendation (st : MemStorage) (k : N) : option StoredRecommendation :=
  map_get stored_id k (recommendationsMap st).

Definition getAllRecommendations (st : MemStorage) : list StoredRecommendation :=
  sort_latest_first createdAt (recommendationsMap st).

(** [ToIntegerOrInfinity(x)] of a number [x]: [NaN] gives 0 and a
    fraction is truncated. *)
Inductive IntegerOrInfinity :=
| MinusInfinity
| Finite (z : Z)
| PlusInfinity.

(** [a.slice(0, end)], [relativeEnd] being [ToIntegerOrInfinity(end)]: a
    negative end counts from the end of the array. *)
Definition slice0 {A : Type} (a : list A) (relativeEnd : IntegerOrInfinity)
  : list A :=
  let len := Z.of_nat (List.length a) in
  let final :=
    match relativeEnd with
    | MinusInfinity => 0%Z
    | Finite z => if (z <? 0)%Z then Z.max (len + z) 0 else Z.min z len
    | PlusInfinity => len
    end in
  firstn (Z.to_nat final) a.

(** [limit] is the number passed by the caller, as [slice] reads it. *)
Definition getRecentRecommendations (st : MemStorage)
    (limit : IntegerOrInfinity) : list StoredRecommendation :=
  slice0 (sort_latest_first createdAt (recommendationsMap st)) limit.

Definition toggle (rec : StoredRecommendation) : StoredRecommendation :=
  {| stored_id := stored_id rec; stored_title := stored_title rec; stored_content := stored_content rec;
     stored_category := stored_category rec; stored_subcategory := stored_subcategory rec;
     stored_citation := stored_citation rec; documentId := documentId rec;
     sourceDocumentId := sourceDocumentId rec;
     isBookmarked := negb (isBookmarked rec);
     createdAt := createdAt rec |}.

(** The object found under the key is changed where it is. *)
Fixpoint toggle_at (k : N) (m : list StoredRecommendation) : list StoredRecommendation :=
  match m with
  | [] => []
  | x :: m' => if stored_id x =? k then toggle x :: m' else x :: toggle_at k m'
  end.

Definition toggleBookmark (st : MemStorage) (k : N) : MemStorage :=
  {| documentsMap := documentsMap st;
     recommendationsMap := toggle_at k (recommendationsMap st);
     aiAnalysesMap := aiAnalysesMap st;
     currentDocumentId := currentDocumentId st;
     currentRecommendationId := currentRecommendationId st;
     currentAnalysisId := currentAnalysisId st |}.

Record Stats := {
  documentCount : nat;
  recommendationCount : nat;
  analysisCount : nat;
  qsdCount : nat;
  swpppCount : nat;
  erosionCount : nat
}.

Definition count_category (c : list N) (recs : list StoredRecommendation) : nat :=
  List.length (List.filter (fun r => bool_decide (stored_category r = c)) recs).

Definition getStats (st : MemStorage) : Stats :=
  {| documentCount := List.length (documentsMap st);
     recommendationCount := List.length (recommendationsMap st);
     analysisCount := List.length (aiAnalysesMap st);
     qsdCount := count_category (lit "qsd") (recommendationsMap st);
     swpppCount := count_category (lit "swppp") (recommendationsMap st);
     erosionCount := count_category (lit "erosion") (recommendationsMap st) |}.

(** ** Admin authentication *)

Definition verifyAdmin (email : list N) : bool :=
  bool_decide (email = lit "guzman.danield@outlook.com").

(** [now] is the value of [Date.now()]. *)
Definition createAdminSession (email : list N) (now : N) : outcome (list N) :=
  if verifyAdmin email then Returned (lit "admin-session-" ++ decimal now)
  else Thrown {| status := None; message := lit "Unauthorized" |}.

Definition validateAdminToken (token : list N) : bool :=
  startsWith token (lit "admin-session-").

(** ** Notions used in the statements *)

(** Every stored recommendation has the category [stormwater]. *)
Definition only_stormwater (st : MemStorage) : Prop :=
  Forall (fun r => stored_category r = lit "stormwater") (recommendationsMap st).

(** [a] is not earlier than [b]. *)
Definition latest_first (a b : StoredRecommendation) : Prop :=
  createdAt b <= createdAt a.

(** The keys of the map of recommendations are distinct and below the
    counter. *)
Definition keys_fresh (st : MemStorage) : Prop :=
  NoDup (List.map stored_id (recommendationsMap st))
  /\ Forall (fun r => stored_id r < currentRecommendationId st) (recommendationsMap st).

End Storage.

(* ================================================================== *)
(** * The class [RecommendationGenerator]                              *)
(* ================================================================== *)

Module Generator.
Import JS.

(** The record built in the loop of [generateFromAnalysis]. *)
Definition insertOf (rec : Analyzer.Recommendation) (documentId : N)
  : Storage.InsertRecommendation :=
  {| Storage.ins_title := Analyzer.title rec;
     Storage.ins_content := Analyzer.rec_content rec;
     Storage.ins_category := Analyzer.rec_category rec;
     Storage.ins_subcategory := Analyzer.subcategory rec;
     Storage.ins_citation := Analyzer.citation rec;
     Storage.ins_documentId := None;
     Storage.ins_sourceDocumentId := Some documentId;
     Storage.ins_isBookmarked := Some false |}.

(** [clock k] is the time of the [k]-th call of [createRecommendation]
    in the loop. *)
Fixpoint store_all (st : Storage.MemStorage)
    (recs : list Storage.InsertRecommendation) (clock : nat -> N)
  : Storage.MemStorage :=
  match recs with
  | [] => st
  | rec :: recs' =>
    store_all (fst (Storage.createRecommendation st rec (clock O))) recs'
              (fun k => clock (S k))
  end.

Definition generateFromAnalysis (st : Storage.MemStorage)
    (analysisResult : Analyzer.AnalysisResult) (documentId : N)
    (clock : nat -> N) : Storage.MemStorage :=
  store_all st
    (List.map (fun rec => insertOf rec documentId)
              (Analyzer.recommendations analysisResult))
    clock.

Definition template (t c sub cit : string) (bookmarked : bool)
  : Storage.InsertRecommendation :=
  {| Storage.ins_title := lit t;
     Storage.ins_content := lit c;
     Storage.ins_category := lit "stormwater";
     Storage.ins_subcategory := Some (lit sub);
     Storage.ins_citation := lit cit;
     Storage.ins_documentId := None;
     Storage.ins_sourceDocumentId := None;
     Storage.ins_isBookmarked := Some bookmarked |}.

Definition templates : list Storage.InsertRecommendation :=
  [ template "Pre-Construction Site Assessment"
      "Comprehensive site evaluation checklist including soil conditions, slope analysis, and drainage patterns before construction begins."
      "Site Inspection" "EPA Construction Guidelines, Section 3.2" false;
    template "SWPPP Maintenance Records"
      "Required documentation formats and frequency for maintaining SWPPP compliance records and inspection logs."
      "Documentation" "NPDES Permit Requirements, Appendix B" true;
    template "Sediment Basin Design Standards"
      "Volume calculation methods for temporary sediment basins including sizing criteria for various catchment areas."
      "Structural Controls" "Construction BMP Manual, Chapter 5" false;
    template "Construction Entrance Requirements"
      "Specifications for stabilized construction entrances including aggregate size, depth, and maintenance procedures."
      "Access Control" "State SWPPP Guidelines, Section 4.1" false;
    template "Slope Stabilization Techniques"
      "Hydroseeding application rates for varying slope conditions including seed mix specifications and establishment timelines."
      "Slope Protection" "Erosion Control Handbook, Page 145" false;
    template "Silt Fence Installation"
      "Proper installation procedures for silt fence including trenching depth, fabric specifications, and post spacing requirements."
      "Perimeter Controls" "Standard Construction Details, Sheet E-01" false ].

Definition generateTemplateRecommendations (st : Storage.MemStorage)
    (clock : nat -> N) : Storage.MemStorage :=
  let existingRecs := Storage.getAllRecommendations st in
  if (0 <? List.length existingRecs)%nat then st
  else store_all st templates clock.

(** The stored form of the [k]-th recommendation of an analysis. *)
Definition storedOf (rec : Analyzer.Recommendation) (documentId key now : N)
  : Storage.StoredRecommendation :=
  {| Storage.stored_id := key;
     Storage.stored_title := Analyzer.title rec;
     Storage.stored_content := Analyzer.rec_content rec;
     Storage.stored_category := Analyzer.rec_category rec;
     Storage.stored_subcategory := Storage.or_null (Analyzer.subcategory rec);
     Storage.stored_citation := Storage.or_null (Some (Analyzer.citation rec));
     Storage.documentId := None;
     Storage.sourceDocumentId := Storage.number_or_null (Some documentId);
     Storage.isBookmarked := false;
     Storage.createdAt := now |}.

End Generator.

Module StorageSamples.
Import JS.

Definition noon : N := 1700000000000.

(** Two recommendations stored one after the other. *)
Definition twoStored : Storage.MemStorage :=
  Generator.store_all Storage.newMemStorage
    (firstn 2 Generator.templates) (fun k => noon + N.of_nat k).

(** A reply in the format the prompts ask for. *)
Definition replyTwoItems : list N :=
  lit "RECOMMENDATIONS:" ++ [10]
  ++ lit "QSD: Inspect weekly - silt fence - north side" ++ [10]
  ++ lit "EROSION: Hydroseed slope - within 14 days".

End StorageSamples.

(* ================================================================== *)
(** * [generateDocument] and the class [ChatService]                   *)
(* ================================================================== *)

Module Documents.
Import JS Analyzer.

(** [today] is the value of [new Date().toLocaleDateString()]. *)
Definition generateFallbackDocument (prompt today : list N) : list N :=
  lit "# Generated Document

**Request:** " ++ prompt ++ lit "

**Note:** This document was generated using fallback mode due to AI service limitations.

## Content

This document would contain detailed stormwater engineering specifications, calculations, and recommendations based on your request. To access full AI-powered document generation, please ensure the Anthropic API key is properly configured.

## Recommendations

- Review uploaded source documents for relevant information
- Consult current stormwater management regulations
- Consider site-specific conditions and requirements
- Implement appropriate best management practices

**Generated:** " ++ today ++ lit "
".

Definition formattingRequirements : list N := lit "

**CRITICAL FORMATTING REQUIREMENTS:**
1. Write in natural, flowing paragraphs - NOT bullet points or repetitive lists
2. Avoid repetitive content - each section must be unique and distinct
3. Use professional, readable language with technical precision
4. Create coherent narrative flow between sections
5. No duplicate information across sections
6. Write as a cohesive document, not fragmented pieces
7. Each paragraph should add new information without redundancy

Generate a polished, professional document with natural language flow.".

Definition documentSystem : list N :=
  lit "You are a specialized stormwater engineering document generator. Create professional engineering documents with technical specifications, calculations, and regulatory compliance information. Focus on natural language flow and avoid repetitive content.".

Definition documentRequest (prompt : list N) : Request :=
  {| max_tokens := 4000;
     system := documentSystem;
     prompt := prompt ++ formattingRequirements;
     image := None |}.

Definition generateDocument (S : Services) (prompt today : list N)
  : outcome (list N) :=
  if negb (hasApiKey S) then Returned (generateFallbackDocument prompt today)
  else
    try_catch
      (response ← messages_create S (documentRequest prompt);
       firstText response)
      (fun _ => Returned (generateFallbackDocument prompt today)).

End Documents.

Module Chat.
Import JS Analyzer.

(** The client of the chat service: whether an API key is configured
    and what [messages.create] does with the message of the user. *)
Record Client := {
  chat_hasApiKey : bool;
  chat_create : list N -> outcome (list ContentBlock)
}.

Definition needsKey : list N :=
  lit "I apologize, but I need an Anthropic API key to provide chat functionality. Please ensure the API key is configured.".

Definition issueProcessing : list N :=
  lit "I encountered an issue processing your message.".

Definition errorProcessing : list N :=
  lit "I apologize, but I encountered an error processing your message. Please try again or check if there are any connection issues.".

(** [response.content[0].type === 'text' ? response.content[0].text : ...] *)
Definition firstTextOr (dflt : list N) (blocks : list ContentBlock)
  : outcome (list N) :=
  match blocks with
  | [] => Thrown {| status := None;
                    message := lit "Cannot read properties of undefined (reading 'type')" |}
  | TextBlock t :: _ => Returned t
  | OtherBlock :: _ => Returned dflt
  end.

Definition processMessage (C : Client) (message : list N) : outcome (list N) :=
  if negb (chat_hasApiKey C) then Returned needsKey
  else
    try_catch
      (response ← chat_create C message;
       firstTextOr issueProcessing response)
      (fun _ => Returned errorProcessing).

(** [executePythonCode]: the runner inside a [try] of its own. *)
Definition executePythonCode (H : Interpreter.Host) (tempDir sessionId : list N)
    (code : list N) (data : option Interpreter.JSONValue)
    (run : Interpreter.ChildRun)
  : Interpreter.IO Interpreter.PythonExecutionResult :=
  Interpreter.io_try
    (Interpreter.executeStormwaterAnalysis H tempDir sessionId code data
       Interpreter.data_analysis run)
    (fun error =>
       mret {| Interpreter.success := false;
               Interpreter.output := None;
               Interpreter.error := Some (message error);
               Interpreter.plots := None;
               Interpreter.dataAnalysis := None |}).

End Chat.

Module ChatSamples.
Import JS Analyzer.

Definition offline : Chat.Client :=
  {| Chat.chat_hasApiKey := true;
     Chat.chat_create := fun _ =>
       Thrown {| status := Some 529; message := lit "Overloaded" |} |}.

Definition today : list N := lit "11/2/2026".

End ChatSamples.

(* ================================================================== *)
(** * Facts about the string fragment                                  *)
(* ================================================================== *)

Module JSFacts.
Import JS.

Lemma Contains_intro (pre needle post : list N) :
  Contains (pre ++ needle ++ post) needle.
Proof. by exists pre, post. Qed.

Lemma trimStart_head (s : list N) :
  match trimStart s with
  | c :: _ => isWhiteSpace c = false
  | [] => True
  end.
Proof.
  induction s as [|c s IH]; simpl; [done|].
  destruct (isWhiteSpace c) eqn:E; [exact IH | exact E].
Qed.

Lemma trimStart_fixed (c : N) (s : list N) :
  isWhiteSpace c = false -> trimStart (c :: s) = c :: s.
Proof. intros E. simpl. by rewrite E. Qed.

Lemma trimStart_idem (s : list N) : trimStart (trimStart s) = trimStart s.
Proof.
  pose proof (trimStart_head s) as Hh.
  destruct (trimStart s) as [|c t]; [done|]. by apply trimStart_fixed.
Qed.

(** [trimStart s] is a suffix of [s]. *)
Lemma trimStart_suffix (s : list N) : exists ws, s = ws ++ trimStart s.
Proof.
  induction s as [|c s [ws IH]]; simpl; [by exists []|].
  destruct (isWhiteSpace c).
  - exists (c :: ws). simpl. by f_equal.
  - by exists [].
Qed.

Lemma trimStart_space (c : N) (s : list N) :
  isWhiteSpace c = true -> trimStart (c :: s) <> c :: s.
Proof.
  intros E Heq. cbn [trimStart] in Heq. rewrite E in Heq.
  destruct (trimStart_suffix s) as [ws Hws].
  apply (f_equal (@List.length N)) in Heq, Hws.
  rewrite length_app in Hws. cbn [List.length] in Heq. lia.
Qed.

(** Stripping at the front keeps a string that ends in a character
    which is not white space. *)
Lemma trimStart_snoc (s : list N) (c : N) :
  isWhiteSpace c = false -> exists t, trimStart (s ++ [c]) = t ++ [c].
Proof.
  intros E. induction s as [|d s IH]; simpl.
  - rewrite E. by exists [].
  - destruct (isWhiteSpace d); [exact IH|]. by exists (d :: s).
Qed.

Lemma trimmed_trim (s : list N) : trimmed s -> trim s = s.
Proof. intros [H1 H2]. unfold trim. by rewrite H1. Qed.

Lemma trim_trimmed (s : list N) : trimmed (trim s).
Proof.
  unfold trim, trimmed, trimEnd. split.
  - pose proof (trimStart_head s) as Hh.
    destruct (trimStart s) as [|c t] eqn:E; [done|].
    destruct (trimStart_snoc (rev t) c Hh) as [x Hx].
    change (rev (c :: t)) with (rev t ++ [c]). rewrite Hx, rev_app_distr.
    by apply trimStart_fixed.
  - by rewrite rev_involutive, trimStart_idem.
Qed.

Lemma trim_idem (s : list N) : trim (trim s) = trim s.
Proof. apply trimmed_trim, trim_trimmed. Qed.

(** Every character of [trimStart s], [trimEnd s], [trim s] is one of [s]. *)
Lemma trimStart_incl (s : list N) (c : N) : c ∈ trimStart s -> c ∈ s.
Proof.
  destruct (trimStart_suffix s) as [ws E]. intros Hc.
  rewrite E. apply elem_of_app. by right.
Qed.

Lemma trimEnd_incl (s : list N) (c : N) : c ∈ trimEnd s -> c ∈ s.
Proof.
  unfold trimEnd. rewrite !list_elem_of_In, <- in_rev, <- list_elem_of_In.
  intros Hc. apply trimStart_incl in Hc.
  by rewrite list_elem_of_In, <- in_rev in Hc.
Qed.

Lemma trim_incl (s : list N) (c : N) : c ∈ trim s -> c ∈ s.
Proof. intros Hc. by apply trimStart_incl, trimEnd_incl. Qed.

Lemma trimStart_all_space (s : list N) :
  (forall c, c ∈ s -> isWhiteSpace c = true) -> trimStart s = [].
Proof.
  induction s as [|c s IH]; intros Hs; cbn [trimStart]; [reflexivity|].
  rewrite (Hs c) by apply list_elem_of_here.
  apply IH. intros d Hd. by apply Hs, list_elem_of_further.
Qed.

Lemma trimStart_skip (ws t : list N) :
  Forall (fun c => isWhiteSpace c = true) ws ->
  trimStart (ws ++ t) = trimStart t.
Proof.
  induction 1 as [|c ws Hc _ IH]; [reflexivity|].
  cbn [app trimStart]. by rewrite Hc.
Qed.

Lemma trim_all_space (s : list N) :
  (forall c, c ∈ s -> isWhiteSpace c = true) -> trim s = [].
Proof.
  intros Hs. unfold trim. by rewrite trimStart_all_space.
Qed.

Lemma trimStart_app_fixed (s t : list N) :
  s <> [] -> trimStart s = s -> trimStart (s ++ t) = s ++ t.
Proof.
  destruct s as [|c s]; [done|]. intros _ E. cbn [app trimStart] in *.
  destruct (isWhiteSpace c) eqn:Hc; [|reflexivity].
  exfalso. apply (trimStart_space c s Hc). cbn [trimStart]. by rewrite Hc.
Qed.

Lemma truthy_true (s : list N) : truthy s = true <-> s <> [].
Proof. destruct s; simpl; split; congruence. Qed.

End JSFacts.

(* ================================================================== *)
(** * Properties of the analyzer                                       *)
(* ================================================================== *)

Module AnalyzerSpec.
Import JS JSFacts Analyzer.

(** ** The response parser *)

Lemma extractSection_trimmed (text sectionName : list N) :
  trim (extractSection text sectionName) = extractSection text sectionName.
Proof.
  unfold extractSection.
  destruct (section_match _ _ _); [apply trim_idem | reflexivity].
Qed.

(** The analysis text of a parsed reply is never empty. *)
Lemma parse_analysis_nonempty (text : list N) (document : Document) :
  analysis (parseAnalysisResponse text document) <> [].
Proof.
  unfold parseAnalysisResponse. cbn [analysis].
  destruct (truthy (extractSection text (lit "ANALYSIS"))) eqn:E.
  - by apply truthy_true.
  - discriminate.
Qed.

(** C3.  For every reply text and source document the parsed result has
    at most five insights and at most ten recommendations. *)
Theorem parse_output_bounded (text : list N) (document : Document) :
  (List.length (insights (parseAnalysisResponse text document)) <= 5)%nat
  /\ (List.length (recommendations (parseAnalysisResponse text document)) <= 10)%nat.
Proof.
  unfold parseAnalysisResponse. cbn [insights recommendations]. split.
  - unfold extractInsights.
    destruct (negb (truthy (extractSection text (lit "INSIGHTS")))).
    + cbn. lia.
    + rewrite length_take. lia.
  - unfold extractRecommendations.
    destruct (negb (truthy (extractSection text (lit "RECOMMENDATIONS")))).
    + cbn. lia.
    + rewrite length_take. lia.
Qed.

(** Two families of replies for which a list comes back empty: an
    INSIGHTS body made of markers and white space only, and a
    RECOMMENDATIONS body none of whose lines carries a category marker. *)
Lemma split_markers_all_blank (s cur : list N) (in_sep : bool) :
  (forall c, c ∈ s -> isBulletMarker c = true \/ isWhiteSpace c = true) ->
  (forall c, c ∈ cur -> isWhiteSpace c = true) ->
  Forall (fun p => forall c, c ∈ p -> isWhiteSpace c = true)
         (split_markers in_sep cur s).
Proof.
  revert cur in_sep. induction s as [|c s IH]; intros cur in_sep Hs Hcur;
    cbn [split_markers].
  - constructor; [|constructor]. intros c Hc. apply Hcur.
    by rewrite list_elem_of_In, in_rev, <- list_elem_of_In.
  - assert (Hs' : forall d, d ∈ s ->
                  isBulletMarker d = true \/ isWhiteSpace d = true)
      by (intros d Hd; by apply Hs, list_elem_of_further).
    destruct (in_sep && isWhiteSpace c) eqn:E1; [by apply IH|].
    destruct (isBulletMarker c) eqn:E2.
    + constructor.
      * intros d Hd. apply Hcur.
        by rewrite list_elem_of_In, in_rev, <- list_elem_of_In.
      * apply IH; [exact Hs'|]. intros d Hd. by apply elem_of_nil in Hd.
    + apply IH; [exact Hs'|]. intros d Hd.
      apply elem_of_cons in Hd as [->|Hd]; [|by apply Hcur].
      destruct (Hs c (list_elem_of_here _ _)) as [Hm|Hw]; congruence.
Qed.

Lemma insights_empty_on_marker_body (text : list N) :
  extractSection text (lit "INSIGHTS") <> [] ->
  (forall c, c ∈ extractSection text (lit "INSIGHTS") ->
             isBulletMarker c = true \/ isWhiteSpace c = true) ->
  extractInsights text = [].
Proof.
  intros Hne Hbody. unfold extractInsights.
  apply truthy_true in Hne. rewrite Hne. cbn [negb].
  pose proof (split_markers_all_blank _ [] false Hbody
                (fun c Hc => False_ind _ (proj1 (elem_of_nil c) Hc))) as Hall.
  induction Hall as [|p pieces Hp _ IH]; [reflexivity|].
  cbn [List.filter]. by rewrite (trim_all_space p Hp).
Qed.

Lemma recommendations_empty_without_marker_lines (text : list N)
    (document : Document) :
  extractSection text (lit "RECOMMENDATIONS") <> [] ->
  (forall line, line ∈ split (extractSection text (lit "RECOMMENDATIONS")) [10] ->
                has_marker line = false) ->
  extractRecommendations text document = [].
Proof.
  intros Hne Hlines. unfold extractRecommendations.
  apply truthy_true in Hne. rewrite Hne. cbn [negb].
  set (lines := split _ _) in *. clearbody lines.
  induction lines as [|line lines IH]; [reflexivity|].
  cbn [List.filter].
  assert (Hrest : forall l, l ∈ lines -> has_marker l = false)
    by (intros l Hl; by apply Hlines, list_elem_of_further).
  destruct (truthy (trim line)); [|by apply IH].
  cbn [fold_left]. unfold recommendation_step at 2.
  rewrite (Hlines line) by apply list_elem_of_here. by apply IH.
Qed.

Example reply_without_items_is_empty (document : Document) :
  extractInsights Samples.replyWithoutItems = []
  /\ extractRecommendations Samples.replyWithoutItems document = [].
Proof.
  split.
  - apply insights_empty_on_marker_body; [vm_compute; discriminate|].
    intros c Hc. apply list_elem_of_In in Hc. vm_compute in Hc.
    destruct Hc as [<-|[<-|[<-|[]]]]; by left.
  - apply recommendations_empty_without_marker_lines; [vm_compute; discriminate|].
    intros line Hline. apply list_elem_of_In in Hline. vm_compute in Hline.
    destruct Hline as [<-|[]]. reflexivity.
Qed.

(** C1.  The parser evaluated on a reply that carries all three headers,
    a rule of hyphens under INSIGHTS and a numbered list under
    RECOMMENDATIONS: the analysis is the text of the reply, and both the
    insights and the recommendations are empty lists. *)
Theorem parse_reply_without_items (document : Document) :
  analysis (parseAnalysisResponse Samples.replyWithoutItems document)
    = lit "The site drains to the north."
  /\ insights (parseAnalysisResponse Samples.replyWithoutItems document) = []
  /\ recommendations (parseAnalysisResponse Samples.replyWithoutItems document) = [].
Proof. repeat split; vm_compute; reflexivity. Qed.

(** ** Section boundaries *)

(** Under the flag [i] the class of the look-ahead accepts both cases. *)
Lemma isLetter_i_lower (c : N) : 97 <= c <= 122 -> isLetter_i c = true.
Proof.
  intros Hc. unfold isLetter_i, canonicalize, isUpper.
  replace (97 <=? c) with true by (symmetry; apply N.leb_le; lia).
  replace (c <=? 122) with true by (symmetry; apply N.leb_le; lia).
  cbn [andb]. apply andb_true_iff. split; apply N.leb_le; lia.
Qed.

Lemma isLetter_i_upper (c : N) : 65 <= c <= 90 -> isLetter_i c = true.
Proof.
  intros Hc. unfold isLetter_i, canonicalize, isUpper.
  replace (97 <=? c) with false by (symmetry; apply N.leb_gt; lia).
  cbn [andb]. apply andb_true_iff. split; apply N.leb_le; lia.
Qed.

Lemma letters_colon_word (cls : N -> bool) (w rest : list N) (seen : bool) :
  Forall (fun c => cls c = true) w ->
  cls 58 = false ->
  letters_colon cls seen (w ++ 58 :: rest) = seen || negb (bool_decide (w = [])).
Proof.
  intros Hw Hcolon. revert seen.
  induction Hw as [|c w Hc Hw IH]; intros seen; cbn [app letters_colon].
  - rewrite Hcolon. cbn. by destruct seen.
  - rewrite Hc, IH. cbn. by rewrite orb_true_r.
Qed.

(** A blank line followed by a word in any mix of cases and a colon ends
    the body of a section. *)
Lemma header_ahead_any_case (w rest : list N) :
  w <> [] ->
  Forall (fun c => 65 <= c <= 90 \/ 97 <= c <= 122) w ->
  header_ahead (10 :: 10 :: w ++ 58 :: rest) = true.
Proof.
  intros Hne Hw. unfold header_ahead, header_ahead_with.
  rewrite letters_colon_word.
  - cbn. by rewrite bool_decide_eq_false_2.
  - eapply Forall_impl; [exact Hw|]. cbn. intros c [Hc|Hc].
    + by apply isLetter_i_upper.
    + by apply isLetter_i_lower.
  - reflexivity.
Qed.

(** The label is matched whatever the case of the text. *)
Lemma match_label_any_case (label found rest : list N) :
  List.map canonicalize found = List.map canonicalize label ->
  match_label label (found ++ rest) = Some rest.
Proof.
  revert found. induction label as [|p label IH]; intros [|c found] E;
    try discriminate; [reflexivity|].
  cbn [List.map] in E. injection E as Ec E.
  cbn [app match_label]. rewrite Ec, N.eqb_refl. by apply IH.
Qed.

(** The body ends where the look-ahead holds for the first time, or at
    the end of the input. *)
Lemma lazy_body_end (ahead : list N -> bool) (s : list N) :
  exists rest,
    s = lazy_body ahead s ++ rest /\ (rest = [] \/ ahead rest = true).
Proof.
  induction s as [|c s (rest & Hs & Hrest)]; cbn [lazy_body].
  - destruct (ahead []) eqn:E; exists []; auto.
  - destruct (ahead (c :: s)) eqn:E.
    + exists (c :: s). auto.
    + exists rest. split; [|exact Hrest]. cbn [app]. by f_equal.
Qed.

Lemma lazy_body_shortest (ahead : list N -> bool) (s a b : list N) :
  lazy_body ahead s = a ++ b -> b <> [] ->
  exists rest, s = a ++ b ++ rest /\ ahead (b ++ rest) = false.
Proof.
  revert a. induction s as [|c s IH]; intros a E Hb; cbn [lazy_body] in E.
  - destruct (ahead []); destruct a, b; try discriminate; done.
  - destruct (ahead (c :: s)) eqn:Ha.
    + destruct a, b; try discriminate; done.
    + destruct a as [|d a]; cbn [app] in E.
      * destruct b as [|d b]; [done|]. injection E as <- E.
        destruct (lazy_body_end ahead s) as (rest & Hs & _).
        exists rest. rewrite E in Hs. cbn [app]. split; [by f_equal|].
        by rewrite <- Hs.
      * injection E as <- E. destruct (IH a E Hb) as (rest & Hs & Hr).
        exists rest. split; [|exact Hr]. cbn [app]. by f_equal.
Qed.

Lemma lazy_body_single_line (ahead : list N -> bool) (body rest : list N) :
  (forall b, b <> [] -> (exists a, body = a ++ b) -> ahead (b ++ rest) = false) ->
  ahead rest = true ->
  lazy_body ahead (body ++ rest) = body.
Proof.
  intros Hin Hrest. induction body as [|c body IH]; cbn [app].
  - destruct rest; cbn [lazy_body]; by rewrite Hrest.
  - cbn [lazy_body].
    assert (ahead (c :: body ++ rest) = false) as ->
      by (apply (Hin (c :: body)); [done | by exists []]).
    f_equal. apply IH. intros b Hb [a Ha]. apply Hin; [done|].
    exists (c :: a). by rewrite Ha.
Qed.

Lemma header_ahead_needs_line_feed (cls : N -> bool) (d : N) (s : list N) :
  d <> 10 -> header_ahead_with cls (d :: s) = false.
Proof.
  intros Hd. unfold header_ahead_with.
  destruct (N.eq_dec d 10) as [->|_]; [done|].
  destruct d as [|q]; [done|].
  repeat (destruct q as [q|q|]; try done).
Qed.

Lemma section_match_here (ahead : list N -> bool) (label text rest : list N) :
  match_label label text = Some rest ->
  section_match ahead label text = Some (lazy_body ahead (trimStart rest)).
Proof. intros Hm. destruct text; cbn [section_match]; by rewrite Hm. Qed.

(** A section whose body is one line is cut at the next paragraph that
    opens with a word and a colon, whatever the case of the label in
    the text and whatever the case of that word. *)
Lemma extractSection_cut_at_any_case_word
    (label found ws body w rest : list N) :
  List.map canonicalize found = List.map canonicalize label ->
  Forall (fun c => isWhiteSpace c = true) ws ->
  body <> [] -> trimStart body = body -> 10 ∉ body ->
  w <> [] -> Forall (fun c => 65 <= c <= 90 \/ 97 <= c <= 122) w ->
  extractSection (found ++ 58 :: ws ++ body ++ 10 :: 10 :: w ++ 58 :: rest) label
  = trim body.
Proof.
  intros Hlabel Hws Hne Hstart Hline Hw Hletters. unfold extractSection.
  rewrite (section_match_here _ _ _ (ws ++ body ++ 10 :: 10 :: w ++ 58 :: rest)).
  - rewrite (trimStart_skip ws _ Hws), (trimStart_app_fixed body _ Hne Hstart).
    rewrite lazy_body_single_line; [reflexivity| |by apply header_ahead_any_case].
    intros [|d b] Hb [a Ha]; [done|].
    apply header_ahead_needs_line_feed. intros ->.
    apply Hline. rewrite Ha. apply elem_of_app. right. apply list_elem_of_here.
  - replace (found ++ 58 :: ws ++ body ++ 10 :: 10 :: w ++ 58 :: rest)
      with ((found ++ [58]) ++ ws ++ body ++ 10 :: 10 :: w ++ 58 :: rest)
      by (by rewrite <- app_assoc).
    apply match_label_any_case. rewrite !List.map_app. by rewrite Hlabel.
Qed.

Example extractSection_cut_at_Note :
  extractSection Samples.replyWithNote (lit "ANALYSIS") = lit "Slope is steep.".
Proof.
  apply (extractSection_cut_at_any_case_word (lit "ANALYSIS") (lit "ANALYSIS")
           [32] (lit "Slope is steep.") (lit "Note")
           (lit " verify on site." ++ [10; 10] ++ lit "INSIGHTS:" ++ [10]
            ++ lit "- Soil loose")).
  - reflexivity.
  - by repeat constructor.
  - discriminate.
  - reflexivity.
  - apply (bool_decide_unpack _). vm_compute. exact I.
  - discriminate.
  - apply List.Forall_forall. intros c Hc. vm_compute in Hc.
    destruct Hc as [<-|[<-|[<-|[<-|[]]]]]; lia.
Qed.

(** C4.  [extractSection] evaluated on a reply whose ANALYSIS body has a
    second paragraph opening with the mixed-case word Note and a colon:
    the body returned stops in front of that paragraph, whereas under
    the upper-case reading of the delimiter it runs on to the INSIGHTS
    header. *)
Theorem extractSection_stops_at_mixed_case_word :
  extractSection Samples.replyWithNote (lit "ANALYSIS") = lit "Slope is steep."
  /\ extractSection_upper Samples.replyWithNote (lit "ANALYSIS")
     = lit "Slope is steep.

Note: verify on site.".
Proof. split; vm_compute; reflexivity. Qed.

(** ** Fallback on a failing model call *)

Lemma fallback_mentions_document (document : Document) (query : option (list N)) :
  Contains (analysis (generateFallbackAnalysis document query))
           (originalName document)
  /\ Contains (analysis (generateFallbackAnalysis document query))
              (decimal (contentLength document)).
Proof.
  unfold generateFallbackAnalysis. cbn [analysis]. split.
  - apply Contains_intro.
  - rewrite !(app_assoc _ _ (decimal _ ++ _)). apply Contains_intro.
Qed.

Lemma complete_throws (S : Services) (req : Request) (document : Document) :
  (forall r, exists e, messages_create S r = Thrown e) ->
  exists e, complete S req document = Thrown e.
Proof.
  intros Hall. destruct (Hall req) as [e He].
  exists e. unfold complete. by rewrite He.
Qed.

(** No exception leaves [analyzeDocument], whatever the services do. *)
Lemma analyzeDocument_never_throws (T : Templates) (S : Services)
    (document : Document) (query : option (list N)) :
  exists r, analyzeDocument T S document query = Returned r.
Proof.
  unfold analyzeDocument. destruct (negb (hasApiKey S)); [by eexists|].
  unfold try_catch.
  match goal with |- context [match ?b with _ => _ end] => destruct b end;
    by eexists.
Qed.

(** C2.  When the model call cannot be completed (no API key, or every
    request to the hosted model throws, a 429 included),
    [analyzeDocument] returns, without throwing, the locally built
    fallback result, and the analysis text of that result contains the
    original name of the document and the decimal count of the
    characters of its content. *)
Theorem analyzeDocument_falls_back (T : Templates) (S : Services)
    (document : Document) (query : option (list N)) :
  hasApiKey S = false \/ (forall req, exists e, messages_create S req = Thrown e) ->
  analyzeDocument T S document query
    = Returned (generateFallbackAnalysis document query)
  /\ Contains (analysis (generateFallbackAnalysis document query))
              (originalName document)
  /\ Contains (analysis (generateFallbackAnalysis document query))
              (decimal (contentLength document)).
Proof.
  intros Hdown. split; [|apply fallback_mentions_document].
  unfold analyzeDocument.
  destruct (hasApiKey S) eqn:Hkey; cbn [negb]; [|reflexivity].
  destruct Hdown as [Hno|Hall]; [discriminate|].
  destruct (getAllDocuments S) as [allDocuments|e0]; [|reflexivity].
  cbn [mbind outcome_bind try_catch].
  assert (Hc : forall req, try_catch (complete S req document)
              (fun _ => Returned (generateFallbackAnalysis document query))
            = Returned (generateFallbackAnalysis document query)).
  { intros req. destruct (complete_throws S req document Hall) as [e He].
    by rewrite He. }
  unfold try_catch in Hc.
  destruct (isImage (originalName document)).
  - unfold analyzeImageWithContext, analyzeTextDocument.
    destruct (includes _ _); [apply Hc|].
    destruct (base64Match _); apply Hc.
  - unfold analyzeDocumentWithContext. apply Hc.
Qed.

Lemma analyzeDocument_falls_back_witness :
  (hasApiKey Samples.rateLimited = false
   \/ (forall req, exists e, messages_create Samples.rateLimited req = Thrown e))
  /\ analyzeDocument Samples.nameOnlyTemplates Samples.rateLimited
       Samples.sitePlan None
     = Returned (generateFallbackAnalysis Samples.sitePlan None).
Proof.
  assert (Hdown : hasApiKey Samples.rateLimited = false
            \/ (forall req, exists e,
                  messages_create Samples.rateLimited req = Thrown e)).
  { right. intros req. eexists. reflexivity. }
  split; [exact Hdown|].
  exact (proj1 (analyzeDocument_falls_back Samples.nameOnlyTemplates
                  Samples.rateLimited Samples.sitePlan None Hdown)).
Defined.

(** ** Citations of recommendations *)

Lemma cited_step (document : Document) (recs : list Recommendation)
    (line : list N) :
  cited document recs -> cited document (recommendation_step document recs line).
Proof.
  intros Hc. unfold recommendation_step.
  destruct (has_marker line); [|exact Hc].
  destruct (2 <=? _)%nat; [|exact Hc].
  intros k r Hk. apply lookup_app_Some in Hk as [Hk|[Hlen Hk]].
  - by apply Hc.
  - apply list_lookup_singleton_Some in Hk as [Hk <-]. cbn [citation].
    repeat f_equal. lia.
Qed.

Lemma cited_loop (document : Document) (lines : list (list N))
    (recs : list Recommendation) :
  cited document recs ->
  cited document (fold_left (recommendation_step document) lines recs).
Proof.
  revert recs. induction lines as [|line lines IH]; intros recs Hc; [exact Hc|].
  cbn [fold_left]. by apply IH, cited_step.
Qed.

(** C8.  Every recommendation extracted from a RECOMMENDATIONS section
    carries the citation made of the original name of the document, the
    text [, Section ] and its 1-based position among the recommendations
    extracted from that reply. *)
Theorem citation_is_running_counter (text : list N) (document : Document)
    (k : nat) (r : Recommendation) :
  extractSection text (lit "RECOMMENDATIONS") <> [] ->
  extractRecommendations text document !! k = Some r ->
  citation r
  = originalName document ++ lit ", Section " ++ decimal (N.of_nat k + 1).
Proof.
  intros Hsec. unfold extractRecommendations.
  apply truthy_true in Hsec. rewrite Hsec. cbn [negb].
  intros Hk. apply lookup_take_Some in Hk as [Hk _].
  revert k r Hk. apply cited_loop. intros k r Hk. by destruct k.
Qed.

Lemma citation_is_running_counter_witness :
  extractSection Samples.replyScenario1 (lit "RECOMMENDATIONS") <> []
  /\ exists r,
       extractRecommendations Samples.replyScenario1 Samples.sitePlan !! 0%nat
         = Some r
       /\ citation r = lit "site-plan.pdf, Section 1".
Proof.
  assert (Hsec : extractSection Samples.replyScenario1 (lit "RECOMMENDATIONS") <> [])
    by (vm_compute; discriminate).
  split; [exact Hsec|].
  destruct (extractRecommendations Samples.replyScenario1 Samples.sitePlan !! 0%nat)
    as [r|] eqn:Hr; [|vm_compute in Hr; discriminate].
  exists r. split; [reflexivity|].
  exact (citation_is_running_counter Samples.replyScenario1 Samples.sitePlan
           0%nat r Hsec Hr).
Defined.

(** ** Insights *)

Lemma marker_not_space (c : N) : isBulletMarker c = true -> isWhiteSpace c = false.
Proof.
  unfold isBulletMarker. rewrite !orb_true_iff, !N.eqb_eq.
  intros [[[[->| ->]| ->]| ->]| ->]; reflexivity.
Qed.

Lemma split_markers_spec (s : list N) :
  (forall cur, (forall c, c ∈ cur -> isBulletMarker c = false) ->
     MarkerSplit (split_markers false cur s) (rev cur ++ s))
  /\ (exists ws s',
        s = ws ++ s'
        /\ Forall (fun c => isWhiteSpace c = true) ws
        /\ trimStart s' = s'
        /\ MarkerSplit (split_markers true [] s) s').
Proof.
  induction s as [|c s [IHf IHt]].
  - split.
    + intros cur Hcur. cbn [split_markers]. rewrite app_nil_r.
      apply split_end. intros c Hc. apply Hcur.
      by rewrite list_elem_of_In, in_rev, <- list_elem_of_In.
    + exists [], []. repeat split; [constructor|].
      apply split_end. intros c Hc. by apply elem_of_nil in Hc.
  - destruct IHt as (ws & s' & Hs & Hws & Hs' & Hsplit). split.
    + intros cur Hcur. cbn [split_markers andb].
      destruct (isBulletMarker c) eqn:Hm.
      * replace (rev cur ++ c :: s) with (rev cur ++ c :: ws ++ s')
          by (by rewrite Hs).
        apply split_at; try done.
        intros d Hd. apply Hcur.
        by rewrite list_elem_of_In, in_rev, <- list_elem_of_In.
      * replace (rev cur ++ c :: s) with (rev (c :: cur) ++ s)
          by (cbn [rev]; by rewrite <- app_assoc).
        apply IHf. intros d Hd. apply elem_of_cons in Hd as [->|Hd]; auto.
    + cbn [split_markers andb]. destruct (isWhiteSpace c) eqn:Hw.
      * exists (c :: ws), s'. repeat split; try done.
        -- by rewrite Hs.
        -- by constructor.
      * exists [], (c :: s). repeat split; [constructor|by apply trimStart_fixed|].
        destruct (isBulletMarker c) eqn:Hm.
        -- replace (c :: s) with ([] ++ c :: ws ++ s') by (by rewrite Hs).
           apply (split_at [] c ws s'); try done.
           intros d Hd. by apply elem_of_nil in Hd.
        -- apply (IHf [c]). intros d Hd.
           apply list_elem_of_singleton in Hd. by subst.
Qed.

Lemma split_markers_plain (s cur : list N) :
  (forall c, c ∈ s -> isBulletMarker c = false) ->
  split_markers false cur s = [rev cur ++ s].
Proof.
  revert cur. induction s as [|c s IH]; intros cur Hs; cbn [split_markers andb].
  - by rewrite app_nil_r.
  - rewrite (Hs c) by apply list_elem_of_here.
    rewrite IH by (intros d Hd; apply Hs; by apply list_elem_of_further).
    cbn [rev]. by rewrite <- app_assoc.
Qed.

Lemma MarkerSplit_plain (pieces : list (list N)) (s : list N) :
  MarkerSplit pieces s ->
  Forall (fun p => forall c, c ∈ p -> isBulletMarker c = false) pieces.
Proof. induction 1; by constructor. Qed.

(** The pieces of a string are determined by the string. *)
Lemma plain_prefix_unique (p p' r r' : list N) (m m' : N) :
  (forall c, c ∈ p -> isBulletMarker c = false) ->
  (forall c, c ∈ p' -> isBulletMarker c = false) ->
  isBulletMarker m = true -> isBulletMarker m' = true ->
  p ++ m :: r = p' ++ m' :: r' ->
  p = p' /\ m = m' /\ r = r'.
Proof.
  revert p'. induction p as [|c p IH]; intros [|c' p'] Hp Hp' Hm Hm' E;
    cbn [app] in E; injection E as Ec E.
  - by subst.
  - subst c'. rewrite (Hp' m) in Hm by apply list_elem_of_here. discriminate.
  - subst c. rewrite (Hp m') in Hm' by apply list_elem_of_here. discriminate.
  - subst c'. destruct (IH p') as (-> & -> & ->); try done.
    + intros d Hd. apply Hp. by apply list_elem_of_further.
    + intros d Hd. apply Hp'. by apply list_elem_of_further.
Qed.

Lemma plain_has_no_marker (p p' r : list N) (m : N) :
  (forall c, c ∈ p -> isBulletMarker c = false) ->
  isBulletMarker m = true ->
  p = p' ++ m :: r -> False.
Proof.
  intros Hp Hm ->. rewrite (Hp m) in Hm; [discriminate|].
  apply elem_of_app. right. apply list_elem_of_here.
Qed.

Lemma space_prefix_unique (ws ws' s s' : list N) :
  Forall (fun c => isWhiteSpace c = true) ws ->
  Forall (fun c => isWhiteSpace c = true) ws' ->
  trimStart s = s -> trimStart s' = s' ->
  ws ++ s = ws' ++ s' ->
  ws = ws' /\ s = s'.
Proof.
  intros Hws. revert ws'.
  induction Hws as [|c ws Hc Hws IH]; intros ws' Hws' Hs Hs' E;
    destruct Hws' as [|c' ws' Hc' Hws']; cbn [app] in E.
  - done.
  - subst s. by apply trimStart_space in Hs.
  - subst s'. by apply trimStart_space in Hs'.
  - injection E as -> E. by destruct (IH ws' Hws' Hs Hs' E) as [-> ->].
Qed.

Lemma MarkerSplit_functional (pieces pieces' : list (list N)) (s : list N) :
  MarkerSplit pieces s -> MarkerSplit pieces' s -> pieces = pieces'.
Proof.
  intros Hsplit. revert pieces'.
  induction Hsplit as [p Hp|p m ws s pieces Hp Hm Hws Hs Hsplit IH];
    intros pieces' Hsplit'.
  - inversion Hsplit' as [q Hq|q m' ws' s' rest Hq Hm' Hws' Hs' Hrest]; subst.
    + done.
    + exfalso. by eapply (plain_has_no_marker (q ++ m' :: ws' ++ s') q).
  - remember (p ++ m :: ws ++ s) as whole eqn:E.
    destruct Hsplit' as [q Hq|q m' ws' s' rest Hq Hm' Hws' Hs' Hrest].
    + exfalso. by eapply (plain_has_no_marker q p).
    + destruct (plain_prefix_unique p q _ _ m m' Hp Hq Hm Hm' (eq_sym E))
        as (-> & -> & E').
      destruct (space_prefix_unique ws ws' s s' Hws Hws' Hs Hs' E') as [-> ->].
      f_equal. by apply IH.
Qed.

Lemma kept_items_trimmed (pieces : list (list N)) :
  Forall (fun p => forall c, c ∈ p -> isBulletMarker c = false) pieces ->
  Forall (fun item => item <> [] /\ trim item = item
                      /\ forall c, c ∈ item -> isBulletMarker c = false)
         (List.map trim (List.filter (fun line => truthy (trim line)) pieces)).
Proof.
  induction 1 as [|p pieces Hp Hpieces IH]; cbn [List.filter List.map];
    [constructor|].
  destruct (truthy (trim p)) eqn:E; [|exact IH].
  cbn [List.map]. constructor; [|exact IH].
  split; [by apply truthy_true|]. split; [apply trim_idem|].
  intros c Hc. by apply Hp, trim_incl.
Qed.

(** In the source file the bullet U+2022 is not among the markers: a
    body itemised with it comes back as one insight. *)
Lemma insights_of_bulleted_body :
  extractInsights Samples.replyWithBullets
  = [ [8226; 32] ++ lit "Soil loose " ++ [8226; 32] ++ lit "Slope steep" ].
Proof. vm_compute. reflexivity. Qed.

(** C9 as stated fails.  The claim that a body without bullet markers
    yields the generic two-item fallback does not hold: the body of this
    reply holds no hyphen, no bullet (U+2022) and no asterisk, and the
    extraction returns the body itself as the only insight. *)
Lemma insights_of_plain_body :
  forallb (fun c => negb ((c =? 45) || (c =? 8226) || (c =? 42)))
          (extractSection Samples.replyPlainInsight (lit "INSIGHTS")) = true
  /\ extractInsights Samples.replyPlainInsight
     = [lit "Soil is loose near the outfall"]
  /\ extractInsights Samples.replyPlainInsight <> fallbackInsights.
Proof. repeat split; vm_compute; congruence. Qed.

(** C9 (amended).  When the INSIGHTS section is absent or its body is
    empty, the extraction returns the generic two-item fallback.  On a
    non-empty body it splits the body on the markers of its character
    class, each taken with the white space behind it, keeps the pieces
    that are not blank, trims them and returns the first five; every
    item returned is non-empty, trimmed and free of markers, and a body
    without any marker comes back as the only insight.  The pieces are
    determined by the body ([MarkerSplit_functional]). *)
Theorem extractInsights_cases (text : list N) :
  (extractSection text (lit "INSIGHTS") = [] ->
   extractInsights text = fallbackInsights)
  /\ (extractSection text (lit "INSIGHTS") <> [] ->
      (exists pieces,
         MarkerSplit pieces (extractSection text (lit "INSIGHTS"))
         /\ extractInsights text
            = firstn 5 (List.map trim
                (List.filter (fun piece => truthy (trim piece)) pieces)))
      /\ (List.length (extractInsights text) <= 5)%nat
      /\ Forall (fun item => item <> [] /\ trim item = item
                              /\ forall c, c ∈ item -> isBulletMarker c = false)
                (extractInsights text)
      /\ ((forall c, c ∈ extractSection text (lit "INSIGHTS") ->
                     isBulletMarker c = false) ->
          extractInsights text = [extractSection text (lit "INSIGHTS")])).
Proof.
  unfold extractInsights. split.
  - intros ->. reflexivity.
  - intros Hne. pose proof Hne as Ht. apply truthy_true in Ht.
    rewrite Ht. cbn [negb]. repeat split.
    + exists (split_markers false [] (extractSection text (lit "INSIGHTS"))).
      split; [|reflexivity].
      exact (proj1 (split_markers_spec _) [] (fun c Hc =>
               False_ind _ (proj1 (elem_of_nil c) Hc))).
    + rewrite length_take. lia.
    + apply Forall_take, kept_items_trimmed.
      eapply MarkerSplit_plain.
      exact (proj1 (split_markers_spec _) [] (fun c Hc =>
               False_ind _ (proj1 (elem_of_nil c) Hc))).
    + intros Hplain. rewrite split_markers_plain by exact Hplain.
      cbn [rev app List.filter]. rewrite extractSection_trimmed, Ht.
      cbn [List.map firstn]. by rewrite extractSection_trimmed.
Qed.

Lemma extractInsights_cases_witness :
  extractSection Samples.replyScenario1 (lit "INSIGHTS") <> []
  /\ (List.length (extractInsights Samples.replyScenario1) <= 5)%nat
  /\ extractSection [] (lit "INSIGHTS") = []
  /\ extractInsights [] = fallbackInsights.
Proof.
  assert (Hne : extractSection Samples.replyScenario1 (lit "INSIGHTS") <> [])
    by (vm_compute; discriminate).
  assert (He : extractSection [] (lit "INSIGHTS") = []) by reflexivity.
  split; [exact Hne|]. split.
  - exact (proj1 (proj2 (proj2 (extractInsights_cases Samples.replyScenario1) Hne))).
  - split; [exact He|].
    exact (proj1 (extractInsights_cases []) He).
Defined.

(** ** The reference context *)

Lemma insert_by_length_perm (d : Document) (l : list Document) :
  Permutation (insert_by_length d l) (d :: l).
Proof.
  induction l as [|x l IH]; cbn [insert_by_length]; [reflexivity|].
  destruct (List.length (content x) <=? List.length (content d))%nat; [reflexivity|].
  rewrite IH. apply perm_swap.
Qed.

Lemma sort_by_length_perm (l : list Document) :
  Permutation (sort_by_length l) l.
Proof.
  induction l as [|d l IH]; cbn [sort_by_length fold_right]; [reflexivity|].
  rewrite insert_by_length_perm. by constructor.
Qed.

Lemma insert_by_length_sorted (d : Document) (l : list Document) :
  StronglySorted longer_first l ->
  StronglySorted longer_first (insert_by_length d l).
Proof.
  induction 1 as [|x l Hl IH Hx]; cbn [insert_by_length].
  - repeat constructor.
  - destruct (List.length (content x) <=? List.length (content d))%nat eqn:E.
    + apply Nat.leb_le in E. constructor; [by constructor|].
      constructor; [exact E|].
      eapply Forall_impl; [exact Hx|]. unfold longer_first. cbn. lia.
    + apply Nat.leb_gt in E. constructor; [exact IH|].
      eapply Permutation_Forall.
      * symmetry. apply insert_by_length_perm.
      * constructor; [unfold longer_first; lia | exact Hx].
Qed.

Lemma sort_by_length_sorted (l : list Document) :
  StronglySorted longer_first (sort_by_length l).
Proof.
  induction l as [|d l IH]; cbn [sort_by_length fold_right]; [constructor|].
  by apply insert_by_length_sorted.
Qed.

(** Stability: the documents of any one length keep their order. *)
Lemma insert_by_length_stable (n : nat) (d : Document) (l : list Document) :
  StronglySorted longer_first l ->
  List.filter (fun x => List.length (content x) =? n)%nat (insert_by_length d l)
  = List.filter (fun x => List.length (content x) =? n)%nat (d :: l).
Proof.
  induction 1 as [|x l Hl IH Hx]; cbn [insert_by_length]; [reflexivity|].
  destruct (List.length (content x) <=? List.length (content d))%nat eqn:E; [reflexivity|].
  apply Nat.leb_gt in E. cbn [List.filter] in *. rewrite IH.
  destruct (List.length (content d) =? n)%nat eqn:Ed; [|reflexivity].
  apply Nat.eqb_eq in Ed.
  replace (List.length (content x) =? n)%nat with false; [reflexivity|].
  symmetry. apply Nat.eqb_neq. lia.
Qed.

Lemma sort_by_length_stable (n : nat) (l : list Document) :
  List.filter (fun x => List.length (content x) =? n)%nat (sort_by_length l)
  = List.filter (fun x => List.length (content x) =? n)%nat l.
Proof.
  induction l as [|d l IH]; cbn [sort_by_length fold_right]; [reflexivity|].
  rewrite insert_by_length_stable by apply sort_by_length_sorted.
  cbn [List.filter]. fold (sort_by_length l). by rewrite IH.
Qed.

Lemma substantial_spec (d : Document) :
  substantial d = true <-> (50 < List.length (content d))%nat.
Proof.
  unfold substantial. rewrite andb_true_iff, Nat.ltb_lt, truthy_true.
  split; [tauto|]. intros Hd. split; [|exact Hd].
  intros E. rewrite E in Hd. cbn in Hd. lia.
Qed.

(** C5 as stated fails, on two counts.  A library document of exactly 50
    characters, which is not below 50, is left out: the context of a
    library made of it alone is the sentinel for an empty library.  And
    the context of a library of one document of 60 characters carries no
    tag [[DOC-1]]: it announces the document as a REFERENCE with its
    name. *)
Lemma reference_context_of_short_library :
  List.length (content Samples.note50) = 50%nat
  /\ buildReferenceContext [Samples.note50] = noReferenceDocuments
  /\ includes (buildReferenceContext [Samples.note60]) (lit "[DOC-1]") = false
  /\ startsWith (buildReferenceContext [Samples.note60])
       (lit "[REFERENCE: " ++ [34] ++ lit "note-60.txt" ++ [34]) = true.
Proof. repeat split; vm_compute; reflexivity. Qed.

(** C5 (amended).  The documents of the reference context are exactly
    the library documents whose content is longer than 50 characters,
    ordered by content length descending, documents of equal length in
    library order; the context is the sentinel when there is none, and
    otherwise their entries joined by line feeds and followed by the BMP
    guide, every entry opening with [[REFERENCE: "name"]], the name being
    the original name or, when that is empty, Untitled Document. *)
Theorem reference_context_contents (allDocuments : list Document) :
  Permutation (referenceDocs allDocuments)
              (List.filter (fun d => 50 <? List.length (content d))%nat allDocuments)
  /\ StronglySorted longer_first (referenceDocs allDocuments)
  /\ (forall n,
        List.filter (fun d => List.length (content d) =? n)%nat (referenceDocs allDocuments)
        = List.filter (fun d => List.length (content d) =? n)%nat
            (List.filter (fun d => 50 <? List.length (content d))%nat allDocuments))
  /\ buildReferenceContext allDocuments
     = match referenceDocs allDocuments with
       | [] => noReferenceDocuments
       | docs => join [10] (List.map referenceEntry docs) ++ bmpImplementationGuide
       end
  /\ (forall d, exists rest,
        referenceEntry d
        = lit "[REFERENCE: " ++ [34]
          ++ (if truthy (originalName d) then originalName d
              else lit "Untitled Document")
          ++ [34] ++ rest).
Proof.
  assert (Hf : List.filter substantial allDocuments
               = List.filter (fun d => 50 <? List.length (content d))%nat allDocuments).
  { apply filter_ext. intros d.
    destruct (50 <? List.length (content d))%nat eqn:E.
    - apply substantial_spec. by apply Nat.ltb_lt.
    - destruct (substantial d) eqn:E2; [|reflexivity].
      apply substantial_spec, Nat.ltb_lt in E2. congruence. }
  unfold referenceDocs. rewrite Hf. repeat split.
  - apply sort_by_length_perm.
  - apply sort_by_length_sorted.
  - intros n. apply sort_by_length_stable.
  - unfold buildReferenceContext, referenceDocs. by rewrite Hf.
  - intros d. unfold referenceEntry. cbv zeta. eexists. reflexivity.
Qed.

End AnalyzerSpec.

(* ================================================================== *)
(** * Properties of the subprocess runner                              *)
(* ================================================================== *)

Module InterpreterSpec.
Import JS JSFacts Interpreter.

Ltac io_unfold := unfold mbind, mret, IO_bind, IO_ret, io_of, io_try.

(** ** Best-effort deletion *)

Lemma cleanup_one_run (H : Host) (file : list N) (w : World) :
  cleanup_one H file w
  = ({| files := swept H file (files w); killed := killed w |}, Returned tt).
Proof.
  unfold cleanup_one, swept, existsSync, unlinkSync. io_unfold.
  destruct (bool_decide _); destruct w; cbn; [|done].
  by destruct (unlink_error H file).
Qed.

Lemma cleanup_run (H : Host) (paths : list (list N)) (w : World) :
  cleanup H paths w
  = ({| files := swept_all H paths (files w); killed := killed w |}, Returned tt).
Proof.
  revert w. induction paths as [|p paths IH]; intros w;
    cbn [cleanup swept_all fold_left].
  - by destruct w.
  - io_unfold. by rewrite cleanup_one_run, IH.
Qed.

Lemma catch_block_run (H : Host) (tempDir sessionId : list N) (run : ChildRun)
    (childStarted : bool) (e : JsError) (w : World) :
  catch_block H tempDir sessionId run childStarted e w
  = ({| files :=
          (if childStarted then survived run else fun fs => fs)
            (swept_all H (temp_paths tempDir sessionId) (files w));
        killed := killed w |},
     Returned
       {| success := false;
          output := None;
          error := Some (lit "Python interpreter error: " ++ message e);
          plots := None;
          dataAnalysis :=
            Some (summaryObject (lit "Failed to execute Python analysis")) |}).
Proof.
  unfold catch_block, temp_paths. io_unfold. rewrite cleanup_run.
  by destruct childStarted.
Qed.

Lemma swept_lookup (H : Host) (p q : list N) (fs : gmap (list N) (list N)) :
  swept H p fs !! q
  = if bool_decide (q = p /\ unlink_error H p = None) then None else fs !! q.
Proof.
  unfold swept. case_bool_decide as Hpresent.
  - destruct (unlink_error H p) eqn:E.
    + rewrite bool_decide_eq_false_2; [done|]. intros [_ ?]; congruence.
    + case_bool_decide as Hq.
      * destruct Hq as [-> _]. apply lookup_delete_eq.
      * apply lookup_delete_ne. intros ->. by apply Hq.
  - case_bool_decide as Hq; [|done]. destruct Hq as [-> _].
    symmetry. by apply eq_None_not_Some in Hpresent.
Qed.

Lemma swept_all_lookup (H : Host) (paths : list (list N)) (q : list N)
    (fs : gmap (list N) (list N)) :
  swept_all H paths fs !! q
  = if bool_decide (q ∈ paths /\ unlink_error H q = None) then None else fs !! q.
Proof.
  revert fs. induction paths as [|p paths IH]; intros fs;
    cbn [swept_all fold_left].
  - rewrite bool_decide_eq_false_2; [done|]. intros [Hq _].
    by apply elem_of_nil in Hq.
  - fold (swept_all H paths (swept H p fs)). rewrite IH, swept_lookup.
    destruct (decide (q ∈ paths /\ unlink_error H q = None)) as [Ha|Ha];
      destruct (decide (q = p /\ unlink_error H p = None)) as [Hb|Hb];
      destruct (decide (q ∈ p :: paths /\ unlink_error H q = None)) as [Hc|Hc];
      rewrite ?(bool_decide_eq_true_2 _ Ha), ?(bool_decide_eq_false_2 _ Ha),
        ?(bool_decide_eq_true_2 _ Hb), ?(bool_decide_eq_false_2 _ Hb),
        ?(bool_decide_eq_true_2 _ Hc), ?(bool_decide_eq_false_2 _ Hc);
      try done; exfalso;
      try (destruct Ha as [Hq Hu]); try (destruct Hb as [Hq' Hu']);
      try (destruct Hc as [Hq'' Hu'']).
    + apply Hc. split; [by right|done].
    + apply Hc. split; [by right|done].
    + subst q. apply Hc. split; [left|done].
    + apply elem_of_cons in Hq'' as [->|Hq'']; [by apply Hb | by apply Ha].
Qed.

Lemma swept_all_idem (H : Host) (paths : list (list N))
    (fs : gmap (list N) (list N)) :
  swept_all H paths (swept_all H paths fs) = swept_all H paths fs.
Proof.
  apply map_eq. intros q. rewrite !swept_all_lookup. by case_bool_decide.
Qed.

(** A temporary file whose deletion does not fail is gone after the sweep. *)
Lemma swept_all_gone (H : Host) (paths : list (list N)) (q : list N)
    (fs : gmap (list N) (list N)) :
  q ∈ paths -> unlink_error H q = None -> swept_all H paths fs !! q = None.
Proof.
  intros Hq Hu. rewrite swept_all_lookup. by rewrite bool_decide_eq_true_2.
Qed.

(** ** One run, once the temporary files are written *)

Lemma analysis_after_writes (H : Host) (tempDir sessionId code : list N)
    (data : option JSONValue) (ty : AnalysisType) (run : ChildRun) (w : World) :
  inputs_written H tempDir sessionId data ->
  exists r,
    executeStormwaterAnalysis H tempDir sessionId code data ty run w
    = ({| files :=
            survived run
              (swept_all H (temp_paths tempDir sessionId)
                 (files_at_settlement H tempDir sessionId code data ty run
                    (files w)));
          killed :=
            match settled_by run with TimedOut => true | _ => killed w end |},
       Returned r)
    /\ (success r = true -> settled_by run = Closed (Some 0%Z))
    /\ (output_tolerated H
          (files_at_settlement H tempDir sessionId code data ty run (files w))
          (outputPath tempDir sessionId) ->
        (success r = true <-> settled_by run = Closed (Some 0%Z))
        /\ (settled_by run = TimedOut -> error r = Some timeoutMessage))
    /\ (forall text,
          files_at_settlement H tempDir sessionId code data ty run (files w)
            !! outputPath tempDir sessionId = Some text ->
          read_error H (outputPath tempDir sessionId) = None ->
          JSON_parse H text = Some JNull ->
          success r = false /\ error r = Some nullError).
Proof.
  intros [Hws Hwd].
  unfold executeStormwaterAnalysis, output_tolerated, files_at_settlement.
  set (out := outputPath tempDir sessionId).
  set (fs0 := match data with
              | Some d => if json_truthy d then _ else files w
              | None => files w
              end).
  io_unfold.
  assert (Hdata :
    (match data with
     | Some d =>
       if json_truthy d
       then writeFileSync H (dataPath tempDir sessionId) (JSON_stringify H d)
       else fun w => (w, Returned tt)
     | None => fun w => (w, Returned tt)
     end) w = ({| files := fs0; killed := killed w |}, Returned tt)).
  { subst fs0. destruct data as [d|]; [|by destruct w].
    cbn [data_truthy] in Hwd. destruct (json_truthy d); [|by destruct w].
    unfold writeFileSync. by rewrite Hwd. }
  rewrite Hdata. unfold writeFileSync at 1. rewrite Hws. cbn [files killed].
  unfold executePythonScript, existsSync, readFileSync, outlived, survived.
  cbn [files killed]. clear Hdata.
  set (fs := child_writes run _). clearbody fs. clear fs0.
  assert (Hzero : forall c : option Z,
            bool_decide (c = Some 0%Z) = true <-> Closed c = Closed (Some 0%Z)).
  { intros c. rewrite bool_decide_eq_true. split; congruence. }
  destruct (settled_by run) as [c|msg|] eqn:Hsettled; cbn [files killed];
    (destruct (fs !! out) as [text|] eqn:Hout;
     [ rewrite bool_decide_eq_true_2 by (by eexists);
       cbn [files killed]; rewrite Hout;
       destruct (read_error H out) as [rmsg|] eqn:Hread;
       [ | destruct (JSON_parse H text) as [[]|] eqn:Hparse ]
     | rewrite bool_decide_eq_false_2 by apply is_Some_None ]);
    cbn [get_property]; rewrite ?cleanup_run; cbn [files killed];
    rewrite ?catch_block_run; unfold survived; rewrite ?Hsettled;
    cbn [files killed]; rewrite ?swept_all_idem; fold (temp_paths tempDir sessionId);
    (eexists; split; [reflexivity|]); cbn [success error script_success script_error];
    (split; [first [ apply Hzero | discriminate ] |]);
    (split; [ intros Hok; try (elim (proj2 Hok); reflexivity);
              try (pose proof (proj1 Hok); congruence);
              (split; [first [ apply Hzero | split; discriminate ]
                      | first [ discriminate | reflexivity ] ])
            | intros text' Htext Hr Hp;
              first [ discriminate
                    | (assert (text' = text) by congruence; subst text';
                       first [ congruence | split; reflexivity ]) ] ]).
Qed.

(** Once the temporary files are written and the output file is absent,
    or readable and not [null], the exit status alone decides [success]. *)
Lemma exit_status_decides_success (H : Host) (tempDir sessionId code : list N)
    (data : option JSONValue) (ty : AnalysisType) (run : ChildRun) (w : World) :
  inputs_written H tempDir sessionId data ->
  output_tolerated H
    (files_at_settlement H tempDir sessionId code data ty run (files w))
    (outputPath tempDir sessionId) ->
  exists r w',
    executeStormwaterAnalysis H tempDir sessionId code data ty run w
    = (w', Returned r)
    /\ (success r = true <-> settled_by run = Closed (Some 0%Z)).
Proof.
  intros Hsp Hok.
  destruct (analysis_after_writes H tempDir sessionId code data ty run w Hsp)
    as (r & Hrun & _ & Htol & _).
  eexists r, _. split; [exact Hrun|]. exact (proj1 (Htol Hok)).
Qed.

(** C7.  The runner evaluated on a child that exits with status 0 after
    writing an output file whose text parses to the JSON value [null]:
    the result has [success = false] and an interpreter error, although
    the exit status is 0. *)
Theorem exit_zero_masked_by_null_output (H : Host)
    (tempDir sessionId code : list N) (data : option JSONValue)
    (ty : AnalysisType) (run : ChildRun) (w : World) (text : list N) :
  inputs_written H tempDir sessionId data ->
  settled_by run = Closed (Some 0%Z) ->
  files_at_settlement H tempDir sessionId code data ty run (files w)
    !! outputPath tempDir sessionId = Some text ->
  read_error H (outputPath tempDir sessionId) = None ->
  JSON_parse H text = Some JNull ->
  exists r w',
    executeStormwaterAnalysis H tempDir sessionId code data ty run w
    = (w', Returned r)
    /\ success r = false
    /\ error r = Some nullError.
Proof.
  intros Hsp _ Htext Hread Hparse.
  destruct (analysis_after_writes H tempDir sessionId code data ty run w Hsp)
    as (r & Hrun & _ & _ & Hnull).
  eexists r, _. split; [exact Hrun|]. exact (Hnull text Htext Hread Hparse).
Qed.

Lemma exit_zero_masked_by_null_output_witness :
  settled_by RunnerSamples.nullWriter = Closed (Some 0%Z)
  /\ exists r w',
       executeStormwaterAnalysis RunnerSamples.soundHost
         RunnerSamples.tempDir RunnerSamples.sessionId RunnerSamples.userCode
         None data_analysis RunnerSamples.nullWriter RunnerSamples.emptyWorld
       = (w', Returned r)
       /\ success r = false
       /\ error r = Some nullError.
Proof.
  split; [reflexivity|].
  apply (exit_zero_masked_by_null_output RunnerSamples.soundHost
           RunnerSamples.tempDir RunnerSamples.sessionId RunnerSamples.userCode
           None data_analysis RunnerSamples.nullWriter RunnerSamples.emptyWorld
           (lit "null")).
  - split; [reflexivity | intros _; reflexivity].
  - reflexivity.
  - vm_compute. reflexivity.
  - reflexivity.
  - reflexivity.
Defined.

(** C6 as stated fails.  That no temporary file remains after a timeout
    does not hold when a deletion fails: on a host where the script file
    cannot be unlinked, the run of a child that outlives the timer is
    reported as timed out and the script file is still there afterwards.
    Nor does it hold when every deletion succeeds but the child takes no
    notice of the signal: [kill()] sends SIGTERM and nothing waits for
    the exit, so a child that writes its output file after the clean-up
    leaves that file on disk. *)
Lemma timeout_leaves_files_behind :
  (settled_by RunnerSamples.sleeper = TimedOut
   /\ files (fst (executeStormwaterAnalysis RunnerSamples.lockedHost
                   RunnerSamples.tempDir RunnerSamples.sessionId
                   RunnerSamples.userCode None data_analysis
                   RunnerSamples.sleeper RunnerSamples.emptyWorld))
        !! scriptPath RunnerSamples.tempDir RunnerSamples.sessionId
      = Some RunnerSamples.userCode
   /\ exists r,
        snd (executeStormwaterAnalysis RunnerSamples.lockedHost
               RunnerSamples.tempDir RunnerSamples.sessionId
               RunnerSamples.userCode None data_analysis
               RunnerSamples.sleeper RunnerSamples.emptyWorld)
        = Returned r
        /\ success r = false
        /\ error r = Some timeoutMessage)
  /\ (settled_by RunnerSamples.lateWriter = TimedOut
      /\ (forall p, unlink_error RunnerSamples.soundHost p = None)
      /\ files (fst (executeStormwaterAnalysis RunnerSamples.soundHost
                      RunnerSamples.tempDir RunnerSamples.sessionId
                      RunnerSamples.userCode None data_analysis
                      RunnerSamples.lateWriter RunnerSamples.emptyWorld))
           !! outputPath RunnerSamples.tempDir RunnerSamples.sessionId
         = Some (lit "{}")
      /\ exists r,
           snd (executeStormwaterAnalysis RunnerSamples.soundHost
                  RunnerSamples.tempDir RunnerSamples.sessionId
                  RunnerSamples.userCode None data_analysis
                  RunnerSamples.lateWriter RunnerSamples.emptyWorld)
           = Returned r
           /\ success r = false
           /\ error r = Some timeoutMessage).
Proof.
  split.
  - split; [reflexivity|]. split; [vm_compute; reflexivity|].
    eexists. split; [vm_compute; reflexivity|]. split; reflexivity.
  - split; [reflexivity|]. split; [reflexivity|].
    split; [vm_compute; reflexivity|].
    eexists. split; [vm_compute; reflexivity|]. split; reflexivity.
Qed.

(** C6 (amended).  When the temporary files are written, the child is
    spawned and the 30 second timer fires before it exits, the runner
    sends the kill signal to it and returns, without throwing, a result
    with [success = false]; the error is the time-out message whenever
    the output file is absent, or readable and not the value [null];
    and afterwards each of the three temporary files whose deletion does
    not fail, and which the child does not write again should it outlive
    the signal, is gone. *)
Theorem timeout_kills_reports_and_sweeps (H : Host)
    (tempDir sessionId code : list N) (data : option JSONValue)
    (ty : AnalysisType) (run : ChildRun) (w : World) :
  inputs_written H tempDir sessionId data ->
  settled_by run = TimedOut ->
  exists r w',
    executeStormwaterAnalysis H tempDir sessionId code data ty run w
    = (w', Returned r)
    /\ killed w' = true
    /\ success r = false
    /\ (output_tolerated H
          (files_at_settlement H tempDir sessionId code data ty run (files w))
          (outputPath tempDir sessionId) ->
        error r = Some timeoutMessage)
    /\ (forall p, p ∈ temp_paths tempDir sessionId ->
                  unlink_error H p = None ->
                  not_rewritten run p ->
                  files w' !! p = None).
Proof.
  intros Hsp Hto.
  destruct (analysis_after_writes H tempDir sessionId code data ty run w Hsp)
    as (r & Hrun & Hsucc & Htol & _).
  eexists r, _. split; [exact Hrun|]. cbn [files killed]. rewrite Hto.
  repeat split.
  - destruct (success r); [|reflexivity].
    specialize (Hsucc eq_refl). congruence.
  - intros Hok. exact (proj2 (Htol Hok) Hto).
  - intros p Hp Hu Hkeep. unfold survived. rewrite Hto.
    by apply Hkeep, swept_all_gone.
Qed.

Lemma timeout_kills_reports_and_sweeps_witness :
  inputs_written RunnerSamples.soundHost RunnerSamples.tempDir
    RunnerSamples.sessionId None
  /\ settled_by RunnerSamples.sleeper = TimedOut
  /\ not_rewritten RunnerSamples.sleeper
       (scriptPath RunnerSamples.tempDir RunnerSamples.sessionId)
  /\ exists r w',
       executeStormwaterAnalysis RunnerSamples.soundHost
         RunnerSamples.tempDir RunnerSamples.sessionId RunnerSamples.userCode
         None data_analysis RunnerSamples.sleeper RunnerSamples.emptyWorld
       = (w', Returned r)
       /\ killed w' = true
       /\ success r = false
       /\ files w' !! scriptPath RunnerSamples.tempDir RunnerSamples.sessionId
          = None.
Proof.
  assert (Hsp : inputs_written RunnerSamples.soundHost RunnerSamples.tempDir
                  RunnerSamples.sessionId None)
    by (split; [reflexivity | intros _; reflexivity]).
  assert (Hkeep : not_rewritten RunnerSamples.sleeper
                    (scriptPath RunnerSamples.tempDir RunnerSamples.sessionId))
    by (intros fs Hfs; exact Hfs).
  split; [exact Hsp|]. split; [reflexivity|]. split; [exact Hkeep|].
  destruct (timeout_kills_reports_and_sweeps RunnerSamples.soundHost
              RunnerSamples.tempDir RunnerSamples.sessionId
              RunnerSamples.userCode None data_analysis RunnerSamples.sleeper
              RunnerSamples.emptyWorld Hsp eq_refl)
    as (r & w' & Hrun & Hk & Hs & _ & Hgone).
  exists r, w'. split; [exact Hrun|]. split; [exact Hk|]. split; [exact Hs|].
  apply Hgone; [|reflexivity|exact Hkeep].
  unfold temp_paths. apply list_elem_of_here.
Defined.

End InterpreterSpec.

(* ================================================================== *)
(** * Properties of the plugin manager                                 *)
(* ================================================================== *)

Module PluginsSpec.
Import JS Plugins.

Local Open Scope Z_scope.

Section Totals.
Variable g : AIPlugin -> Z.

Lemma total_empty : total g ∅ = 0.
Proof. unfold total. apply map_fold_empty. Qed.

Lemma total_insert_fresh (m : gmap (list N) AIPlugin) (i : list N) (x : AIPlugin) :
  m !! i = None -> total g (<[i:=x]> m) = total g m + g x.
Proof.
  intros Hi. unfold total. rewrite map_fold_insert_L; [done| |done].
  intros. lia.
Qed.

Lemma total_delete (m : gmap (list N) AIPlugin) (i : list N) (x : AIPlugin) :
  m !! i = Some x -> total g m = total g (delete i m) + g x.
Proof.
  intros Hi. unfold total. rewrite (map_fold_delete_L _ _ i x m); [done| |done].
  intros. lia.
Qed.

Lemma total_insert (m : gmap (list N) AIPlugin) (i : list N) (x : AIPlugin) :
  total g (<[i:=x]> m) = total g (delete i m) + g x.
Proof.
  rewrite <- insert_delete_eq. apply total_insert_fresh, lookup_delete_eq.
Qed.

Lemma total_delete_le (m : gmap (list N) AIPlugin) (i : list N) :
  (forall j p, m !! j = Some p -> 0 <= g p) ->
  total g (delete i m) <= total g m.
Proof.
  intros Hpos. destruct (m !! i) as [x|] eqn:Hi.
  - rewrite (total_delete m i x Hi). specialize (Hpos i x Hi). lia.
  - by rewrite delete_id.
Qed.

End Totals.

Lemma memory_total (m : Manager) :
  getTotalMemoryUsage m = total (fun p => memory (getResourceUsage p)) (plugins m).
Proof. reflexivity. Qed.

Lemma cpu_total (m : Manager) :
  getTotalCpuUsage m = total (fun p => cpu (getResourceUsage p)) (plugins m).
Proof. reflexivity. Qed.

(** When every plugin reports what it declares, the reported and the
    declared sums agree. *)
Lemma total_ext (g h : AIPlugin -> Z) (m : gmap (list N) AIPlugin) :
  (forall i p, m !! i = Some p -> g p = h p) -> total g m = total h m.
Proof.
  induction m as [|i x m Hi _ IH] using map_first_key_ind; intros Hgh.
  - by rewrite !total_empty.
  - rewrite !total_insert_fresh by done. rewrite IH.
    + rewrite (Hgh i x); [done|]. apply lookup_insert_eq.
    + intros j p Hj. apply (Hgh j). rewrite lookup_insert_ne; [done|].
      intros ->. congruence.
Qed.

(** A refused registration leaves the manager as it was. *)
Lemma registerPlugin_refused (m : Manager) (plugin : AIPlugin) :
  canLoadPlugin m plugin = false -> registerPlugin m plugin = (false, m).
Proof. intros Hc. unfold registerPlugin. by rewrite Hc. Qed.

Lemma canLoadPlugin_false (m : Manager) (plugin : AIPlugin) :
  maxMemoryUsage < getTotalMemoryUsage m + memoryUsage plugin
  \/ maxCpuUsage < getTotalCpuUsage m + cpuUsage plugin ->
  canLoadPlugin m plugin = false.
Proof.
  intros Hover. unfold canLoadPlugin. cbv zeta.
  apply andb_false_iff. rewrite !Z.leb_gt. tauto.
Qed.

Lemma reported_nonneg (m : Manager) :
  all_well_behaved m ->
  (forall j p, plugins m !! j = Some p -> 0 <= memory (getResourceUsage p))
  /\ (forall j p, plugins m !! j = Some p -> 0 <= cpu (getResourceUsage p)).
Proof.
  intros Hall. split; intros j p Hp;
    destruct (Hall j p Hp) as [[Em Ec] [Pm Pc]]; lia.
Qed.

Lemma perform_preserves (m : Manager) (c : Call) :
  registers well_behaved c ->
  all_well_behaved m -> within_caps m ->
  all_well_behaved (perform m c) /\ within_caps (perform m c).
Proof.
  intros Hc Hall [Hcapm Hcapc].
  destruct (reported_nonneg m Hall) as [Hposm Hposc].
  destruct c as [plugin|pluginId]; cbn [perform].
  - cbn [registers] in Hc. unfold registerPlugin.
    destruct (canLoadPlugin m plugin) eqn:Hload; cbn [negb snd]; [|done].
    destruct (initialize plugin); cbn [snd]; [|done].
    split.
    + intros i p. cbn [plugins]. intros Hp.
      apply lookup_insert_Some in Hp as [[_ <-]|[_ Hp]]; [done|by eapply Hall].
    + unfold canLoadPlugin in Hload. cbv zeta in Hload.
      apply andb_true_iff in Hload. rewrite !Z.leb_le in Hload.
      destruct Hload as [Hmem Hcpu]. destruct Hc as [[Em Ec] [Pm Pc]].
      rewrite memory_total in Hmem. rewrite cpu_total in Hcpu.
      unfold within_caps. rewrite memory_total, cpu_total. cbn [plugins].
      rewrite !total_insert. cbn [set_active getResourceUsage].
      pose proof (total_delete_le _ (plugins m) (id plugin) Hposm).
      pose proof (total_delete_le _ (plugins m) (id plugin) Hposc).
      cbv beta in *. lia.
  - unfold unregisterPlugin.
    destruct (plugins m !! pluginId) as [plugin|] eqn:Hp; cbn [snd]; [|done].
    destruct (shutdown plugin); cbn [snd]; [|done].
    split.
    + intros i p. cbn [plugins]. intros Hi.
      apply lookup_delete_Some in Hi as [_ Hi]. by eapply Hall.
    + unfold within_caps. rewrite memory_total, cpu_total. cbn [plugins].
      rewrite memory_total in Hcapm. rewrite cpu_total in Hcapc.
      pose proof (total_delete_le _ (plugins m) pluginId Hposm).
      pose proof (total_delete_le _ (plugins m) pluginId Hposc).
      cbv beta in *. lia.
Qed.

Lemma newManager_within_caps :
  all_well_behaved newManager /\ within_caps newManager.
Proof.
  split.
  - intros i p Hp. cbn in Hp. by rewrite lookup_empty in Hp.
  - unfold within_caps. rewrite memory_total, cpu_total. cbn [plugins newManager].
    rewrite !total_empty. unfold maxMemoryUsage, maxCpuUsage. lia.
Qed.

Lemma fold_perform_preserves (cs : list Call) (m : Manager) :
  Forall (registers well_behaved) cs ->
  all_well_behaved m -> within_caps m ->
  all_well_behaved (fold_left perform cs m)
  /\ within_caps (fold_left perform cs m).
Proof.
  intros Hcs. revert m. induction Hcs as [|c cs Hc Hcs IH]; intros m Hall Hcaps.
  - done.
  - cbn [fold_left].
    destruct (perform_preserves m c Hc Hall Hcaps) as [Hall' Hcaps'].
    by apply IH.
Qed.

Lemma registers_both (cs : list Call) :
  Forall (registers reports_declared) cs ->
  Forall (registers declares_amounts) cs ->
  Forall (registers well_behaved) cs.
Proof.
  induction 1 as [|c cs Hc _ IH]; intros Ha; [constructor|].
  apply List.Forall_cons_iff in Ha as [Hca Ha].
  constructor; [|by apply IH]. destruct c; [by split|done].
Qed.

(** An awaited call is the two parts run one after the other. *)
Lemma registerPlugin_awaited (m : Manager) (plugin : AIPlugin) :
  registerPlugin m plugin
  = match registerPlugin_start m plugin with
    | None => (false, m)
    | Some m1 => registerPlugin_finish m1 plugin
    end.
Proof.
  unfold registerPlugin, registerPlugin_start, registerPlugin_finish.
  destruct (negb (canLoadPlugin m plugin)); [reflexivity|].
  by destruct (initialize plugin).
Qed.

(** C10 as stated fails, in two ways.  A plugin may declare a negative
    figure, which nothing in the source rules out: registered between
    two large plugins and unregistered again, the plugin [credit] leaves
    5000 MB registered, every plugin reporting what it declares.  And a
    call need not be awaited: [registerPlugin] checks the caps, then
    awaits [initialize()], then adds the plugin, so two calls started
    one behind the other both pass the check and leave 6000 MB
    registered, with figures that are not negative and reported as
    declared. *)
Lemma caps_exceeded_by_credit_or_overlap :
  (Forall (registers reports_declared) PluginSamples.withCredit
   /\ getTotalMemoryUsage (perform_all PluginSamples.withCredit) = 5000
   /\ getTotalCpuUsage (perform_all PluginSamples.withCredit) = 20)
  /\ (well_behaved PluginSamples.twin1
      /\ well_behaved PluginSamples.twin2
      /\ exists m1 m2 m3 m4,
           registerPlugin_start newManager PluginSamples.twin1 = Some m1
           /\ registerPlugin_start m1 PluginSamples.twin2 = Some m2
           /\ registerPlugin_finish m2 PluginSamples.twin1 = (true, m3)
           /\ registerPlugin_finish m3 PluginSamples.twin2 = (true, m4)
           /\ getTotalMemoryUsage m4 = 6000).
Proof.
  split.
  - split; [by repeat constructor|]. split; vm_compute; reflexivity.
  - split; [by repeat split|]. split; [by repeat split|].
    eexists _, _, _, _.
    split; [vm_compute; reflexivity|]. split; [vm_compute; reflexivity|].
    split; [vm_compute; reflexivity|]. split; [vm_compute; reflexivity|].
    vm_compute. reflexivity.
Qed.

(** C10 (amended).  When every plugin passed to [registerPlugin] reports
    through [getResourceUsage] the memory and CPU figures it declares,
    and these figures are not negative, then after any sequence of
    [registerPlugin] and [unregisterPlugin] calls, each awaited before
    the next is started, the registered plugins use in sum at most
    4096 MB of memory and at most 80 percent of CPU, by the reported and
    by the declared figures alike; and a registration that would exceed
    either cap returns [false] and leaves the registry and the record
    of lifecycle calls as they were (the plugin is neither initialized
    nor added). *)
Theorem caps_hold_after_any_calls (cs : list Call) :
  Forall (registers reports_declared) cs ->
  Forall (registers declares_amounts) cs ->
  (getTotalMemoryUsage (perform_all cs) <= 4096
   /\ getTotalCpuUsage (perform_all cs) <= 80
   /\ total memoryUsage (plugins (perform_all cs)) <= 4096
   /\ total cpuUsage (plugins (perform_all cs)) <= 80)
  /\ (forall plugin,
        4096 < getTotalMemoryUsage (perform_all cs) + memoryUsage plugin
        \/ 80 < getTotalCpuUsage (perform_all cs) + cpuUsage plugin ->
        registerPlugin (perform_all cs) plugin = (false, perform_all cs)).
Proof.
  intros Hreports Hamounts.
  pose proof (registers_both cs Hreports Hamounts) as Hcs. unfold perform_all.
  destruct newManager_within_caps as [Hall0 Hcaps0].
  destruct (fold_perform_preserves cs newManager Hcs Hall0 Hcaps0)
    as [Hall [Hm Hc]].
  split.
  - repeat split; try assumption.
    + rewrite <- (total_ext (fun p => memory (getResourceUsage p))).
      * exact Hm.
      * intros i p Hp. by destruct (Hall i p Hp) as [[-> _] _].
    + rewrite <- (total_ext (fun p => cpu (getResourceUsage p))).
      * exact Hc.
      * intros i p Hp. by destruct (Hall i p Hp) as [[_ ->] _].
  - intros plugin Hover. by apply registerPlugin_refused, canLoadPlugin_false.
Qed.

Lemma caps_hold_after_any_calls_witness :
  Forall (registers reports_declared) PluginSamples.startup
  /\ Forall (registers declares_amounts) PluginSamples.startup
  /\ getTotalMemoryUsage (perform_all PluginSamples.startup) <= 4096
  /\ getTotalCpuUsage (perform_all PluginSamples.startup) <= 80.
Proof.
  assert (Hreports : Forall (registers reports_declared) PluginSamples.startup)
    by (by repeat constructor).
  assert (Hamounts : Forall (registers declares_amounts) PluginSamples.startup).
  { repeat constructor; cbn; lia. }
  split; [exact Hreports|]. split; [exact Hamounts|].
  pose proof (proj1 (caps_hold_after_any_calls PluginSamples.startup
                       Hreports Hamounts))
    as (Hm & Hc & _).
  split; assumption.
Defined.

End PluginsSpec.

(* ================================================================== *)
(** * More facts about the string fragment                             *)
(* ================================================================== *)

Module JSMore.
Import JS JSFacts.

Lemma strip_prefix_Some (p s r : list N) :
  strip_prefix p s = Some r <-> s = p ++ r.
Proof.
  revert s. induction p as [|a p IH]; intros s; cbn [strip_prefix app].
  - split; [by intros [= ->]|by intros ->].
  - destruct s as [|c s]; [split; discriminate|].
    destruct (N.eqb_spec a c) as [->|Hne].
    + rewrite IH. split; [by intros ->|by intros [= ->]].
    + split; [discriminate|]. intros [= E _]. by elim Hne.
Qed.

Lemma startsWith_app (p r : list N) : startsWith (p ++ r) p = true.
Proof.
  unfold startsWith.
  by rewrite (proj2 (strip_prefix_Some p (p ++ r) r) eq_refl).
Qed.

Lemma startsWith_true (s p : list N) :
  startsWith s p = true <-> exists r, s = p ++ r.
Proof.
  unfold startsWith. split.
  - destruct (strip_prefix p s) as [r|] eqn:E; [|discriminate].
    intros _. exists r. by apply strip_prefix_Some.
  - intros [r ->]. by rewrite (proj2 (strip_prefix_Some p (p ++ r) r) eq_refl).
Qed.

Lemma includes_app (pre p post : list N) : includes (pre ++ p ++ post) p = true.
Proof.
  induction pre as [|c pre IH]; cbn [app].
  - destruct (p ++ post) eqn:E; cbn [includes]; rewrite <- ?E;
      by rewrite startsWith_app.
  - cbn [includes]. rewrite IH. apply orb_true_r.
Qed.

Lemma includes_false_tail (c : N) (s sub : list N) :
  includes (c :: s) sub = false ->
  startsWith (c :: s) sub = false /\ includes s sub = false.
Proof. cbn [includes]. by intros [? ?]%orb_false_elim. Qed.

Lemma split_loop_skip (sep : list N) (k : nat) (cur s : list N) :
  split_loop sep k cur s = split_loop sep O cur (skipn k s).
Proof.
  revert k. induction s as [|c s IH]; intros [|k]; try reflexivity.
  cbn [split_loop skipn]. apply IH.
Qed.

Lemma split_loop_cons (sep : list N) (k : nat) (cur s : list N) :
  exists p ps, split_loop sep k cur s = p :: ps.
Proof.
  revert k cur. induction s as [|c s IH]; intros k cur; cbn [split_loop].
  - by eexists _, _.
  - destruct k; [|apply IH].
    destruct (startsWith _ _); [by eexists _, _|apply IH].
Qed.

Lemma join_cons (sep x p : list N) (ps : list (list N)) :
  join sep (x :: p :: ps) = x ++ sep ++ join sep (p :: ps).
Proof. reflexivity. Qed.

(** Joining the pieces of [s.split(sep)] with [sep] gives [s] back. *)
Lemma join_split_loop (sep : list N) (n : nat) :
  sep <> [] ->
  forall cur s, (List.length s <= n)%nat ->
  join sep (split_loop sep O cur s) = rev cur ++ s.
Proof.
  intros Hsep. induction n as [|n IH]; intros cur [|c s] Hn;
    cbn [List.length] in Hn; try lia; cbn [split_loop].
  - cbn [join]. by rewrite app_nil_r.
  - cbn [join]. by rewrite app_nil_r.
  - destruct (startsWith (c :: s) sep) eqn:Hs.
    + apply startsWith_true in Hs as [r Hr].
      destruct sep as [|a sep]; [done|]. injection Hr as Hc Hr. subst c s.
      cbn [List.length Nat.pred]. rewrite split_loop_skip.
      replace (skipn (List.length sep) (sep ++ r)) with r
        by (by rewrite skipn_app, skipn_all, Nat.sub_diag).
      destruct (split_loop_cons (a :: sep) O [] r) as (p & ps & E).
      rewrite E, join_cons, <- E, IH; [done|].
      rewrite length_app in Hn. lia.
    + rewrite IH by lia. cbn [rev]. by rewrite <- app_assoc.
Qed.

Lemma join_split (s sep : list N) : sep <> [] -> join sep (split s sep) = s.
Proof. intros Hsep. by apply (join_split_loop sep (List.length s)). Qed.

(** A string without the separator is a single piece. *)
Lemma split_loop_without (sep cur s : list N) :
  includes s sep = false -> split_loop sep O cur s = [rev cur ++ s].
Proof.
  revert cur. induction s as [|c s IH]; intros cur Hno; cbn [split_loop].
  - by rewrite app_nil_r.
  - apply includes_false_tail in Hno as [-> Hno].
    rewrite IH by done. cbn [rev]. by rewrite <- app_assoc.
Qed.

(** The first piece ends where the separator first occurs. *)
Lemma split_loop_first (sep cur head rest : list N) :
  sep <> [] ->
  (forall k, (k < List.length head)%nat ->
             startsWith (skipn k (head ++ sep ++ rest)) sep = false) ->
  split_loop sep O cur (head ++ sep ++ rest)
  = (rev cur ++ head) :: split_loop sep O [] rest.
Proof.
  intros Hsep. revert cur. induction head as [|c head IH]; intros cur Hfirst.
  - destruct sep as [|a sep]; [done|]. rewrite app_nil_r. cbn [app].
    change (a :: sep ++ rest) with ((a :: sep) ++ rest).
    cbn [split_loop app]. change (a :: sep ++ rest) with ((a :: sep) ++ rest).
    rewrite startsWith_app. cbn [List.length Nat.pred].
    rewrite split_loop_skip.
    by rewrite skipn_app, skipn_all, Nat.sub_diag.
  - cbn [app split_loop].
    assert (H0 : (0 < List.length (c :: head))%nat) by (cbn [List.length]; lia).
    apply Hfirst in H0. cbn [skipn app] in H0. rewrite H0.
    rewrite IH.
    + cbn [rev]. by rewrite <- app_assoc.
    + intros k Hk. apply (Hfirst (S k)). cbn [List.length]. lia.
Qed.

End JSMore.

(* ================================================================== *)
(** * Further properties of the analyzer                               *)
(* ================================================================== *)

Module AnalyzerMore.
Import JS JSFacts JSMore Analyzer AnalyzerNotions.

(** ** Replies without structure *)

Lemma canonicalize_colon (c : N) : canonicalize c = 58 -> c = 58.
Proof.
  unfold canonicalize.
  destruct ((97 <=? c) && (c <=? 122)) eqn:E; [|done].
  apply andb_true_iff in E as [E1 E2].
  apply N.leb_le in E1, E2. lia.
Qed.

Lemma match_label_colon (label text rest : list N) :
  match_label (label ++ [58]) text = Some rest -> 58 ∈ text.
Proof.
  revert text. induction label as [|p label IH]; intros [|c text];
    cbn [app match_label]; try discriminate.
  - destruct (canonicalize 58 =? canonicalize c) eqn:E; [|discriminate].
    intros _. apply N.eqb_eq in E. symmetry in E.
    apply canonicalize_colon in E as ->. apply list_elem_of_here.
  - destruct (canonicalize p =? canonicalize c); [|discriminate].
    intros Hm. apply list_elem_of_further. by eapply IH.
Qed.

Lemma section_match_without_colon (ahead : list N -> bool) (label text : list N) :
  58 ∉ text -> section_match ahead (label ++ [58]) text = None.
Proof.
  induction text as [|c text IH]; intros Hno; cbn [section_match].
  - destruct (match_label (label ++ [58]) []) eqn:E; [|done].
    apply match_label_colon in E. by apply elem_of_nil in E.
  - destruct (match_label (label ++ [58]) (c :: text)) eqn:E.
    + apply match_label_colon in E. done.
    + apply IH. intros Hin. apply Hno. by apply list_elem_of_further.
Qed.

Lemma extractSection_without_colon (text sectionName : list N) :
  58 ∉ text -> extractSection text sectionName = [].
Proof.
  intros Hno. unfold extractSection.
  by rewrite section_match_without_colon.
Qed.

(** X1.  A reply that holds no colon has no section: the parser returns
    the fallback analysis text, the two generic insights and the single
    recommendation Document Review Required. *)
Theorem parse_reply_without_colon (text : list N) (document : Document) :
  58 ∉ text ->
  parseAnalysisResponse text document = parsedFallback document.
Proof.
  intros Hno. unfold parseAnalysisResponse, parsedFallback.
  unfold extractInsights, extractRecommendations.
  by rewrite !extractSection_without_colon.
Qed.

Lemma parse_reply_without_colon_witness :
  (58 ∉ MoreSamples.replyPlain)
  /\ parseAnalysisResponse MoreSamples.replyPlain Samples.sitePlan
     = parsedFallback Samples.sitePlan.
Proof.
  assert (Hno : 58 ∉ MoreSamples.replyPlain)
    by (apply (bool_decide_unpack _); vm_compute; exact I).
  split; [exact Hno|].
  exact (parse_reply_without_colon MoreSamples.replyPlain Samples.sitePlan Hno).
Defined.

(** ** The sentinel of the reference context *)

Lemma referenceDocs_nil (allDocuments : list Document) :
  referenceDocs allDocuments = []
  <-> forall d, d ∈ allDocuments -> (List.length (content d) <= 50)%nat.
Proof.
  unfold referenceDocs. split.
  - intros E d Hd.
    destruct (substantial d) eqn:Hs.
    + assert (Hin : In d (List.filter substantial allDocuments))
        by (apply filter_In; split; [by apply list_elem_of_In|done]).
      eapply Permutation_in in Hin;
        [|symmetry; apply AnalyzerSpec.sort_by_length_perm].
      rewrite E in Hin. destruct Hin.
    + destruct (le_gt_dec (List.length (content d)) 50) as [Hle|Hgt]; [done|].
      apply AnalyzerSpec.substantial_spec in Hgt. congruence.
  - intros Hall.
    assert (E : List.filter substantial allDocuments = []).
    { induction allDocuments as [|d l IH]; [reflexivity|]. cbn [List.filter].
      destruct (substantial d) eqn:Hs.
      - apply AnalyzerSpec.substantial_spec in Hs.
        specialize (Hall d (list_elem_of_here _ _)). lia.
      - apply IH. intros x Hx. by apply Hall, list_elem_of_further. }
    by rewrite E.
Qed.

(** X2.  The reference context is the sentinel for an empty library
    exactly when no document of the library is longer than 50
    characters; in particular it is never the empty string. *)
Theorem reference_context_sentinel_iff (allDocuments : list Document) :
  (buildReferenceContext allDocuments = noReferenceDocuments
   <-> forall d, d ∈ allDocuments -> (List.length (content d) <= 50)%nat)
  /\ buildReferenceContext allDocuments <> [].
Proof.
  rewrite <- referenceDocs_nil. unfold buildReferenceContext.
  destruct (referenceDocs allDocuments) as [|d docs]; split; try done.
  - split; [|discriminate]. intros E. exfalso.
    cbn [List.map join] in E. destruct (List.map referenceEntry docs);
      unfold referenceEntry in E; cbn in E; discriminate.
  - cbn [List.map join]. destruct (List.map referenceEntry docs);
      unfold referenceEntry; cbn; discriminate.
Qed.

(** ** A model call that succeeds *)

Lemma complete_returns (S : Services) (req : Request) (document : Document)
    (b : ContentBlock) :
  (forall r, exists rest, messages_create S r = Returned (b :: rest)) ->
  complete S req document
  = Returned (parseAnalysisResponse (blockText b) document).
Proof.
  intros Hall. destruct (Hall req) as [rest He].
  unfold complete. rewrite He. by destruct b.
Qed.

(** X3.  With an API key, a readable library and a hosted model whose
    reply opens with the content block [b], [analyzeDocument] returns
    the parse of the text of [b] (of the empty text when [b] is not a
    text block), whichever prompt it chose; when the replies carry no
    content block at all it returns the fallback analysis. *)
Theorem analyzeDocument_parses_first_block (T : Templates) (S : Services)
    (document : Document) (query : option (list N)) (library : list Document) :
  hasApiKey S = true ->
  getAllDocuments S = Returned library ->
  (forall b,
     (forall r, exists rest, messages_create S r = Returned (b :: rest)) ->
     analyzeDocument T S document query
     = Returned (parseAnalysisResponse (blockText b) document))
  /\ ((forall r, messages_create S r = Returned []) ->
      analyzeDocument T S document query
      = Returned (generateFallbackAnalysis document query)).
Proof.
  intros Hkey Hlib. unfold analyzeDocument. rewrite Hkey, Hlib.
  cbn [negb mbind outcome_bind]. split.
  - intros b Hall.
    pose proof (fun req => complete_returns S req document b Hall) as Hc.
    unfold try_catch.
    destruct (isImage (originalName document)).
    + unfold analyzeImageWithContext, analyzeTextDocument.
      destruct (includes _ _); [by rewrite Hc|].
      destruct (base64Match _); by rewrite Hc.
    + unfold analyzeDocumentWithContext. by rewrite Hc.
  - intros Hall.
    assert (Hc : forall req, complete S req document
              = Thrown {| status := None;
                          message := lit "Cannot read properties of undefined (reading 'type')" |}).
    { intros req. unfold complete. by rewrite Hall. }
    unfold try_catch.
    destruct (isImage (originalName document)).
    + unfold analyzeImageWithContext, analyzeTextDocument.
      destruct (includes _ _); [by rewrite Hc|].
      destruct (base64Match _); by rewrite Hc.
    + unfold analyzeDocumentWithContext. by rewrite Hc.
Qed.

Lemma analyzeDocument_parses_first_block_witness :
  hasApiKey (MoreSamples.answering Samples.replyScenario1) = true
  /\ analyzeDocument Samples.nameOnlyTemplates
       (MoreSamples.answering Samples.replyScenario1) Samples.sitePlan None
     = Returned (parseAnalysisResponse Samples.replyScenario1 Samples.sitePlan)
  /\ analyzeDocument Samples.nameOnlyTemplates MoreSamples.answeringEmpty
       Samples.sitePlan None
     = Returned (generateFallbackAnalysis Samples.sitePlan None).
Proof.
  split; [reflexivity|]. split.
  - apply (proj1 (analyzeDocument_parses_first_block Samples.nameOnlyTemplates
                    (MoreSamples.answering Samples.replyScenario1)
                    Samples.sitePlan None [Samples.sitePlan]
                    eq_refl eq_refl) (TextBlock Samples.replyScenario1)).
    intros r. by exists [].
  - apply (proj2 (analyzeDocument_parses_first_block Samples.nameOnlyTemplates
                    MoreSamples.answeringEmpty
                    Samples.sitePlan None [Samples.sitePlan]
                    eq_refl eq_refl)).
    intros r. reflexivity.
Defined.

(** ** One line of the RECOMMENDATIONS section *)

Lemma first_at_split (head rest : list N) :
  first_at (lit " - ") head (lit " - " ++ rest) ->
  split (head ++ lit " - " ++ rest) (lit " - ") = head :: split rest (lit " - ").
Proof.
  intros Hfirst. unfold split.
  by rewrite (split_loop_first (lit " - ") [] head rest).
Qed.

(** X4.  A line that carries a category marker and whose first " - "
    stands behind [head] becomes one recommendation: its title is
    [head] without a leading marker, trimmed; its content is everything
    behind that first " - ", trimmed, later " - " included; its citation
    counts the recommendations built so far.  A line without " - " adds
    nothing, marker or not. *)
Theorem recommendation_of_line (document : Document)
    (recs : list Recommendation) :
  (forall head rest,
     has_marker (head ++ lit " - " ++ rest) = true ->
     first_at (lit " - ") head (lit " - " ++ rest) ->
     recommendation_step document recs (head ++ lit " - " ++ rest)
     = recs ++
       [ {| title := trim (strip_marker head);
            rec_content := trim rest;
            rec_category := lit "stormwater";
            subcategory := Some (subcategory_of (head ++ lit " - " ++ rest));
            citation := originalName document ++ lit ", Section "
                        ++ decimal (N.of_nat (List.length recs) + 1) |} ])
  /\ (forall line,
        includes line (lit " - ") = false ->
        recommendation_step document recs line = recs).
Proof.
  split.
  - intros head rest Hm Hfirst. unfold recommendation_step.
    rewrite Hm, first_at_split by done.
    destruct (split_loop_cons (lit " - ") O [] rest) as (p & ps & E).
    unfold split in *. rewrite E. cbn [List.length Nat.leb hd tl].
    rewrite <- E.
    by rewrite (join_split_loop (lit " - ") (List.length rest)).
  - intros line Hno. unfold recommendation_step, split.
    rewrite split_loop_without by done.
    by destruct (has_marker line).
Qed.

Lemma recommendation_of_line_witness :
  has_marker (lit "QSD: Inspect weekly" ++ lit " - "
              ++ lit "silt fence - north side") = true
  /\ first_at (lit " - ") (lit "QSD: Inspect weekly")
       (lit " - " ++ lit "silt fence - north side")
  /\ recommendation_step Samples.sitePlan []
       (lit "QSD: Inspect weekly - silt fence - north side")
     = [ {| title := lit "Inspect weekly";
            rec_content := lit "silt fence - north side";
            rec_category := lit "stormwater";
            subcategory := Some (lit "QSD");
            citation := lit "site-plan.pdf, Section 1" |} ]
  /\ includes (lit "QSD: Inspect weekly") (lit " - ") = false
  /\ recommendation_step Samples.sitePlan [] (lit "QSD: Inspect weekly") = [].
Proof.
  assert (Hfirst : first_at (lit " - ") (lit "QSD: Inspect weekly")
                     (lit " - " ++ lit "silt fence - north side")).
  { intros k Hk. vm_compute in Hk.
    do 19 (destruct k as [|k]; [vm_compute; reflexivity|]). lia. }
  split; [vm_compute; reflexivity|]. split; [exact Hfirst|]. split.
  - change (lit "QSD: Inspect weekly - silt fence - north side")
      with (lit "QSD: Inspect weekly" ++ lit " - "
            ++ lit "silt fence - north side").
    rewrite (proj1 (recommendation_of_line Samples.sitePlan [])
               (lit "QSD: Inspect weekly") (lit "silt fence - north side")
               eq_refl Hfirst).
    vm_compute. reflexivity.
  - split; [vm_compute; reflexivity|].
    apply (proj2 (recommendation_of_line Samples.sitePlan [])).
    vm_compute. reflexivity.
Defined.

(** ** The category of what the analyzer returns *)

Lemma recommendation_step_category (document : Document)
    (recs : list Recommendation) (line : list N) :
  Forall (fun r => rec_category r = lit "stormwater") recs ->
  Forall (fun r => rec_category r = lit "stormwater")
         (recommendation_step document recs line).
Proof.
  intros Hall. unfold recommendation_step.
  destruct (has_marker line); [|done].
  destruct (2 <=? _)%nat; [|done].
  apply Forall_app. split; [done|]. by repeat constructor.
Qed.

Lemma extractRecommendations_category (text : list N) (document : Document) :
  Forall (fun r => rec_category r = lit "stormwater")
         (extractRecommendations text document).
Proof.
  unfold extractRecommendations.
  destruct (negb _); [by repeat constructor|].
  apply Forall_take.
  generalize (List.filter (fun line => truthy (trim line))
                (split (extractSection text (lit "RECOMMENDATIONS")) [10])).
  intros lines.
  assert (Hnil : Forall (fun r : Recommendation => rec_category r = lit "stormwater") [])
    by constructor.
  revert Hnil. generalize (@nil Recommendation).
  induction lines as [|line lines IH]; intros recs Hrecs; cbn [fold_left];
    [done|].
  by apply IH, recommendation_step_category.
Qed.

(** What [analyzeDocument] returns is the parse of some reply or the
    fallback analysis. *)
Lemma analyzeDocument_result (T : Templates) (S : Services)
    (document : Document) (query : option (list N)) (r : AnalysisResult) :
  analyzeDocument T S document query = Returned r ->
  (exists text, r = parseAnalysisResponse text document)
  \/ r = generateFallbackAnalysis document query.
Proof.
  unfold analyzeDocument. destruct (negb (hasApiKey S)); [intros [= <-]; by right|].
  destruct (getAllDocuments S) as [allDocuments|e0];
    [|intros [= <-]; by right].
  cbn [mbind outcome_bind].
  assert (Hc : forall req,
            try_catch (complete S req document)
              (fun _ => Returned (generateFallbackAnalysis document query))
            = Returned r ->
            (exists text, r = parseAnalysisResponse text document)
            \/ r = generateFallbackAnalysis document query).
  { intros req. unfold complete.
    destruct (messages_create S req) as [blocks|e]; [|intros [= <-]; by right].
    cbn [mbind outcome_bind].
    destruct (firstText blocks) as [t|e]; [|intros [= <-]; by right].
    intros [= <-]. left. by exists t. }
  destruct (isImage (originalName document)).
  - unfold analyzeImageWithContext, analyzeTextDocument.
    destruct (includes _ _); [apply Hc|].
    destruct (base64Match _); apply Hc.
  - unfold analyzeDocumentWithContext. apply Hc.
Qed.

Lemma analyzeDocument_category (T : Templates) (S : Services)
    (document : Document) (query : option (list N)) (r : AnalysisResult) :
  analyzeDocument T S document query = Returned r ->
  Forall (fun rec => rec_category rec = lit "stormwater") (recommendations r).
Proof.
  intros [[text ->]| ->]%analyzeDocument_result.
  - apply extractRecommendations_category.
  - by repeat constructor.
Qed.

End AnalyzerMore.

(* ================================================================== *)
(** * More facts about the runner                                      *)
(* ================================================================== *)

Module InterpreterMore.
Import JS JSFacts Interpreter InterpreterNotions InterpreterSpec.

(** ** Failing writes *)

Lemma data_write_failure (H : Host) (tempDir sessionId code : list N)
    (d : JSONValue) (ty : AnalysisType) (run : ChildRun) (w : World)
    (msg : list N) :
  json_truthy d = true ->
  write_error H (dataPath tempDir sessionId) = Some msg ->
  executeStormwaterAnalysis H tempDir sessionId code (Some d) ty run w
  = ({| files := swept_all H (temp_paths tempDir sessionId) (files w);
        killed := killed w |},
     Returned (interpreterFailure msg)).
Proof.
  intros Hd Hw. unfold executeStormwaterAnalysis. io_unfold.
  rewrite Hd. unfold writeFileSync at 1. rewrite Hw.
  by rewrite catch_block_run.
Qed.

Lemma script_write_failure (H : Host) (tempDir sessionId code : list N)
    (data : option JSONValue) (ty : AnalysisType) (run : ChildRun) (w : World)
    (msg : list N) :
  (data_truthy data = true -> write_error H (dataPath tempDir sessionId) = None) ->
  write_error H (scriptPath tempDir sessionId) = Some msg ->
  executeStormwaterAnalysis H tempDir sessionId code data ty run w
  = ({| files := swept_all H (temp_paths tempDir sessionId)
                   (data_written H tempDir sessionId data (files w));
        killed := killed w |},
     Returned (interpreterFailure msg)).
Proof.
  intros Hwd Hws. unfold executeStormwaterAnalysis, data_written. io_unfold.
  assert (Hdata :
    (match data with
     | Some d =>
       if json_truthy d
       then writeFileSync H (dataPath tempDir sessionId) (JSON_stringify H d)
       else fun w => (w, Returned tt)
     | None => fun w => (w, Returned tt)
     end) w
    = ({| files := data_written H tempDir sessionId data (files w);
          killed := killed w |}, Returned tt)).
  { unfold data_written. destruct data as [d|]; [|by destruct w].
    cbn [data_truthy] in Hwd. destruct (json_truthy d); [|by destruct w].
    unfold writeFileSync. by rewrite Hwd. }
  rewrite Hdata. unfold writeFileSync at 1. rewrite Hws.
  by rewrite catch_block_run.
Qed.

(** X5.  When the data file or the script file cannot be written, the
    child is not started: whatever the child would have done, the call
    returns the interpreter failure carrying the message of the failed
    write, sends no [kill], and leaves behind the files it found, less
    the temporary ones it could delete. *)
Theorem write_failure_skips_child (H : Host) (tempDir sessionId code : list N)
    (data : option JSONValue) (ty : AnalysisType) (run : ChildRun) (w : World)
    (msg : list N) :
  (data_truthy data = true
   /\ write_error H (dataPath tempDir sessionId) = Some msg)
  \/ ((data_truthy data = true ->
       write_error H (dataPath tempDir sessionId) = None)
      /\ write_error H (scriptPath tempDir sessionId) = Some msg) ->
  exists fs',
    executeStormwaterAnalysis H tempDir sessionId code data ty run w
    = ({| files := fs'; killed := killed w |},
       Returned (interpreterFailure msg))
    /\ (forall q, q ∉ temp_paths tempDir sessionId ->
                  fs' !! q = files w !! q)
    /\ (forall q, q ∈ temp_paths tempDir sessionId ->
                  unlink_error H q = None -> fs' !! q = None).
Proof.
  intros Hfail.
  assert (Hsw : forall fs q, q ∉ temp_paths tempDir sessionId ->
                  swept_all H (temp_paths tempDir sessionId) fs !! q = fs !! q).
  { intros fs q Hq. rewrite swept_all_lookup.
    rewrite bool_decide_eq_false_2; [done|]. by intros [? _]. }
  destruct Hfail as [[Hd Hw]|[Hwd Hws]].
  - destruct data as [d|]; [|discriminate]. cbn [data_truthy] in Hd.
    eexists. split; [by apply data_write_failure|]. split.
    + intros q Hq. by apply Hsw.
    + intros q Hq Hu. by apply swept_all_gone.
  - eexists. split; [by apply script_write_failure|]. split.
    + intros q Hq. rewrite Hsw by done.
      unfold data_written. destruct data as [d|]; [|done].
      destruct (json_truthy d); [|done].
      rewrite lookup_insert_ne; [done|]. intros <-. apply Hq.
      unfold temp_paths. apply list_elem_of_further, list_elem_of_here.
    + intros q Hq Hu. by apply swept_all_gone.
Qed.

Lemma write_failure_skips_child_witness :
  write_error MoreRunnerSamples.fullDiskHost
    (scriptPath RunnerSamples.tempDir RunnerSamples.sessionId)
  = Some (lit "ENOSPC: no space left on device, write")
  /\ exists fs',
       executeStormwaterAnalysis MoreRunnerSamples.fullDiskHost
         RunnerSamples.tempDir RunnerSamples.sessionId RunnerSamples.userCode
         None data_analysis RunnerSamples.nullWriter RunnerSamples.emptyWorld
       = ({| files := fs'; killed := false |},
          Returned (interpreterFailure
                      (lit "ENOSPC: no space left on device, write"))).
Proof.
  assert (Hw : write_error MoreRunnerSamples.fullDiskHost
                 (scriptPath RunnerSamples.tempDir RunnerSamples.sessionId)
               = Some (lit "ENOSPC: no space left on device, write"))
    by (vm_compute; reflexivity).
  split; [exact Hw|].
  destruct (write_failure_skips_child MoreRunnerSamples.fullDiskHost
              RunnerSamples.tempDir RunnerSamples.sessionId
              RunnerSamples.userCode None data_analysis
              RunnerSamples.nullWriter RunnerSamples.emptyWorld
              (lit "ENOSPC: no space left on device, write"))
    as (fs' & Hrun & _).
  - right. split; [discriminate|exact Hw].
  - exists fs'. exact Hrun.
Defined.

(** ** The result of a run whose inputs are written *)

Lemma executePythonScript_run (run : ChildRun) (w : World) :
  executePythonScript run w
  = ({| files := child_writes run (files w);
        killed := match settled_by run with TimedOut => true | _ => killed w end |},
     Returned (settled run)).
Proof. unfold executePythonScript, settled. by destruct (settled_by run). Qed.

Lemma analysis_result_after_writes (H : Host) (tempDir sessionId code : list N)
    (data : option JSONValue) (ty : AnalysisType) (run : ChildRun) (w : World) :
  inputs_written H tempDir sessionId data ->
  executeStormwaterAnalysis H tempDir sessionId code data ty run w
  = ({| files :=
          survived run
            (swept_all H (temp_paths tempDir sessionId)
               (files_at_settlement H tempDir sessionId code data ty run
                  (files w)));
        killed :=
          match settled_by run with TimedOut => true | _ => killed w end |},
     Returned
       match files_at_settlement H tempDir sessionId code data ty run (files w)
             !! outputPath tempDir sessionId with
       | Some text =>
         match read_error H (outputPath tempDir sessionId) with
         | Some rmsg => interpreterFailure rmsg
         | None =>
           match JSON_parse H text with
           | Some JNull =>
             interpreterFailure
               (lit "Cannot read properties of null (reading 'plots')")
           | Some v => completed (settled run) v
           | None => completed (settled run) (JObject [])
           end
         end
       | None => completed (settled run) (JObject [])
       end).
Proof.
  intros [Hws Hwd].
  unfold executeStormwaterAnalysis, files_at_settlement.
  set (out := outputPath tempDir sessionId).
  set (fs0 := match data with
              | Some d => if json_truthy d then _ else files w
              | None => files w
              end).
  io_unfold.
  assert (Hdata :
    (match data with
     | Some d =>
       if json_truthy d
       then writeFileSync H (dataPath tempDir sessionId) (JSON_stringify H d)
       else fun w => (w, Returned tt)
     | None => fun w => (w, Returned tt)
     end) w = ({| files := fs0; killed := killed w |}, Returned tt)).
  { subst fs0. destruct data as [d|]; [|by destruct w].
    cbn [data_truthy] in Hwd. destruct (json_truthy d); [|by destruct w].
    unfold writeFileSync. by rewrite Hwd. }
  rewrite Hdata. unfold writeFileSync at 1. rewrite Hws. cbn [files killed].
  rewrite executePythonScript_run. cbn [files killed].
  unfold existsSync, readFileSync, outlived.
  cbn [files killed]. clear Hdata.
  set (fs := child_writes run _). clearbody fs. clear fs0.
  set (k := match settled_by run with TimedOut => true | _ => killed w end).
  clearbody k.
  set (sr := settled run). clearbody sr.
  destruct (fs !! out) as [text|] eqn:Hout;
    [ rewrite bool_decide_eq_true_2 by (by eexists);
      cbn [files killed]; rewrite Hout;
      destruct (read_error H out) as [rmsg|] eqn:Hread;
      [ | destruct (JSON_parse H text) as [[]|] eqn:Hparse ]
    | rewrite bool_decide_eq_false_2 by apply is_Some_None ];
    cbn [get_property]; rewrite ?cleanup_run; cbn [files killed];
    rewrite ?catch_block_run; cbn [files killed]; rewrite ?swept_all_idem;
    reflexivity.
Qed.

(** ** No exception leaves the runner *)

Lemma inputs_written_dec (H : Host) (tempDir sessionId : list N)
    (data : option JSONValue) :
  inputs_written H tempDir sessionId data
  \/ exists msg,
       (data_truthy data = true
        /\ write_error H (dataPath tempDir sessionId) = Some msg)
       \/ ((data_truthy data = true ->
            write_error H (dataPath tempDir sessionId) = None)
           /\ write_error H (scriptPath tempDir sessionId) = Some msg).
Proof.
  unfold inputs_written.
  destruct (data_truthy data) eqn:Hd.
  - destruct (write_error H (dataPath tempDir sessionId)) as [msg|] eqn:Hwd.
    + right. exists msg. by left.
    + destruct (write_error H (scriptPath tempDir sessionId)) as [msg|] eqn:Hws.
      * right. exists msg. right. by split.
      * left. by split.
  - destruct (write_error H (scriptPath tempDir sessionId)) as [msg|] eqn:Hws.
    + right. exists msg. right. by split.
    + left. by split.
Qed.

(** X6.  [executeStormwaterAnalysis] never throws: on every host, for
    every input and every behaviour of the child it returns a result,
    which always carries a [dataAnalysis]; the result reports success
    only when both temporary files were written and the child exited
    with status 0, and [kill] is sent only by the timer. *)
Theorem analysis_never_throws (H : Host) (tempDir sessionId code : list N)
    (data : option JSONValue) (ty : AnalysisType) (run : ChildRun) (w : World) :
  exists r w',
    executeStormwaterAnalysis H tempDir sessionId code data ty run w
    = (w', Returned r)
    /\ is_Some (dataAnalysis r)
    /\ (success r = true ->
        inputs_written H tempDir sessionId data
        /\ settled_by run = Closed (Some 0%Z))
    /\ (killed w' = true -> killed w = true \/ settled_by run = TimedOut).
Proof.
  destruct (inputs_written_dec H tempDir sessionId data)
    as [Hin|[msg [[Hd Hw]|[Hwd Hws]]]].
  - eexists _, _. split; [by apply analysis_result_after_writes|].
    cbn [killed].
    assert (Hc : forall v,
              is_Some (dataAnalysis (completed (settled run) v))
              /\ (success (completed (settled run) v) = true ->
                  settled_by run = Closed (Some 0%Z))).
    { intros v. split; [by eexists|]. unfold completed, settled. cbn [success].
      destruct (settled_by run) as [c| |]; cbn [script_success]; try discriminate.
      intros Hc%bool_decide_eq_true. by rewrite Hc. }
    assert (Hf : forall m,
              is_Some (dataAnalysis (interpreterFailure m))
              /\ (success (interpreterFailure m) = true ->
                  settled_by run = Closed (Some 0%Z))).
    { intros m. split; [by eexists|discriminate]. }
    split; [|split].
    + destruct (_ !! _) as [text|]; [|apply Hc].
      destruct (read_error H _); [apply Hf|].
      destruct (JSON_parse H text) as [[]|]; first [apply Hc|apply Hf].
    + intros Hs. split; [exact Hin|]. revert Hs.
      destruct (_ !! _) as [text|]; [|apply Hc].
      destruct (read_error H _); [apply Hf|].
      destruct (JSON_parse H text) as [[]|]; first [apply Hc|apply Hf].
    + destruct (settled_by run); auto.
  - destruct data as [d|]; [|discriminate]. cbn [data_truthy] in Hd.
    eexists _, _. split; [by apply data_write_failure|]. cbn.
    split; [by eexists|]. split; [discriminate|auto].
  - eexists _, _. split; [by apply script_write_failure|]. cbn.
    split; [by eexists|]. split; [discriminate|auto].
Qed.

(** ** What the result carries *)

(** X7.  Once the temporary files are written and the output file is
    absent or readable, and what it holds is not the value [null]
    (an absent or unparsable file counting as the empty object [v]),
    the result carries [plots] and [analysis] of the output when they
    are truthy and the defaults otherwise: the empty list of plots and
    a summary that depends on [success]; after ['close'] the standard
    output and the standard error are passed on trimmed, an empty
    standard error as no error; after ['error'] the result is a failure
    to start. *)
Theorem result_carries_output (H : Host) (tempDir sessionId code : list N)
    (data : option JSONValue) (ty : AnalysisType) (run : ChildRun) (w : World)
    (v : JSONValue) :
  inputs_written H tempDir sessionId data ->
  files_at_settlement H tempDir sessionId code data ty run (files w)
    !! outputPath tempDir sessionId = None
  \/ read_error H (outputPath tempDir sessionId) = None ->
  parsed_output H
    (files_at_settlement H tempDir sessionId code data ty run (files w))
    (outputPath tempDir sessionId) = v ->
  v <> JNull ->
  exists r,
    snd (executeStormwaterAnalysis H tempDir sessionId code data ty run w)
    = Returned r
    /\ plots r = Some (or_default (member v (lit "plots")) (JArray []))
    /\ dataAnalysis r
       = Some (or_default (member v (lit "analysis"))
                 (summaryObject
                    (if success r
                     then lit "Python execution completed successfully"
                     else lit "Execution failed")))
    /\ (forall c, settled_by run = Closed c ->
          success r = bool_decide (c = Some 0%Z)
          /\ output r = Some (trim (stdout run))
          /\ error r = if truthy (trim (stderr run))
                       then Some (trim (stderr run)) else None)
    /\ (forall msg, settled_by run = SpawnFailed msg ->
          success r = false
          /\ output r = None
          /\ error r = Some (lit "Failed to start Python process: " ++ msg)).
Proof.
  intros Hin Hread Hv Hnull.
  exists (completed (settled run) v). split.
  - rewrite analysis_result_after_writes by done. cbn [snd]. f_equal.
    unfold parsed_output in Hv.
    destruct (_ !! _) as [text|] eqn:Hout.
    + destruct Hread as [|Hread]; [discriminate|]. rewrite Hread.
      destruct (JSON_parse H text) as [u|]; [|by subst v].
      subst u. by destruct v.
    + by subst v.
  - unfold completed, settled, defaultAnalysis. cbn [plots dataAnalysis success].
    split; [done|]. split; [done|]. split.
    + intros c ->. by cbn.
    + intros msg ->. by cbn.
Qed.

Lemma result_carries_output_witness :
  inputs_written MoreRunnerSamples.plotsHost RunnerSamples.tempDir
    RunnerSamples.sessionId None
  /\ exists r,
       snd (executeStormwaterAnalysis MoreRunnerSamples.plotsHost
              RunnerSamples.tempDir RunnerSamples.sessionId
              RunnerSamples.userCode None data_analysis
              MoreRunnerSamples.plotter RunnerSamples.emptyWorld)
       = Returned r
       /\ plots r = Some (JArray [JString (lit "runoff.png")])
       /\ success r = true
       /\ output r = Some (lit "Python analysis complete").
Proof.
  assert (Hin : inputs_written MoreRunnerSamples.plotsHost RunnerSamples.tempDir
                  RunnerSamples.sessionId None)
    by (split; [reflexivity | intros _; reflexivity]).
  split; [exact Hin|].
  destruct (result_carries_output MoreRunnerSamples.plotsHost
              RunnerSamples.tempDir RunnerSamples.sessionId
              RunnerSamples.userCode None data_analysis
              MoreRunnerSamples.plotter RunnerSamples.emptyWorld
              MoreRunnerSamples.plotsValue Hin)
    as (r & Hrun & Hplots & _ & Hclosed & _).
  - right. reflexivity.
  - vm_compute. reflexivity.
  - discriminate.
  - exists r. split; [exact Hrun|]. split; [exact Hplots|].
    destruct (Hclosed (Some 0%Z) eq_refl) as (Hs & Ho & _).
    split; [exact Hs|]. rewrite Ho. vm_compute. reflexivity.
Defined.

(** ** Sessions do not meet *)

Lemma temp_paths_apart (tempDir sessionId sessionId' p : list N) :
  p ∈ temp_paths tempDir sessionId ->
  p ∈ temp_paths tempDir sessionId' ->
  sessionId = sessionId'.
Proof.
  unfold temp_paths, scriptPath, dataPath, outputPath, path_join.
  rewrite !elem_of_cons, !elem_of_nil.
  intros [->|[->|[->|[]]]] [E|[E|[E|[]]]];
    apply app_inv_head in E; apply app_inv_head in E;
    vm_compute (lit "script_") in E; vm_compute (lit "data_") in E;
    vm_compute (lit "output_") in E; cbn [app] in E;
    try discriminate E; simplify_eq; by eapply app_inv_tail.
Qed.

(** X8.  A run touches the temporary files of its own session only: a
    file of another session that the child itself leaves alone is the
    same before and after the call, on every host and whether the call
    succeeds, fails or times out. *)
Theorem other_sessions_untouched (H : Host)
    (tempDir sessionId sessionId' code q : list N)
    (data : option JSONValue) (ty : AnalysisType) (run : ChildRun) (w : World) :
  sessionId <> sessionId' ->
  q ∈ temp_paths tempDir sessionId' ->
  untouched_by run q ->
  files (fst (executeStormwaterAnalysis H tempDir sessionId code data ty run w))
    !! q
  = files w !! q.
Proof.
  intros Hne Hq Hrun.
  assert (Hout : q ∉ temp_paths tempDir sessionId).
  { intros Hq'. apply Hne. by eapply temp_paths_apart. }
  assert (Hs : q <> scriptPath tempDir sessionId).
  { intros ->. apply Hout. unfold temp_paths. apply list_elem_of_here. }
  assert (Hd : q <> dataPath tempDir sessionId).
  { intros ->. apply Hout. unfold temp_paths.
    apply list_elem_of_further, list_elem_of_here. }
  assert (Hdw : data_written H tempDir sessionId data (files w) !! q
                = files w !! q).
  { unfold data_written. destruct data as [d|]; [|done].
    destruct (json_truthy d); [|done]. by rewrite lookup_insert_ne. }
  assert (Hsw : forall fs, swept_all H (temp_paths tempDir sessionId) fs !! q
                           = fs !! q).
  { intros fs. rewrite swept_all_lookup.
    rewrite bool_decide_eq_false_2; [done|]. by intros [? _]. }
  assert (Hsv : forall fs, survived run fs !! q = fs !! q).
  { intros fs. unfold survived.
    destruct (settled_by run); try reflexivity. apply Hrun. }
  destruct (inputs_written_dec H tempDir sessionId data)
    as [Hin|[msg [[Hdt Hw]|[Hwd Hws]]]].
  - rewrite analysis_result_after_writes by done. cbn [fst files].
    rewrite Hsv, Hsw. unfold files_at_settlement.
    rewrite (proj1 (Hrun _)).
    rewrite lookup_insert_ne by done. exact Hdw.
  - destruct data as [d|]; [|discriminate]. cbn [data_truthy] in Hdt.
    rewrite (data_write_failure H tempDir sessionId code d ty run w msg)
      by done.
    cbn [fst files]. by rewrite Hsw.
  - rewrite (script_write_failure H tempDir sessionId code data ty run w msg)
      by done.
    cbn [fst files]. by rewrite Hsw.
Qed.

Lemma other_sessions_untouched_witness :
  RunnerSamples.sessionId <> MoreRunnerSamples.otherSession
  /\ files (fst (executeStormwaterAnalysis RunnerSamples.soundHost
                   RunnerSamples.tempDir RunnerSamples.sessionId
                   RunnerSamples.userCode None data_analysis
                   RunnerSamples.sleeper MoreRunnerSamples.busyWorld))
       !! scriptPath RunnerSamples.tempDir MoreRunnerSamples.otherSession
     = Some (lit "print(1)").
Proof.
  assert (Hne : RunnerSamples.sessionId <> MoreRunnerSamples.otherSession)
    by discriminate.
  split; [exact Hne|].
  rewrite (other_sessions_untouched RunnerSamples.soundHost
             RunnerSamples.tempDir RunnerSamples.sessionId
             MoreRunnerSamples.otherSession RunnerSamples.userCode
             (scriptPath RunnerSamples.tempDir MoreRunnerSamples.otherSession)
             None data_analysis RunnerSamples.sleeper
             MoreRunnerSamples.busyWorld Hne).
  - vm_compute. reflexivity.
  - unfold temp_paths. apply list_elem_of_here.
  - intros fs. split; reflexivity.
Defined.

End InterpreterMore.

(* ================================================================== *)
(** * More facts about the plugin manager and the registry             *)
(* ================================================================== *)

Module PluginsMore.
Import JS Plugins PluginsSpec Registry.

Local Open Scope Z_scope.

Lemma total_nonneg (g : AIPlugin -> Z) (m : gmap (list N) AIPlugin) :
  (forall j p, m !! j = Some p -> 0 <= g p) -> 0 <= total g m.
Proof.
  induction m as [|i x m Hi _ IH] using map_first_key_ind; intros Hpos.
  - by rewrite total_empty.
  - rewrite total_insert_fresh by done.
    assert (0 <= g x) by (apply (Hpos i), lookup_insert_eq).
    assert (0 <= total g m).
    { apply IH. intros j p Hj. apply (Hpos j).
      rewrite lookup_insert_ne; [done|]. intros ->. congruence. }
    lia.
Qed.

(** X9.  Registering a plugin under an id that is not in use, when it
    fits and its [initialize()] returns, makes it the active plugin of
    that id; unregistering that id again, when [shutdown()] returns,
    gives back the registry and the totals of before. *)
Theorem register_then_unregister (m : Manager) (plugin : AIPlugin) :
  plugins m !! id plugin = None ->
  canLoadPlugin m plugin = true ->
  initialize plugin = Returned tt ->
  shutdown plugin = Returned tt ->
  exists m1 m2,
    registerPlugin m plugin = (true, m1)
    /\ plugins m1 !! id plugin = Some (set_active true plugin)
    /\ getTotalMemoryUsage m1
       = getTotalMemoryUsage m + memory (getResourceUsage plugin)
    /\ unregisterPlugin m1 (id plugin) = (true, m2)
    /\ plugins m2 = plugins m
    /\ getTotalMemoryUsage m2 = getTotalMemoryUsage m
    /\ getTotalCpuUsage m2 = getTotalCpuUsage m.
Proof.
  intros Hfresh Hload Hinit Hshut.
  unfold registerPlugin. rewrite Hload, Hinit. cbn [negb].
  eexists _, _. split; [reflexivity|]. cbn [plugins].
  split; [apply lookup_insert_eq|].
  split; [by rewrite !memory_total; cbn [plugins]; rewrite total_insert_fresh|].
  unfold unregisterPlugin. cbn [plugins]. rewrite lookup_insert_eq.
  cbn [set_active shutdown]. rewrite Hshut.
  split; [reflexivity|]. cbn [plugins].
  assert (E : delete (id plugin) (<[id plugin := set_active true plugin]> (plugins m))
              = plugins m).
  { rewrite delete_insert_eq. by apply delete_id. }
  split; [exact E|].
  by rewrite memory_total, cpu_total; cbn [plugins]; rewrite E.
Qed.

Lemma register_then_unregister_witness :
  exists m1 m2,
    registerPlugin newManager PluginSamples.chatService = (true, m1)
    /\ unregisterPlugin m1 (lit "chat-service") = (true, m2)
    /\ plugins m2 = plugins newManager.
Proof.
  destruct (register_then_unregister newManager PluginSamples.chatService)
    as (m1 & m2 & Hreg & _ & _ & Hun & Hback & _).
  - reflexivity.
  - vm_compute. reflexivity.
  - reflexivity.
  - reflexivity.
  - exists m1, m2. split; [exact Hreg|]. split; [exact Hun|exact Hback].
Defined.

(** X10.  The check of [registerPlugin] counts the plugin that is
    registered under the same id: it adds the declared figures of the
    new plugin to what all registered plugins report, the registered
    copy included, and refuses when that exceeds a cap, although an
    admitted registration replaces the copy, so that afterwards only
    the other plugins and the new one count.  In particular, when every
    registered plugin reports the figures it declares and none of these
    is negative, a plugin is refused whose declared figure, together
    with that of the copy registered under its id, exceeds a cap (as
    for a plugin of more than half of a cap that is registered
    twice). *)
Theorem reregistration_counts_twice (m : Manager) (plugin registered : AIPlugin) :
  plugins m !! id plugin = Some registered ->
  (maxMemoryUsage
   < total (fun p => memory (getResourceUsage p))
           (delete (id plugin) (plugins m))
     + memory (getResourceUsage registered) + memoryUsage plugin
   \/ maxCpuUsage
      < total (fun p => cpu (getResourceUsage p))
              (delete (id plugin) (plugins m))
        + cpu (getResourceUsage registered) + cpuUsage plugin ->
   registerPlugin m plugin = (false, m))
  /\ (forall m',
        registerPlugin m plugin = (true, m') ->
        getTotalMemoryUsage m'
        = total (fun p => memory (getResourceUsage p))
                (delete (id plugin) (plugins m))
          + memory (getResourceUsage plugin)
        /\ getTotalCpuUsage m'
           = total (fun p => cpu (getResourceUsage p))
                   (delete (id plugin) (plugins m))
             + cpu (getResourceUsage plugin))
  /\ (all_well_behaved m ->
      maxMemoryUsage < memoryUsage registered + memoryUsage plugin
      \/ maxCpuUsage < cpuUsage registered + cpuUsage plugin ->
      registerPlugin m plugin = (false, m)).
Proof.
  intros Hreg.
  assert (Hcount :
    maxMemoryUsage
    < total (fun p => memory (getResourceUsage p))
            (delete (id plugin) (plugins m))
      + memory (getResourceUsage registered) + memoryUsage plugin
    \/ maxCpuUsage
       < total (fun p => cpu (getResourceUsage p))
               (delete (id plugin) (plugins m))
         + cpu (getResourceUsage registered) + cpuUsage plugin ->
    registerPlugin m plugin = (false, m)).
  { intros Hover. apply registerPlugin_refused, canLoadPlugin_false.
    rewrite memory_total, cpu_total.
    rewrite (total_delete _ (plugins m) _ _ Hreg).
    rewrite (total_delete (fun p => cpu (getResourceUsage p)) (plugins m) _ _ Hreg).
    exact Hover. }
  split; [exact Hcount|]. split.
  - intros m'. unfold registerPlugin.
    destruct (negb (canLoadPlugin m plugin)); [discriminate|].
    destruct (initialize plugin); [|discriminate].
    intros [= <-]. rewrite memory_total, cpu_total. cbn [plugins].
    by rewrite !total_insert.
  - intros Hall Hhalf.
    destruct (reported_nonneg m Hall) as [Hposm Hposc].
    destruct (Hall _ _ Hreg) as [[Em Ec] _].
    apply Hcount.
    assert (0 <= total (fun p => memory (getResourceUsage p))
                   (delete (id plugin) (plugins m))).
    { apply total_nonneg. intros j p [_ Hj]%lookup_delete_Some. by eapply Hposm. }
    assert (0 <= total (fun p => cpu (getResourceUsage p))
                   (delete (id plugin) (plugins m))).
    { apply total_nonneg. intros j p [_ Hj]%lookup_delete_Some. by eapply Hposc. }
    lia.
Qed.

Lemma reregistration_counts_twice_witness :
  plugins MorePluginSamples.withLargeModel !! id MorePluginSamples.largeModel
  = Some (set_active true MorePluginSamples.largeModel)
  /\ all_well_behaved MorePluginSamples.withLargeModel
  /\ registerPlugin MorePluginSamples.withLargeModel MorePluginSamples.largeModel
     = (false, MorePluginSamples.withLargeModel).
Proof.
  assert (E : plugins MorePluginSamples.withLargeModel
              = <[id MorePluginSamples.largeModel :=
                    set_active true MorePluginSamples.largeModel]> ∅)
    by (vm_compute; reflexivity).
  assert (Hreg : plugins MorePluginSamples.withLargeModel
                   !! id MorePluginSamples.largeModel
                 = Some (set_active true MorePluginSamples.largeModel))
    by (rewrite E; apply lookup_insert_eq).
  assert (Hall : all_well_behaved MorePluginSamples.withLargeModel).
  { intros i p. rewrite E. intros Hp.
    apply lookup_insert_Some in Hp as [[_ <-]|[_ Hp]].
    - vm_compute. repeat split; discriminate.
    - by rewrite lookup_empty in Hp. }
  split; [exact Hreg|]. split; [exact Hall|].
  apply (proj2 (proj2 (reregistration_counts_twice _ _ _ Hreg)) Hall).
  left. vm_compute. reflexivity.
Defined.

(** ** The registry *)

(** X11.  [initializeAllPlugins] on a fresh manager registers the first
    four of its nine plugins only (stormwater analysis, chat service,
    document generator, regulatory compliance: 1332 MB, 75 percent of
    CPU); each of the other five would take the CPU total above 80 and
    is refused. *)
Theorem startup_loads_four_plugins :
  isInitialized (initializeAllPlugins freshRegistry) = true
  /\ List.filter
       (fun p => bool_decide
                   (is_Some (plugins (pluginManager
                                        (initializeAllPlugins freshRegistry))
                             !! id p)))
       corePlugins
     = firstn 4 corePlugins
  /\ getSystemResources (pluginManager (initializeAllPlugins freshRegistry))
     = {| sys_memory := 1332; sys_cpu := 75; pluginCount := 4 |}
  /\ Forall
       (fun p =>
          maxCpuUsage
          < getTotalCpuUsage (pluginManager (initializeAllPlugins freshRegistry))
            + cpuUsage p
          /\ registerPlugin (pluginManager (initializeAllPlugins freshRegistry)) p
             = (false, pluginManager (initializeAllPlugins freshRegistry)))
       (skipn 4 corePlugins).
Proof.
  split; [reflexivity|]. split; [vm_compute; reflexivity|].
  split; [vm_compute; reflexivity|].
  cbn [skipn corePlugins].
  repeat (apply List.Forall_cons;
          [ match goal with
            | |- ?a < ?b /\ _ =>
              assert (Hlt : a < b) by (vm_compute; reflexivity);
              split; [exact Hlt|];
              apply registerPlugin_refused, canLoadPlugin_false; right; exact Hlt
            end
          | ]).
  apply List.Forall_nil.
Qed.

Lemma unregisterPlugin_lookup (m : Manager) (a i : list N) :
  plugins (snd (unregisterPlugin m a)) !! i
  = match plugins m !! i with
    | Some p =>
      if bool_decide (i = a)
      then match shutdown p with Returned _ => None | Thrown _ => Some p end
      else Some p
    | None => None
    end.
Proof.
  unfold unregisterPlugin. case_bool_decide as Hi.
  - subst i. destruct (plugins m !! a) as [p|] eqn:Hp; cbn [snd]; [|by rewrite Hp].
    destruct (shutdown p); cbn [snd plugins]; [|by rewrite Hp].
    by rewrite lookup_delete_eq.
  - destruct (plugins m !! a) as [p|] eqn:Hp; cbn [snd];
      [|by destruct (plugins m !! i)].
    destruct (shutdown p); cbn [snd plugins].
    + rewrite lookup_delete_ne by done. by destruct (plugins m !! i).
    + by destruct (plugins m !! i).
Qed.

Lemma unregister_all_lookup (ids : list (list N)) (m : Manager) (i : list N) :
  plugins (fold_left (fun m pluginId => snd (unregisterPlugin m pluginId)) ids m)
    !! i
  = match plugins m !! i with
    | Some p =>
      if bool_decide (i ∈ ids)
      then match shutdown p with Returned _ => None | Thrown _ => Some p end
      else Some p
    | None => None
    end.
Proof.
  revert m. induction ids as [|a ids IH]; intros m; cbn [fold_left].
  - destruct (plugins m !! i); [|done].
    rewrite bool_decide_eq_false_2; [done|]. apply not_elem_of_nil.
  - rewrite IH, unregisterPlugin_lookup.
    destruct (plugins m !! i) as [p|]; [|done].
    destruct (decide (i = a)) as [->|Hne].
    + rewrite (bool_decide_eq_true_2 (a = a)) by done.
      rewrite (bool_decide_eq_true_2 (a ∈ a :: ids)) by apply list_elem_of_here.
      destruct (shutdown p) eqn:Hs; [done|].
      rewrite Hs. by destruct (bool_decide _).
    + rewrite (bool_decide_eq_false_2 (i = a)) by done.
      destruct (decide (i ∈ ids)) as [Hin|Hout].
      * rewrite (bool_decide_eq_true_2 (i ∈ ids)) by done.
        by rewrite (bool_decide_eq_true_2 (i ∈ a :: ids))
          by (by apply list_elem_of_further).
      * rewrite (bool_decide_eq_false_2 (i ∈ ids)) by done.
        rewrite (bool_decide_eq_false_2 (i ∈ a :: ids)); [done|].
        intros [?|?]%elem_of_cons; contradiction.
Qed.

Lemma listPlugins_spec (m : Manager) (i : list N) :
  i ∈ listPlugins m <-> is_Some (plugins m !! i).
Proof.
  unfold listPlugins. rewrite list_elem_of_fmap. split.
  - intros [[j p] [-> Hp]]. apply elem_of_map_to_list in Hp. by eexists.
  - intros [p Hp]. exists (i, p). split; [done|]. by apply elem_of_map_to_list.
Qed.

(** X12.  [shutdownAllPlugins] on an initialized registry unregisters
    every listed plugin whose [shutdown()] returns; a plugin whose
    [shutdown()] throws stays registered, and the registry is marked as
    not initialized all the same, so that a second call does nothing. *)
Theorem shutdown_leaves_stuck_plugins (r : PluginRegistry) :
  isInitialized r = true ->
  isInitialized (shutdownAllPlugins r) = false
  /\ (forall i,
        is_Some (plugins (pluginManager (shutdownAllPlugins r)) !! i)
        <-> stuck (pluginManager r) i)
  /\ (forall i p,
        plugins (pluginManager (shutdownAllPlugins r)) !! i = Some p ->
        plugins (pluginManager r) !! i = Some p)
  /\ shutdownAllPlugins (shutdownAllPlugins r) = shutdownAllPlugins r.
Proof.
  intros Hinit.
  assert (E : shutdownAllPlugins r
              = {| isInitialized := false;
                   pluginManager :=
                     fold_left
                       (fun m pluginId => snd (unregisterPlugin m pluginId))
                       (listPlugins (pluginManager r)) (pluginManager r) |})
    by (unfold shutdownAllPlugins; by rewrite Hinit).
  rewrite E. cbn [isInitialized pluginManager].
  assert (Hl : forall i,
    plugins (fold_left (fun m pluginId => snd (unregisterPlugin m pluginId))
               (listPlugins (pluginManager r)) (pluginManager r)) !! i
    = match plugins (pluginManager r) !! i with
      | Some p => match shutdown p with Returned _ => None | Thrown _ => Some p end
      | None => None
      end).
  { intros i. rewrite unregister_all_lookup.
    destruct (plugins (pluginManager r) !! i) as [p|] eqn:Hp; [|done].
    rewrite bool_decide_eq_true_2; [done|]. apply listPlugins_spec. by eexists. }
  split; [reflexivity|]. split; [|split].
  - intros i. rewrite Hl. unfold stuck. split.
    + destruct (plugins (pluginManager r) !! i) as [p|]; [|by intros [? ?]].
      destruct (shutdown p) as [|e] eqn:Hs; [by intros [? ?]|].
      intros _. by exists p, e.
    + intros (p & e & -> & ->). by eexists.
  - intros i p. rewrite Hl.
    destruct (plugins (pluginManager r) !! i) as [q|]; [|done].
    by destruct (shutdown q).
  - reflexivity.
Qed.

Lemma shutdown_leaves_stuck_plugins_witness :
  isInitialized MorePluginSamples.runningRegistry = true
  /\ isInitialized (shutdownAllPlugins MorePluginSamples.runningRegistry) = false
  /\ is_Some (plugins (pluginManager
                         (shutdownAllPlugins MorePluginSamples.runningRegistry))
              !! lit "stubborn").
Proof.
  split; [reflexivity|].
  destruct (shutdown_leaves_stuck_plugins MorePluginSamples.runningRegistry
              eq_refl) as (Hi & Hstuck & _).
  split; [exact Hi|]. apply Hstuck.
  exists (set_active true MorePluginSamples.stubborn),
         {| status := None; message := lit "busy" |}.
  split; vm_compute; reflexivity.
Defined.

End PluginsMore.

(* ================================================================== *)
(** * Facts about the document processor                               *)
(* ================================================================== *)

Module ProcessorSpec.
Import JS JSFacts JSMore Processor.

Lemma trim_strip (a y b : list N) :
  Forall (fun c => isWhiteSpace c = true) a ->
  Forall (fun c => isWhiteSpace c = true) b ->
  trimmed y ->
  trim (a ++ y ++ b) = y.
Proof.
  intros Ha Hb [Hs He]. unfold trim. rewrite trimStart_skip by done.
  destruct y as [|c y].
  - cbn [app]. rewrite trimStart_all_space; [done|].
    intros c Hc. by eapply Forall_forall in Hb.
  - rewrite trimStart_app_fixed by done.
    unfold trimEnd in *. rewrite rev_app_distr.
    rewrite trimStart_skip by (by apply Forall_rev).
    exact He.
Qed.

Lemma trimEnd_snoc_fixed (s : list N) (d : N) :
  isWhiteSpace d = false -> trimEnd (s ++ [d]) = s ++ [d].
Proof.
  intros Hd. unfold trimEnd. rewrite rev_unit, trimStart_fixed by done.
  cbn [rev]. by rewrite rev_involutive.
Qed.

(** ** Pieces and words *)

Lemma split_spaces_pieces (Q : N -> Prop) (r : bool) (cur s : list N) :
  Forall Q cur ->
  Forall (fun c => isWhiteSpace c = false -> Q c) s ->
  Forall (Forall Q) (split_spaces r cur s).
Proof.
  revert r cur. induction s as [|c s IH]; intros r cur Hcur Hs;
    cbn [split_spaces].
  - constructor; [by apply Forall_rev|constructor].
  - apply Forall_cons in Hs as [Hc Hs].
    destruct (isWhiteSpace c) eqn:Ec.
    + destruct r; [by apply IH|].
      constructor; [by apply Forall_rev|by apply IH].
    + apply IH; [|done]. constructor; [by apply Hc|done].
Qed.

Lemma words_pieces (Q : N -> Prop) (s : list N) :
  Forall (fun c => isWhiteSpace c = false -> Q c) s ->
  Forall (fun w => w <> [] /\ Forall Q w) (words s).
Proof.
  intros Hs. unfold words. apply List.Forall_forall. intros w Hw.
  apply filter_In in Hw as [Hw Hlen].
  pose proof (split_spaces_pieces Q false [] s (List.Forall_nil _) Hs) as Hall.
  rewrite List.Forall_forall in Hall. split; [|by apply Hall].
  intros ->. discriminate.
Qed.

Lemma words_are_words (s : list N) : Forall is_word (words s).
Proof.
  apply words_pieces. apply List.Forall_forall. by intros c _ Hc.
Qed.

Lemma filter_piece (cur : list N) (l : list (list N)) :
  List.filter (fun word => (0 <? List.length word)%nat) (rev cur :: l)
  = match cur with
    | [] => List.filter (fun word => (0 <? List.length word)%nat) l
    | _ :: _ =>
      rev cur :: List.filter (fun word => (0 <? List.length word)%nat) l
    end.
Proof.
  cbn [List.filter]. destruct cur as [|c cur]; [reflexivity|].
  rewrite length_rev. reflexivity.
Qed.

(** What [replace(/\s+/g, ' ')] leaves is the words, joined by single
    spaces, between at most one space at either end. *)
Lemma collapse_spaces_words (s : list N) :
  (exists b,
     Forall (fun c => isWhiteSpace c = true) b
     /\ collapse_spaces true s
        = join [32] (List.filter (fun word => (0 <? List.length word)%nat)
                                 (split_spaces true [] s)) ++ b)
  /\ (forall cur,
        exists a b,
          Forall (fun c => isWhiteSpace c = true) a
          /\ Forall (fun c => isWhiteSpace c = true) b
          /\ (cur <> [] -> a = [])
          /\ rev cur ++ collapse_spaces false s
             = a ++ join [32]
                      (List.filter (fun word => (0 <? List.length word)%nat)
                                   (split_spaces false cur s)) ++ b).
Proof.
  induction s as [|c s [IH1 IH2]]; cbn [collapse_spaces split_spaces].
  - split.
    + exists []. split; [constructor|reflexivity].
    + intros cur. exists [], []. split; [constructor|]. split; [constructor|].
      split; [done|]. rewrite filter_piece. cbn [List.filter].
      destruct cur; [reflexivity|]. cbn [join app]. reflexivity.
  - destruct (isWhiteSpace c) eqn:Hc.
    + split; [exact IH1|]. intros cur.
      destruct IH1 as (b & Hb & E). rewrite E, filter_piece.
      destruct cur as [|d cur].
      * exists [32], b. split; [by repeat constructor|]. split; [done|].
        split; [done|]. reflexivity.
      * destruct (List.filter _ (split_spaces true [] s)) as [|w ws].
        -- exists [], (32 :: b). split; [constructor|].
           split; [by constructor|]. split; [done|].
           cbn [join app]. reflexivity.
        -- exists [], b. split; [constructor|]. split; [done|]. split; [done|].
           rewrite join_cons. cbn [app]. by rewrite <- !app_assoc.
    + split.
      * destruct (IH2 [c]) as (a & b & Ha & Hb & Hnil & E).
        rewrite (Hnil ltac:(discriminate)) in E. exists b. split; [done|].
        exact E.
      * intros cur. destruct (IH2 (c :: cur)) as (a & b & Ha & Hb & Hnil & E).
        exists a, b. split; [done|]. split; [done|].
        split; [intros _; by apply Hnil|].
        rewrite <- E. cbn [rev]. by rewrite <- app_assoc.
Qed.

Lemma join_words_ends (w : list N) (ws : list (list N)) :
  Forall is_word (w :: ws) ->
  (exists c t, join [32] (w :: ws) = c :: t /\ isWhiteSpace c = false)
  /\ (exists t d, join [32] (w :: ws) = t ++ [d] /\ isWhiteSpace d = false).
Proof.
  revert w. induction ws as [|w' ws IH]; intros w Hall.
  - apply Forall_cons in Hall as [[Hne Hw] _]. cbn [join]. split.
    + destruct w as [|c t]; [done|]. exists c, t. split; [done|].
      by apply Forall_cons in Hw as [? _].
    + destruct (exists_last Hne) as (t & d & ->). exists t, d. split; [done|].
      apply Forall_app in Hw as [_ Hd]. by apply Forall_cons in Hd as [? _].
  - pose proof Hall as Hall'.
    apply Forall_cons in Hall as [[Hne Hw] Hrest].
    destruct (IH w' Hrest) as [_ (t & d & E & Hd)].
    rewrite join_cons, E. split.
    + destruct w as [|c u]; [done|]. exists c. eexists. split; [reflexivity|].
      by apply Forall_cons in Hw as [? _].
    + exists (w ++ [32] ++ t), d. split; [by rewrite <- !app_assoc|done].
Qed.

Lemma join_words_trimmed (ws : list (list N)) :
  Forall is_word ws -> trimmed (join [32] ws).
Proof.
  intros Hall. destruct ws as [|w ws]; [done|].
  destruct (join_words_ends w ws Hall) as [(c & t & E & Hc) (u & d & E' & Hd)].
  split.
  - rewrite E. by apply trimStart_fixed.
  - rewrite E'. by apply trimEnd_snoc_fixed.
Qed.

(** Replacing the runs of white space by single spaces and trimming
    leaves the words joined by single spaces. *)
Lemma trim_collapse_spaces (s : list N) :
  trim (collapse_spaces false s) = join [32] (words s).
Proof.
  destruct (proj2 (collapse_spaces_words s) []) as (a & b & Ha & Hb & _ & E).
  cbn [rev app] in E. rewrite E. apply trim_strip; [done..|].
  apply join_words_trimmed, words_are_words.
Qed.

Lemma split_spaces_word (cur w rest : list N) :
  Forall (fun c => isWhiteSpace c = false) w ->
  split_spaces false cur (w ++ rest) = split_spaces false (rev w ++ cur) rest.
Proof.
  revert cur. induction w as [|c w IH]; intros cur Hw; [reflexivity|].
  apply Forall_cons in Hw as [Hc Hw]. cbn [app split_spaces]. rewrite Hc.
  rewrite IH by done. cbn [rev]. by rewrite <- app_assoc.
Qed.

Lemma split_spaces_resume (c : N) (s : list N) :
  isWhiteSpace c = false ->
  split_spaces true [] (c :: s) = split_spaces false [] (c :: s).
Proof. intros Hc. cbn [split_spaces]. by rewrite Hc. Qed.

(** Splitting words joined by single spaces gives the words back. *)
Lemma split_spaces_join (w : list N) (ws : list (list N)) :
  Forall is_word (w :: ws) ->
  split_spaces false [] (join [32] (w :: ws)) = w :: ws.
Proof.
  revert w. induction ws as [|w' ws IH]; intros w Hall.
  - apply Forall_cons in Hall as [[_ Hw] _]. cbn [join].
    rewrite <- (app_nil_r w) at 1. rewrite split_spaces_word by done.
    cbn [split_spaces]. by rewrite app_nil_r, rev_involutive.
  - apply Forall_cons in Hall as [[_ Hw] Hrest].
    rewrite join_cons, split_spaces_word by done.
    cbn [app split_spaces]. change (isWhiteSpace 32) with true. cbn iota.
    rewrite app_nil_r, rev_involutive. f_equal.
    destruct (join_words_ends w' ws Hrest) as [(c & t & E & Hc) _].
    rewrite E, split_spaces_resume by done. rewrite <- E. by apply IH.
Qed.

Lemma words_join (ws : list (list N)) :
  Forall is_word ws -> words (join [32] ws) = ws.
Proof.
  intros Hall. unfold words. destruct ws as [|w ws]; [reflexivity|].
  rewrite split_spaces_join by done.
  induction Hall as [|v vs [Hne _] _ IH]; [reflexivity|].
  cbn [List.filter]. rewrite IH. by destruct v.
Qed.

(** ** [cleanExtractedText] *)

Lemma blank_others_kept (text : list N) :
  Forall (fun c => kept c = true) (blank_others text).
Proof.
  unfold blank_others. apply List.Forall_forall. intros c Hc.
  apply in_map_iff in Hc as (d & <- & _).
  destruct (kept d) eqn:Hd; [exact Hd|reflexivity].
Qed.

Lemma blank_others_id (s : list N) :
  Forall (fun c => kept c = true) s -> blank_others s = s.
Proof.
  induction 1 as [|c s Hc _ IH]; [reflexivity|].
  cbn [blank_others List.map]. rewrite Hc. f_equal. exact IH.
Qed.

Lemma kept_not_space (c : N) :
  kept c = true -> isWhiteSpace c = false ->
  isWordChar c || isKeptPunctuation c = true.
Proof.
  unfold kept. intros Hk Hw. rewrite Hw, orb_false_r in Hk. exact Hk.
Qed.

Lemma collapse_spaces_incl (r : bool) (s : list N) (c : N) :
  c ∈ collapse_spaces r s -> c = 32 \/ (c ∈ s /\ isWhiteSpace c = false).
Proof.
  revert r. induction s as [|d s IH]; intros r; cbn [collapse_spaces].
  - by intros ?%elem_of_nil.
  - destruct (isWhiteSpace d) eqn:Hd.
    + destruct r.
      * intros [?|[? ?]]%IH; [by left|right]. split; [by right|done].
      * intros [->|[?|[? ?]]%IH]%elem_of_cons; [by left|by left|right].
        split; [by right|done].
    + intros [->|[?|[? ?]]%IH]%elem_of_cons; [right|by left|right].
      * split; [by left|done].
      * split; [by right|done].
Qed.

Lemma collapse_spaces_length (r : bool) (s : list N) :
  (List.length (collapse_spaces r s) <= List.length s)%nat.
Proof.
  revert r. induction s as [|d s IH]; intros r; cbn [collapse_spaces List.length];
    [lia|].
  pose proof (IH true). pose proof (IH false).
  destruct (isWhiteSpace d); [destruct r|]; cbn [List.length]; lia.
Qed.

Lemma trimStart_length (s : list N) :
  (List.length (trimStart s) <= List.length s)%nat.
Proof.
  destruct (trimStart_suffix s) as [ws E].
  rewrite E at 2. rewrite length_app. lia.
Qed.

Lemma trim_length (s : list N) : (List.length (trim s) <= List.length s)%nat.
Proof.
  unfold trim, trimEnd. rewrite length_rev.
  etransitivity; [apply trimStart_length|]. rewrite length_rev.
  apply trimStart_length.
Qed.

(** X13.  The cleaned text is the words of the text joined by single
    spaces, a word being a longest run of characters of the class
    [A-Za-z0-9_.,!?()[]{}-] (every other character, the colon and the
    quotes among them, counts as a space); no word is empty, so the
    result has no white space at either end and no two spaces in a
    row, and the word count of the cleaned text is the number of these
    words. *)
Theorem cleaned_text_is_words_joined (text : list N) :
  cleanExtractedText text = join [32] (words (blank_others text))
  /\ Forall (fun w => w <> []
                      /\ Forall (fun c => isWordChar c || isKeptPunctuation c
                                          = true) w)
            (words (blank_others text))
  /\ words (cleanExtractedText text) = words (blank_others text).
Proof.
  unfold cleanExtractedText. rewrite trim_collapse_spaces.
  split; [reflexivity|]. split.
  - apply words_pieces.
    eapply Forall_impl; [apply blank_others_kept|].
    intros c Hk Hw. by apply kept_not_space.
  - apply words_join, words_are_words.
Qed.

Lemma cleaned_chars (text : list N) :
  Forall (fun c => kept c = true) (cleanExtractedText text).
Proof.
  apply List.Forall_forall. intros c Hc. apply list_elem_of_In in Hc.
  unfold cleanExtractedText in Hc. apply trim_incl in Hc.
  apply collapse_spaces_incl in Hc as [->|[Hc _]]; [reflexivity|].
  pose proof (blank_others_kept text) as Hall.
  rewrite List.Forall_forall in Hall. by apply Hall, list_elem_of_In.
Qed.

Lemma cleanExtractedText_idem_aux (text : list N) :
  cleanExtractedText (cleanExtractedText text) = cleanExtractedText text
  /\ (List.length (cleanExtractedText text) <= List.length text)%nat.
Proof.
  split.
  - unfold cleanExtractedText at 1.
    rewrite blank_others_id by apply cleaned_chars.
    rewrite trim_collapse_spaces.
    unfold cleanExtractedText. rewrite trim_collapse_spaces.
    by rewrite words_join by apply words_are_words.
  - unfold cleanExtractedText. etransitivity; [apply trim_length|].
    etransitivity; [apply collapse_spaces_length|].
    unfold blank_others. by rewrite length_map.
Qed.

(** X14.  Cleaning is idempotent and never lengthens the text: a text
    that has been cleaned is left as it is by a second cleaning, and
    every character of a cleaned text is one of the kept class or a
    single space. *)
Theorem cleanExtractedText_idempotent (text : list N) :
  cleanExtractedText (cleanExtractedText text) = cleanExtractedText text
  /\ (List.length (cleanExtractedText text) <= List.length text)%nat
  /\ Forall (fun c => c = 32
                      \/ isWordChar c || isKeptPunctuation c = true)
            (cleanExtractedText text).
Proof.
  destruct (cleanExtractedText_idem_aux text) as [Hi Hl].
  split; [exact Hi|]. split; [exact Hl|].
  apply List.Forall_forall. intros c Hc. apply list_elem_of_In in Hc.
  unfold cleanExtractedText in Hc. apply trim_incl in Hc.
  apply collapse_spaces_incl in Hc as [->|[Hc Hw]]; [by left|right].
  apply kept_not_space; [|done].
  pose proof (blank_others_kept text) as Hall.
  rewrite List.Forall_forall in Hall. by apply Hall, list_elem_of_In.
Qed.

(** ** [wordCount] *)

Lemma filter_split_spaces_resume (s : list N) :
  List.filter (fun word => (0 <? List.length word)%nat) (split_spaces true [] s)
  = words s.
Proof.
  unfold words. destruct s as [|c s]; [reflexivity|]. cbn [split_spaces].
  destruct (isWhiteSpace c); reflexivity.
Qed.

Lemma words_app_space (r : bool) (cur a b : list N) (c : N) :
  isWhiteSpace c = true ->
  (r = true -> cur = []) ->
  List.filter (fun word => (0 <? List.length word)%nat)
              (split_spaces r cur (a ++ c :: b))
  = List.filter (fun word => (0 <? List.length word)%nat) (split_spaces r cur a)
    ++ words b.
Proof.
  intros Hc. revert r cur. induction a as [|d a IH]; intros r cur Hr.
  - cbn [app split_spaces]. rewrite Hc. destruct r.
    + rewrite (Hr eq_refl). cbn [rev List.filter List.length Nat.ltb Nat.leb app].
      apply filter_split_spaces_resume.
    + rewrite !filter_piece, filter_split_spaces_resume.
      cbn [List.filter]. by destruct cur.
  - cbn [app split_spaces]. destruct (isWhiteSpace d).
    + destruct r; [by apply IH|].
      rewrite !filter_piece. rewrite IH by done. by destruct cur.
    + apply IH. discriminate.
Qed.

Lemma words_nil (r : bool) (cur s : list N) :
  (r = true -> cur = []) ->
  List.filter (fun word => (0 <? List.length word)%nat) (split_spaces r cur s)
  = []
  <-> cur = [] /\ Forall (fun d => isWhiteSpace d = true) s.
Proof.
  revert r cur. induction s as [|c s IH]; intros r cur Hr; cbn [split_spaces].
  - rewrite filter_piece. cbn [List.filter]. destruct cur; split; try done.
    + by intros [? _].
  - destruct (isWhiteSpace c) eqn:Hc.
    + destruct r.
      * rewrite (Hr eq_refl), IH by done. rewrite Forall_cons. tauto.
      * rewrite filter_piece. destruct cur.
        -- rewrite IH by done. rewrite Forall_cons. tauto.
        -- split; [discriminate|]. by intros [? _].
    + rewrite IH by discriminate. split; [by intros [? _]|].
      intros [_ [? _]%Forall_cons]. congruence.
Qed.

(** X15.  The word count is additive across white space and blind to
    it: the words of two texts set apart by a white-space character are
    the words of the first followed by the words of the second, and a
    text has no word exactly when it is white space throughout (the
    empty text included). *)
Theorem wordCount_additive (a b : list N) (c : N) :
  isWhiteSpace c = true ->
  words (a ++ c :: b) = words a ++ words b
  /\ wordCount (a ++ c :: b) = (wordCount a + wordCount b)%nat
  /\ (wordCount a = 0%nat <-> Forall (fun d => isWhiteSpace d = true) a).
Proof.
  intros Hc.
  assert (E : words (a ++ c :: b) = words a ++ words b)
    by (by apply (words_app_space false [] a b c)).
  split; [exact E|]. split.
  - unfold wordCount. by rewrite E, length_app.
  - unfold wordCount. rewrite length_zero_iff_nil. unfold words.
    rewrite words_nil by done. tauto.
Qed.

Lemma wordCount_additive_witness :
  isWhiteSpace 10 = true
  /\ wordCount (lit "silt fence" ++ 10 :: lit "  inlet   protection ")
     = 4%nat.
Proof.
  split; [reflexivity|].
  rewrite (proj1 (proj2 (wordCount_additive (lit "silt fence")
                           (lit "  inlet   protection ") 10 eq_refl))).
  vm_compute. reflexivity.
Defined.

(** ** [processDocument] *)

Lemma kind_of_among_None (table : list (list N * FileKind)) (ext : list N) :
  kind_of_among table ext = None <-> ext ∉ table.*1.
Proof.
  induction table as [|[e k] table IH]; cbn [kind_of_among fmap list_fmap].
  - split; [intros _; apply not_elem_of_nil|done].
  - rewrite not_elem_of_cons. destruct (decide (ext = e)) as [->|Hne].
    + split; [discriminate|]. by intros [? _].
    + rewrite IH. tauto.
Qed.

(** X16.  [processDocument] removes the uploaded file whatever happens
    to the document: processed, failed or of an unsupported type, the
    file is gone afterwards unless [unlink] itself fails, and no other
    file is touched.  The types accepted are exactly the formats the
    error message names, and every other extension is refused with that
    message. *)
Theorem upload_always_removed (E : Env) (filePath fileExtension : list N)
    (fs : gmap (list N) (list N)) :
  unlink_fails E filePath = false ->
  fst (processDocument E filePath fileExtension fs) !! filePath = None
  /\ (forall q, q <> filePath ->
        fst (processDocument E filePath fileExtension fs) !! q = fs !! q)
  /\ (kind_of fileExtension = None <-> fileExtension ∉ supportedFormats)
  /\ (fileExtension ∉ supportedFormats ->
      snd (processDocument E filePath fileExtension fs)
      = Thrown (unsupported fileExtension)).
Proof.
  intros Hu. unfold processDocument, unlink_quietly. cbn [fst snd]. rewrite Hu.
  assert (Hk : kind_of fileExtension = None <-> fileExtension ∉ supportedFormats).
  { unfold kind_of. rewrite kind_of_among_None.
    assert (cases.*1 = supportedFormats) as -> by (vm_compute; reflexivity).
    reflexivity. }
  split; [apply lookup_delete_eq|]. split.
  - intros q Hq. by apply lookup_delete_ne.
  - split; [exact Hk|]. intros Hno. apply Hk in Hno. by rewrite Hno.
Qed.

Lemma upload_always_removed_witness :
  unlink_fails ProcessorSamples.plainEnv ProcessorSamples.upload = false
  /\ fst (processDocument ProcessorSamples.plainEnv ProcessorSamples.upload
            (lit ".exe") ProcessorSamples.disk)
     !! ProcessorSamples.upload = None
  /\ snd (processDocument ProcessorSamples.plainEnv ProcessorSamples.upload
            (lit ".exe") ProcessorSamples.disk)
     = Thrown (unsupported (lit ".exe")).
Proof.
  split; [reflexivity|].
  destruct (upload_always_removed ProcessorSamples.plainEnv
              ProcessorSamples.upload (lit ".exe") ProcessorSamples.disk eq_refl)
    as (Hgone & _ & _ & Hthrown).
  split; [exact Hgone|]. apply Hthrown.
  apply (bool_decide_unpack _). vm_compute. exact I.
Defined.

(** X17.  A document that [processDocument] returns carries the word
    count of its content and the extension as its type; unless it is a
    [.txt] file or an image, its content is cleaned text: cleaning it
    again changes nothing, and the word count is the number of words
    joined by the single spaces. *)
Theorem processed_content_is_clean (E : Env) (filePath fileExtension : list N)
    (fs : gmap (list N) (list N)) (d : ProcessedDocument) (k : FileKind) :
  snd (processDocument E filePath fileExtension fs) = Returned d ->
  kind_of fileExtension = Some k ->
  wordCount_of d = wordCount (doc_content d)
  /\ fileType d = fileExtension
  /\ (k <> Txt -> k <> Image ->
      cleanExtractedText (doc_content d) = doc_content d
      /\ doc_content d = join [32] (words (doc_content d))).
Proof.
  unfold processDocument. cbn [snd]. intros Hd Hk. rewrite Hk in Hd.
  destruct (processFile E k filePath (fs !! filePath)) as [content|e] eqn:Hp;
    [|discriminate].
  injection Hd as <-. cbn [doc_content wordCount_of fileType].
  split; [reflexivity|]. split; [reflexivity|]. intros Ht Hi.
  assert (Hc : exists text, content = cleanExtractedText text).
  { unfold processFile in Hp.
    destruct k; try done;
      (destruct (extract E _ filePath (fs !! filePath)) as [text|];
       [|discriminate]; injection Hp as <-; by exists text). }
  destruct Hc as [text ->].
  pose proof (proj1 (cleanExtractedText_idem_aux text)) as Hidem.
  split; [exact Hidem|].
  rewrite <- Hidem at 1. unfold cleanExtractedText at 1.
  rewrite blank_others_id by apply cleaned_chars.
  apply trim_collapse_spaces.
Qed.

Lemma processed_content_is_clean_witness :
  exists d,
    snd (processDocument ProcessorSamples.plainEnv ProcessorSamples.upload
           (lit ".log") ProcessorSamples.disk) = Returned d
    /\ doc_content d = lit "BMP silt fence inlet protection"
    /\ wordCount_of d = 5%nat.
Proof.
  eexists. split; [vm_compute; reflexivity|].
  split; [reflexivity|].
  apply (proj1 (processed_content_is_clean ProcessorSamples.plainEnv
                  ProcessorSamples.upload (lit ".log") ProcessorSamples.disk
                  _ Log eq_refl eq_refl)).
Defined.

End ProcessorSpec.

(* ================================================================== *)
(** * Facts about the in-memory storage and the generator              *)
(* ================================================================== *)

Module StorageSpec.
Import JS Storage Generator.

(** ** Maps as lists *)

Section Maps.
Context {A : Type} (key : A -> N).

Lemma map_get_set_eq (v : A) (m : list A) :
  map_get key (key v) (map_set key v m) = Some v.
Proof.
  unfold map_get. induction m as [|x m IH]; cbn [map_set List.find].
  - by rewrite N.eqb_refl.
  - destruct (key x =? key v) eqn:E; cbn [List.find].
    + by rewrite N.eqb_refl.
    + by rewrite E.
Qed.

Lemma map_get_set_ne (k : N) (v : A) (m : list A) :
  k <> key v -> map_get key k (map_set key v m) = map_get key k m.
Proof.
  intros Hne. unfold map_get.
  induction m as [|x m IH]; cbn [map_set List.find].
  - by rewrite (proj2 (N.eqb_neq _ _)) by done.
  - destruct (key x =? key v) eqn:E; cbn [List.find].
    + apply N.eqb_eq in E. rewrite E.
      by rewrite (proj2 (N.eqb_neq _ _)) by done.
    + by rewrite IH.
Qed.

Lemma map_set_fresh (v : A) (m : list A) :
  Forall (fun x => key x <> key v) m -> map_set key v m = m ++ [v].
Proof.
  induction 1 as [|x m Hx _ IH]; cbn [map_set app]; [reflexivity|].
  by rewrite (proj2 (N.eqb_neq _ _)) by done; rewrite IH.
Qed.

Lemma map_get_None (k : N) (m : list A) :
  Forall (fun x => key x <> k) m -> map_get key k m = None.
Proof.
  unfold map_get. induction 1 as [|x m Hx _ IH]; cbn [List.find]; [reflexivity|].
  by rewrite (proj2 (N.eqb_neq _ _)) by done.
Qed.

End Maps.

Lemma keys_below (st : MemStorage) :
  keys_fresh st ->
  Forall (fun x => stored_id x <> currentRecommendationId st) (recommendationsMap st).
Proof.
  intros [_ Hlt]. eapply Forall_impl; [exact Hlt|]. intros x Hx. cbv beta in Hx. lia.
Qed.

Lemma createRecommendation_fresh (st : MemStorage) (rec : InsertRecommendation)
    (now : N) :
  keys_fresh st ->
  recommendationsMap (fst (createRecommendation st rec now))
  = recommendationsMap st ++ [snd (createRecommendation st rec now)]
  /\ currentRecommendationId (fst (createRecommendation st rec now))
     = currentRecommendationId st + 1
  /\ keys_fresh (fst (createRecommendation st rec now)).
Proof.
  intros Hk. pose proof (keys_below st Hk) as Hne. destruct Hk as [Hnd Hlt].
  cbn [createRecommendation fst snd recommendationsMap currentRecommendationId].
  rewrite map_set_fresh by exact Hne.
  split; [reflexivity|]. split; [reflexivity|].
  unfold keys_fresh. cbn [recommendationsMap currentRecommendationId]. split.
  - rewrite map_app. cbn [List.map stored_id]. apply NoDup_app. split; [done|].
    split; [|apply NoDup_singleton].
    intros k Hk Hk'. apply elem_of_cons in Hk' as [->|Hk'];
      [|by apply elem_of_nil in Hk'].
    apply list_elem_of_fmap in Hk as (x & Hx & Hin).
    rewrite Forall_forall in Hne. by apply (Hne x Hin).
  - apply Forall_app. split.
    + eapply Forall_impl; [exact Hlt|]. intros x Hx. cbv beta in Hx. lia.
    + repeat constructor. cbn [stored_id]. lia.
Qed.

(** X18.  A recommendation that [createRecommendation] returns is found
    again under its id, which is the value of the counter at the call;
    every other id finds what it found before; and as long as the stored
    ids are distinct and below the counter, as they are from the empty
    storage on, the new id was not in use and the same holds after the
    call. *)
Theorem created_recommendation_is_found (st : MemStorage)
    (rec : InsertRecommendation) (now : N) :
  stored_id (snd (createRecommendation st rec now)) = currentRecommendationId st
  /\ getRecommendation (fst (createRecommendation st rec now))
       (currentRecommendationId st)
     = Some (snd (createRecommendation st rec now))
  /\ (forall k, k <> currentRecommendationId st ->
        getRecommendation (fst (createRecommendation st rec now)) k
        = getRecommendation st k)
  /\ (keys_fresh st ->
      getRecommendation st (currentRecommendationId st) = None
      /\ keys_fresh (fst (createRecommendation st rec now))).
Proof.
  split; [reflexivity|]. split; [|split].
  - exact (map_get_set_eq stored_id (snd (createRecommendation st rec now))
             (recommendationsMap st)).
  - intros k Hk.
    exact (map_get_set_ne stored_id k (snd (createRecommendation st rec now))
             (recommendationsMap st) Hk).
  - intros Hfresh. split.
    + apply map_get_None, keys_below, Hfresh.
    + by apply createRecommendation_fresh.
Qed.

Lemma created_recommendation_is_found_witness :
  keys_fresh newMemStorage
  /\ getRecommendation newMemStorage 1 = None
  /\ keys_fresh (fst (createRecommendation newMemStorage
                        (List.hd (template "" "" "" "" false) templates)
                        StorageSamples.noon)).
Proof.
  assert (Hk : keys_fresh newMemStorage) by (split; constructor).
  split; [exact Hk|].
  exact (proj2 (proj2 (proj2 (created_recommendation_is_found newMemStorage
                                (List.hd (template "" "" "" "" false) templates)
                                StorageSamples.noon))) Hk).
Defined.

(** ** Bookmarks *)

Lemma toggle_toggle (r : StoredRecommendation) : toggle (toggle r) = r.
Proof. destruct r. unfold toggle. cbn. by rewrite negb_involutive. Qed.

Lemma toggle_at_twice (k : N) (m : list StoredRecommendation) :
  toggle_at k (toggle_at k m) = m.
Proof.
  induction m as [|x m IH]; cbn [toggle_at]; [reflexivity|].
  destruct (stored_id x =? k) eqn:E; cbn [toggle_at].
  - change (stored_id (toggle x)) with (stored_id x). by rewrite E, toggle_toggle.
  - by rewrite E, IH.
Qed.

Lemma toggle_at_get (k j : N) (m : list StoredRecommendation) :
  map_get stored_id j (toggle_at k m)
  = if j =? k then option_map toggle (map_get stored_id k m) else map_get stored_id j m.
Proof.
  unfold map_get. induction m as [|x m IH]; cbn [toggle_at List.find].
  - by destruct (j =? k).
  - destruct (stored_id x =? k) eqn:E; cbn [List.find].
    + change (stored_id (toggle x)) with (stored_id x). apply N.eqb_eq in E. subst k.
      destruct (stored_id x =? j) eqn:Ej.
      * apply N.eqb_eq in Ej. subst j. by rewrite N.eqb_refl.
      * rewrite N.eqb_sym, Ej. reflexivity.
    + destruct (stored_id x =? j) eqn:Ej.
      * apply N.eqb_eq in Ej. subst j. by rewrite E.
      * exact IH.
Qed.

(** X19.  [toggleBookmark] flips the bookmark of the recommendation
    with the given id and of no other; toggling twice gives the storage
    back, and an id that is not stored changes nothing. *)
Theorem toggleBookmark_flips_one (st : MemStorage) (k : N) :
  toggleBookmark (toggleBookmark st k) k = st
  /\ getRecommendation (toggleBookmark st k) k
     = option_map toggle (getRecommendation st k)
  /\ (forall j, j <> k ->
        getRecommendation (toggleBookmark st k) j = getRecommendation st j)
  /\ (getRecommendation st k = None -> toggleBookmark st k = st).
Proof.
  split; [|split; [|split]].
  - destruct st. unfold toggleBookmark. cbn. by rewrite toggle_at_twice.
  - unfold getRecommendation, toggleBookmark. cbn [recommendationsMap].
    by rewrite toggle_at_get, N.eqb_refl.
  - intros j Hj. unfold getRecommendation, toggleBookmark. cbn [recommendationsMap].
    rewrite toggle_at_get. by rewrite (proj2 (N.eqb_neq _ _)) by done.
  - unfold getRecommendation, map_get. intros Hnone.
    destruct st as [ds rs ans cd cr ca]. unfold toggleBookmark. cbn in *.
    f_equal. induction rs as [|x rs IH]; cbn [toggle_at List.find] in *;
      [reflexivity|].
    destruct (stored_id x =? k); [discriminate|]. by rewrite IH.
Qed.

Lemma toggleBookmark_flips_one_witness :
  getRecommendation StorageSamples.twoStored 7 = None
  /\ toggleBookmark StorageSamples.twoStored 7 = StorageSamples.twoStored.
Proof.
  assert (Hn : getRecommendation StorageSamples.twoStored 7 = None)
    by (vm_compute; reflexivity).
  split; [exact Hn|].
  exact (proj2 (proj2 (proj2 (toggleBookmark_flips_one
                                StorageSamples.twoStored 7))) Hn).
Defined.

(** ** The generator *)

Lemma store_all_fresh (recs : list InsertRecommendation) (st : MemStorage)
    (clock : nat -> N) :
  keys_fresh st ->
  recommendationsMap (store_all st recs clock)
  = recommendationsMap st
    ++ imap (fun k rec =>
               snd (createRecommendation
                      {| documentsMap := documentsMap st;
                         recommendationsMap := [];
                         aiAnalysesMap := aiAnalysesMap st;
                         currentDocumentId := currentDocumentId st;
                         currentRecommendationId :=
                           currentRecommendationId st + N.of_nat k;
                         currentAnalysisId := currentAnalysisId st |}
                      rec (clock k)))
           recs
  /\ keys_fresh (store_all st recs clock)
  /\ documentsMap (store_all st recs clock) = documentsMap st
  /\ aiAnalysesMap (store_all st recs clock) = aiAnalysesMap st.
Proof.
  revert st clock. induction recs as [|rec recs IH]; intros st clock Hk;
    cbn [store_all imap].
  - by rewrite app_nil_r.
  - destruct (createRecommendation_fresh st rec (clock O) Hk) as (E & Ec & Hk').
    destruct (IH _ (fun k => clock (S k)) Hk') as (E' & Hk'' & Ed & Ea).
    split; [|split; [done|split; [by rewrite Ed|by rewrite Ea]]].
    rewrite E', E, <- app_assoc. f_equal. cbn [app]. f_equal.
    + cbn [createRecommendation snd]. by rewrite N.add_0_r.
    + apply imap_ext. intros k x _. unfold compose.
      cbn [createRecommendation snd fst currentRecommendationId].
      f_equal. lia.
Qed.

(** X20.  [generateFromAnalysis] stores one recommendation for each
    recommendation of the analysis, in their order and behind those
    already stored, under consecutive ids from the counter on; each
    carries the title, content, category and time of its call, is not
    bookmarked, and names the document as its source (no source for the
    document id 0, an empty subcategory or citation becoming null). *)
Theorem generateFromAnalysis_stores_each (st : MemStorage)
    (analysisResult : Analyzer.AnalysisResult) (documentId : N)
    (clock : nat -> N) :
  keys_fresh st ->
  recommendationsMap (generateFromAnalysis st analysisResult documentId clock)
  = recommendationsMap st
    ++ imap (fun k rec =>
               storedOf rec documentId
                 (currentRecommendationId st + N.of_nat k) (clock k))
            (Analyzer.recommendations analysisResult)
  /\ keys_fresh (generateFromAnalysis st analysisResult documentId clock).
Proof.
  intros Hk. unfold generateFromAnalysis.
  destruct (store_all_fresh
              (List.map (fun rec => insertOf rec documentId)
                        (Analyzer.recommendations analysisResult))
              st clock Hk) as (E & Hk' & _).
  split; [|exact Hk']. rewrite E. f_equal.
  generalize (Analyzer.recommendations analysisResult). intros recs.
  change (List.map (fun rec => insertOf rec documentId) recs)
    with ((fun rec => insertOf rec documentId) <$> recs).
  rewrite imap_fmap. apply imap_ext. intros k rec _. reflexivity.
Qed.

Lemma generateFromAnalysis_stores_each_witness :
  keys_fresh newMemStorage
  /\ List.map (fun r => (stored_id r, stored_title r, stored_subcategory r, sourceDocumentId r))
       (recommendationsMap
          (generateFromAnalysis newMemStorage
             (Analyzer.parseAnalysisResponse StorageSamples.replyTwoItems
                Samples.sitePlan)
             3 (fun k => StorageSamples.noon + N.of_nat k)))
     = [ (1, lit "Inspect weekly", Some (lit "QSD"), Some 3);
         (2, lit "Hydroseed slope", Some (lit "Erosion Control"), Some 3) ].
Proof.
  assert (Hk : keys_fresh newMemStorage) by (split; constructor).
  split; [exact Hk|].
  rewrite (proj1 (generateFromAnalysis_stores_each newMemStorage
                    (Analyzer.parseAnalysisResponse StorageSamples.replyTwoItems
                       Samples.sitePlan)
                    3 (fun k => StorageSamples.noon + N.of_nat k) Hk)).
  vm_compute. reflexivity.
Defined.

(** ** Statistics *)

Lemma count_category_other (c : list N) (recs : list StoredRecommendation) :
  c <> lit "stormwater" ->
  Forall (fun r => stored_category r = lit "stormwater") recs ->
  count_category c recs = 0%nat.
Proof.
  intros Hc. unfold count_category.
  induction 1 as [|r recs Hr _ IH]; cbn [List.filter]; [reflexivity|].
  rewrite bool_decide_eq_false_2; [exact IH|]. congruence.
Qed.

(** X21.  The counts [qsdCount], [swpppCount] and [erosionCount] of
    [getStats] stay 0 whatever is analyzed: every recommendation that
    [analyzeDocument] returns has the category [stormwater] (QSD, SWPPP
    and erosion control go to the subcategory), and [getStats] counts
    by category; only [recommendationCount] grows, by the number of
    recommendations of the analysis. *)
Theorem stats_count_no_subcategory (T : Analyzer.Templates)
    (S : Analyzer.Services) (document : Analyzer.Document)
    (analysis_query : option (list N)) (r : Analyzer.AnalysisResult)
    (st : MemStorage) (documentId : N) (clock : nat -> N) :
  keys_fresh st ->
  only_stormwater st ->
  Analyzer.analyzeDocument T S document analysis_query = Returned r ->
  only_stormwater (generateFromAnalysis st r documentId clock)
  /\ qsdCount (getStats (generateFromAnalysis st r documentId clock)) = 0%nat
  /\ swpppCount (getStats (generateFromAnalysis st r documentId clock)) = 0%nat
  /\ erosionCount (getStats (generateFromAnalysis st r documentId clock)) = 0%nat
  /\ recommendationCount (getStats (generateFromAnalysis st r documentId clock))
     = (recommendationCount (getStats st)
        + List.length (Analyzer.recommendations r))%nat.
Proof.
  intros Hk Hst Hr.
  assert (Hcat : Forall (fun rec => Analyzer.rec_category rec = lit "stormwater")
                        (Analyzer.recommendations r))
    by (by eapply AnalyzerMore.analyzeDocument_category).
  assert (E : recommendationsMap (generateFromAnalysis st r documentId clock)
              = recommendationsMap st
                ++ imap (fun k rec =>
                           storedOf rec documentId
                             (currentRecommendationId st + N.of_nat k) (clock k))
                        (Analyzer.recommendations r)).
  { unfold generateFromAnalysis.
    destruct (store_all_fresh
                (List.map (fun rec => insertOf rec documentId)
                          (Analyzer.recommendations r))
                st clock Hk) as (E & _).
    rewrite E. f_equal.
    change (List.map (fun rec => insertOf rec documentId)
                     (Analyzer.recommendations r))
      with ((fun rec => insertOf rec documentId) <$> Analyzer.recommendations r).
    rewrite imap_fmap. apply imap_ext. by intros k rec _. }
  assert (Hall : only_stormwater (generateFromAnalysis st r documentId clock)).
  { unfold only_stormwater. rewrite E. apply Forall_app. split; [exact Hst|].
    apply Forall_forall. intros x Hx.
    apply elem_of_lookup_imap in Hx as (k & rec & -> & Hrec).
    cbn [storedOf stored_category].
    rewrite Forall_forall in Hcat. apply Hcat.
    by eapply list_elem_of_lookup_2. }
  split; [exact Hall|].
  unfold getStats. cbn [qsdCount swpppCount erosionCount recommendationCount].
  assert (Hq : lit "qsd" <> lit "stormwater")
    by (intros Eq; vm_compute in Eq; discriminate Eq).
  assert (Hw : lit "swppp" <> lit "stormwater")
    by (intros Eq; vm_compute in Eq; discriminate Eq).
  assert (He : lit "erosion" <> lit "stormwater")
    by (intros Eq; vm_compute in Eq; discriminate Eq).
  rewrite (count_category_other _ _ Hq Hall), (count_category_other _ _ Hw Hall),
    (count_category_other _ _ He Hall).
  split; [reflexivity|]. split; [reflexivity|]. split; [reflexivity|].
  by rewrite E, length_app, length_imap.
Qed.

Lemma stats_count_no_subcategory_witness :
  keys_fresh newMemStorage
  /\ only_stormwater newMemStorage
  /\ Analyzer.analyzeDocument Samples.nameOnlyTemplates
       (MoreSamples.answering StorageSamples.replyTwoItems) Samples.sitePlan None
     = Returned (Analyzer.parseAnalysisResponse StorageSamples.replyTwoItems
                   Samples.sitePlan)
  /\ qsdCount
       (getStats
          (generateFromAnalysis newMemStorage
             (Analyzer.parseAnalysisResponse StorageSamples.replyTwoItems
                Samples.sitePlan)
             3 (fun k => StorageSamples.noon + N.of_nat k))) = 0%nat
  /\ recommendationCount
       (getStats
          (generateFromAnalysis newMemStorage
             (Analyzer.parseAnalysisResponse StorageSamples.replyTwoItems
                Samples.sitePlan)
             3 (fun k => StorageSamples.noon + N.of_nat k))) = 2%nat.
Proof.
  assert (Hk : keys_fresh newMemStorage) by (split; constructor).
  assert (Hs : only_stormwater newMemStorage) by constructor.
  assert (Hr : Analyzer.analyzeDocument Samples.nameOnlyTemplates
                 (MoreSamples.answering StorageSamples.replyTwoItems)
                 Samples.sitePlan None
               = Returned (Analyzer.parseAnalysisResponse
                             StorageSamples.replyTwoItems Samples.sitePlan))
    by reflexivity.
  split; [exact Hk|]. split; [exact Hs|]. split; [exact Hr|].
  destruct (stats_count_no_subcategory _ _ _ _ _ newMemStorage 3
              (fun k => StorageSamples.noon + N.of_nat k) Hk Hs Hr)
    as (_ & Hq & _ & _ & Hn).
  split; [exact Hq|]. rewrite Hn. vm_compute. reflexivity.
Defined.

(** ** Seeding *)

Lemma map_set_cons {A : Type} (key : A -> N) (v : A) (m : list A) :
  map_set key v m <> [].
Proof. destruct m as [|x m]; cbn [map_set]; [done|]. by destruct (key x =? key v). Qed.

Lemma store_all_nonempty (recs : list InsertRecommendation) (st : MemStorage)
    (clock : nat -> N) :
  recommendationsMap st <> [] \/ recs <> [] ->
  recommendationsMap (store_all st recs clock) <> [].
Proof.
  revert st clock. induction recs as [|rec recs IH]; intros st clock Hne;
    cbn [store_all].
  - by destruct Hne.
  - apply IH. left. cbn [createRecommendation fst recommendationsMap].
    apply map_set_cons.
Qed.

Lemma insert_latest_first_perm {A : Type} (time : A -> N) (v : A) (l : list A) :
  Permutation (insert_latest_first time v l) (v :: l).
Proof.
  induction l as [|x l IH]; cbn [insert_latest_first]; [reflexivity|].
  destruct (time x <=? time v); [reflexivity|].
  rewrite IH. apply perm_swap.
Qed.

Lemma sort_latest_first_perm {A : Type} (time : A -> N) (l : list A) :
  Permutation (sort_latest_first time l) l.
Proof.
  induction l as [|v l IH]; cbn [sort_latest_first fold_right]; [reflexivity|].
  rewrite insert_latest_first_perm. by constructor.
Qed.

Lemma seeded_check (st : MemStorage) :
  (0 <? List.length (getAllRecommendations st))%nat
  = negb (bool_decide (recommendationsMap st = [])).
Proof.
  unfold getAllRecommendations.
  rewrite (Permutation_length (sort_latest_first_perm createdAt _)).
  by destruct (recommendationsMap st).
Qed.

(** X22.  [generateTemplateRecommendations] seeds a storage without
    recommendations with the six templates, all of the category
    [stormwater], and leaves a storage that holds any recommendation
    as it is; so a second run never adds to the first. *)
Theorem seeding_is_idempotent (st : MemStorage) (clock clock' : nat -> N) :
  generateTemplateRecommendations
    (generateTemplateRecommendations st clock) clock'
  = generateTemplateRecommendations st clock
  /\ (recommendationsMap st <> [] ->
      generateTemplateRecommendations st clock = st)
  /\ (recommendationsMap st = [] -> keys_fresh st ->
      List.length (recommendationsMap (generateTemplateRecommendations st clock))
      = 6%nat
      /\ only_stormwater (generateTemplateRecommendations st clock)
      /\ List.map stored_title
           (recommendationsMap (generateTemplateRecommendations st clock))
         = List.map ins_title templates).
Proof.
  assert (Hkeep : forall s c, recommendationsMap s <> [] ->
                              generateTemplateRecommendations s c = s).
  { intros s c Hne. unfold generateTemplateRecommendations.
    rewrite seeded_check, bool_decide_eq_false_2 by done. reflexivity. }
  split; [|split].
  - apply Hkeep. unfold generateTemplateRecommendations.
    rewrite seeded_check. case_bool_decide as He; cbn [negb]; [|done].
    apply store_all_nonempty. right. discriminate.
  - apply Hkeep.
  - intros He Hk. unfold generateTemplateRecommendations.
    rewrite seeded_check, bool_decide_eq_true_2 by done. cbn [negb].
    destruct (store_all_fresh templates st clock Hk) as (E & _).
    unfold only_stormwater. rewrite E, He. cbn [app].
    split; [reflexivity|]. split; [by repeat constructor|reflexivity].
Qed.

Lemma seeding_is_idempotent_witness :
  recommendationsMap newMemStorage = []
  /\ keys_fresh newMemStorage
  /\ List.length
       (recommendationsMap
          (generateTemplateRecommendations newMemStorage
             (fun k => StorageSamples.noon + N.of_nat k))) = 6%nat
  /\ recommendationsMap StorageSamples.twoStored <> []
  /\ generateTemplateRecommendations StorageSamples.twoStored (fun _ => 0)
     = StorageSamples.twoStored.
Proof.
  assert (Hk : keys_fresh newMemStorage) by (split; constructor).
  split; [reflexivity|]. split; [exact Hk|].
  split.
  - exact (proj1 (proj2 (proj2 (seeding_is_idempotent newMemStorage
                                  (fun k => StorageSamples.noon + N.of_nat k)
                                  (fun _ => 0))) eq_refl Hk)).
  - assert (Hne : recommendationsMap StorageSamples.twoStored <> [])
      by (vm_compute; discriminate).
    split; [exact Hne|].
    exact (proj1 (proj2 (seeding_is_idempotent StorageSamples.twoStored
                           (fun _ => 0) (fun _ => 0))) Hne).
Defined.

(** ** The most recent recommendations *)

Lemma insert_latest_first_sorted (v : StoredRecommendation) (l : list StoredRecommendation) :
  StronglySorted latest_first l ->
  StronglySorted latest_first (insert_latest_first createdAt v l).
Proof.
  induction 1 as [|x l Hl IH Hx]; cbn [insert_latest_first].
  - repeat constructor.
  - destruct (createdAt x <=? createdAt v) eqn:E.
    + apply N.leb_le in E. constructor; [by constructor|].
      constructor; [exact E|].
      eapply Forall_impl; [exact Hx|]. unfold latest_first. intros y Hy. lia.
    + apply N.leb_gt in E. constructor; [exact IH|].
      eapply Permutation_Forall.
      * symmetry. apply insert_latest_first_perm.
      * constructor; [unfold latest_first; lia | exact Hx].
Qed.

Lemma sort_latest_first_sorted (l : list StoredRecommendation) :
  StronglySorted latest_first (sort_latest_first createdAt l).
Proof.
  induction l as [|v l IH]; cbn [sort_latest_first fold_right]; [constructor|].
  by apply insert_latest_first_sorted.
Qed.

Lemma sorted_app (l1 l2 : list StoredRecommendation) :
  StronglySorted latest_first (l1 ++ l2) ->
  StronglySorted latest_first l1
  /\ forall a b, a ∈ l1 -> b ∈ l2 -> latest_first a b.
Proof.
  induction l1 as [|x l1 IH]; cbn [app]; intros Hs.
  - split; [constructor|]. by intros a b Ha%elem_of_nil.
  - apply StronglySorted_inv in Hs as [Hs Hx].
    destruct (IH Hs) as [Hs1 Hcross]. split.
    + constructor; [exact Hs1|]. by apply Forall_app in Hx as [? _].
    + intros a b [->|Ha]%elem_of_cons Hb; [|by apply Hcross].
      apply Forall_app in Hx as [_ Hx]. rewrite Forall_forall in Hx.
      by apply Hx.
Qed.

(** X23.  [getRecentRecommendations] returns stored recommendations,
    the latest first, and none of those it leaves out is later than one
    it returns.  For a limit that is not negative it returns at most
    [limit] of them, and all of them when the limit reaches the number
    stored; for a negative limit [slice(0, limit)] counts from the end,
    and it returns all but as many of the earliest as the limit says,
    however many these are. *)
Theorem recent_recommendations_are_latest (st : MemStorage)
    (limit : IntegerOrInfinity) :
  StronglySorted latest_first (getRecentRecommendations st limit)
  /\ (forall r, r ∈ getRecentRecommendations st limit ->
                r ∈ recommendationsMap st)
  /\ (forall r r',
        r ∈ getRecentRecommendations st limit ->
        r' ∈ recommendationsMap st ->
        r' ∉ getRecentRecommendations st limit ->
        createdAt r' <= createdAt r)
  /\ (forall z, limit = Finite z -> (0 <= z)%Z ->
        (Z.of_nat (List.length (getRecentRecommendations st limit)) <= z)%Z
        /\ ((Z.of_nat (List.length (recommendationsMap st)) <= z)%Z ->
            Permutation (getRecentRecommendations st limit)
                        (recommendationsMap st)))
  /\ (forall z, limit = Finite z -> (z < 0)%Z ->
        Z.of_nat (List.length (getRecentRecommendations st limit))
        = Z.max (Z.of_nat (List.length (recommendationsMap st)) + z) 0).
Proof.
  unfold getRecentRecommendations, slice0.
  pose proof (sort_latest_first_perm createdAt (recommendationsMap st)) as Hperm.
  pose proof (sort_latest_first_sorted (recommendationsMap st)) as Hsorted.
  pose proof (Permutation_length Hperm) as Hlen.
  set (sorted := sort_latest_first createdAt (recommendationsMap st)) in *.
  set (n := Z.to_nat _).
  assert (Hn : n = Z.to_nat
                     match limit with
                     | MinusInfinity => 0%Z
                     | Finite z =>
                       if (z <? 0)%Z
                       then Z.max (Z.of_nat (List.length sorted) + z) 0
                       else Z.min z (Z.of_nat (List.length sorted))
                     | PlusInfinity => Z.of_nat (List.length sorted)
                     end) by reflexivity.
  clearbody n.
  rewrite <- (firstn_skipn n sorted) in Hsorted.
  apply sorted_app in Hsorted as [Hs Hcross].
  split; [exact Hs|]. split; [|split; [|split]].
  - intros r Hr. rewrite <- Hperm, <- (firstn_skipn n sorted).
    apply elem_of_app. by left.
  - intros r r' Hr Hr' Hout. apply (Hcross r r' Hr).
    rewrite <- Hperm, <- (firstn_skipn n sorted) in Hr'.
    apply elem_of_app in Hr' as [Hin|Hin]; [contradiction|exact Hin].
  - intros z -> Hz. rewrite length_take.
    destruct (Z.ltb_spec z 0) as [Hneg|_]; [lia|].
    split; [lia|]. intros Hall. rewrite firstn_all2; [exact Hperm|]. lia.
  - intros z -> Hz. rewrite length_take.
    destruct (Z.ltb_spec z 0) as [_|Hpos]; lia.
Qed.

Lemma recent_recommendations_are_latest_witness :
  (Z.of_nat (List.length (recommendationsMap StorageSamples.twoStored)) <= 5)%Z
  /\ List.map stored_title
       (getRecentRecommendations StorageSamples.twoStored (Finite 1))
     = [lit "SWPPP Maintenance Records"]
  /\ Permutation (getRecentRecommendations StorageSamples.twoStored (Finite 5))
                 (recommendationsMap StorageSamples.twoStored)
  /\ Z.of_nat (List.length
                 (getRecentRecommendations
                    (generateTemplateRecommendations newMemStorage
                       (fun k => StorageSamples.noon + N.of_nat k))
                    (Finite (-1))))
     = 5%Z.
Proof.
  assert (Hall : (Z.of_nat (List.length (recommendationsMap StorageSamples.twoStored))
                  <= 5)%Z)
    by (vm_compute; discriminate).
  split; [exact Hall|]. split; [vm_compute; reflexivity|]. split.
  - exact (proj2 (proj1 (proj2 (proj2 (proj2
             (recent_recommendations_are_latest StorageSamples.twoStored
                (Finite 5))))) 5%Z eq_refl ltac:(lia)) Hall).
  - rewrite (proj2 (proj2 (proj2 (proj2
               (recent_recommendations_are_latest
                  (generateTemplateRecommendations newMemStorage
                     (fun k => StorageSamples.noon + N.of_nat k))
                  (Finite (-1)))))) (-1)%Z eq_refl ltac:(lia)).
    vm_compute. reflexivity.
Defined.

(** ** Admin sessions *)

(** X24.  [createAdminSession] issues a token for the one admin address
    only and throws [Unauthorized] for every other; the token it issues
    is accepted by [validateAdminToken], and so is every other string
    that begins with [admin-session-], issued or not: the in-memory
    storage keeps no record of its sessions. *)
Theorem admin_token_is_prefix_check (email : list N) (now : N) :
  (forall token,
     createAdminSession email now = Returned token ->
     email = lit "guzman.danield@outlook.com"
     /\ token = lit "admin-session-" ++ decimal now
     /\ validateAdminToken token = true)
  /\ (email <> lit "guzman.danield@outlook.com" ->
      createAdminSession email now
      = Thrown {| status := None; message := lit "Unauthorized" |})
  /\ (forall rest, validateAdminToken (lit "admin-session-" ++ rest) = true).
Proof.
  assert (Hv : forall rest, validateAdminToken (lit "admin-session-" ++ rest) = true).
  { intros rest. unfold validateAdminToken. apply JSMore.startsWith_app. }
  unfold createAdminSession, verifyAdmin. split; [|split; [|exact Hv]].
  - intros token. case_bool_decide as He; [|discriminate].
    intros [= <-]. split; [exact He|]. split; [reflexivity|apply Hv].
  - intros Hne. by rewrite bool_decide_eq_false_2.
Qed.

Lemma admin_token_is_prefix_check_witness :
  createAdminSession (lit "guzman.danield@outlook.com") StorageSamples.noon
  = Returned (lit "admin-session-1700000000000")
  /\ lit "Guzman.Danield@outlook.com" <> lit "guzman.danield@outlook.com"
  /\ createAdminSession (lit "Guzman.Danield@outlook.com") StorageSamples.noon
     = Thrown {| status := None; message := lit "Unauthorized" |}
  /\ validateAdminToken (lit "admin-session-forged") = true.
Proof.
  assert (Hne : lit "Guzman.Danield@outlook.com" <> lit "guzman.danield@outlook.com")
    by (intros E; vm_compute in E; discriminate E).
  split; [vm_compute; reflexivity|]. split; [exact Hne|]. split.
  - exact (proj1 (proj2 (admin_token_is_prefix_check
                           (lit "Guzman.Danield@outlook.com")
                           StorageSamples.noon)) Hne).
  - exact (proj2 (proj2 (admin_token_is_prefix_check [] 0)) (lit "forged")).
Defined.

End StorageSpec.

(* ================================================================== *)
(** * Facts about [generateDocument] and the chat service              *)
(* ================================================================== *)

Module ChatSpec.
Import JS JSFacts Analyzer Documents Chat.

(** X25.  [generateDocument] never throws.  Without an API key, when
    the request to the hosted model throws, or when the reply carries
    no content block, it returns the fallback document, which quotes
    the prompt and the date; otherwise it returns the text of the first
    content block (the empty text when that block is not a text block),
    and the request it sends opens with the prompt as given. *)
Theorem generateDocument_never_throws (S : Services) (prompt today : list N) :
  (exists text, generateDocument S prompt today = Returned text)
  /\ (hasApiKey S = false
      \/ (exists e, messages_create S (documentRequest prompt) = Thrown e)
      \/ messages_create S (documentRequest prompt) = Returned [] ->
      generateDocument S prompt today
      = Returned (generateFallbackDocument prompt today))
  /\ (forall b rest,
        hasApiKey S = true ->
        messages_create S (documentRequest prompt) = Returned (b :: rest) ->
        generateDocument S prompt today
        = Returned (AnalyzerNotions.blockText b))
  /\ Contains (generateFallbackDocument prompt today) prompt
  /\ Contains (generateFallbackDocument prompt today) today
  /\ (exists rest, Analyzer.prompt (documentRequest prompt) = prompt ++ rest).
Proof.
  unfold generateDocument. split; [|split; [|split; [|split; [|split]]]].
  - destruct (negb (hasApiKey S)); [by eexists|].
    destruct (messages_create S _) as [[|[t|] rest]|e]; by eexists.
  - intros [Hk|[[e He]|He]].
    + by rewrite Hk.
    + destruct (negb (hasApiKey S)); [reflexivity|]. by rewrite He.
    + destruct (negb (hasApiKey S)); [reflexivity|]. by rewrite He.
  - intros b rest Hk He. rewrite Hk, He. by destruct b.
  - unfold generateFallbackDocument. apply Contains_intro.
  - unfold generateFallbackDocument. rewrite !app_assoc.
    rewrite <- (app_assoc _ today). apply Contains_intro.
  - by eexists.
Qed.

Lemma generateDocument_never_throws_witness :
  generateDocument Samples.rateLimited (lit "Inspection form") ChatSamples.today
  = Returned (generateFallbackDocument (lit "Inspection form") ChatSamples.today)
  /\ generateDocument (MoreSamples.answering (lit "# Form"))
       (lit "Inspection form") ChatSamples.today
     = Returned (lit "# Form").
Proof.
  split.
  - apply (proj1 (proj2 (generateDocument_never_throws Samples.rateLimited
                           (lit "Inspection form") ChatSamples.today))).
    right. left. eexists. reflexivity.
  - apply (proj1 (proj2 (proj2 (generateDocument_never_throws
                                  (MoreSamples.answering (lit "# Form"))
                                  (lit "Inspection form") ChatSamples.today)))
             (TextBlock (lit "# Form")) []); reflexivity.
Defined.

(** X26.  [processMessage] never throws and answers with the text of
    the first content block of the reply when that is a text block;
    otherwise with one of three fixed sentences: the request for an API
    key when none is configured, the apology for an error when the
    request throws or the reply carries no content block, and the note
    of an issue when the first block is not text. *)
Theorem processMessage_never_throws (C : Client) (message : list N) :
  (exists reply, processMessage C message = Returned reply)
  /\ (chat_hasApiKey C = false -> processMessage C message = Returned needsKey)
  /\ (chat_hasApiKey C = true ->
      (forall t rest,
         chat_create C message = Returned (TextBlock t :: rest) ->
         processMessage C message = Returned t)
      /\ (forall rest,
            chat_create C message = Returned (OtherBlock :: rest) ->
            processMessage C message = Returned issueProcessing)
      /\ ((exists e, chat_create C message = Thrown e)
          \/ chat_create C message = Returned [] ->
          processMessage C message = Returned errorProcessing)).
Proof.
  unfold processMessage. split; [|split].
  - destruct (negb (chat_hasApiKey C)); [by eexists|].
    destruct (chat_create C message) as [[|[t|] rest]|e]; by eexists.
  - intros Hk. by rewrite Hk.
  - intros Hk. rewrite Hk. cbn [negb]. split; [|split].
    + intros t rest He. by rewrite He.
    + intros rest He. by rewrite He.
    + intros [[e He]|He]; by rewrite He.
Qed.

Lemma processMessage_never_throws_witness :
  chat_hasApiKey ChatSamples.offline = true
  /\ processMessage ChatSamples.offline (lit "peak flow?")
     = Returned errorProcessing.
Proof.
  split; [reflexivity|].
  apply (proj2 (proj2 (proj2 (proj2 (processMessage_never_throws
                                       ChatSamples.offline (lit "peak flow?")))
                         eq_refl))).
  left. eexists. reflexivity.
Defined.

(** X27.  The [catch] block of [executePythonCode] is never entered:
    the call returns what [executeStormwaterAnalysis] returns, on every
    host and for every behaviour of the child. *)
Theorem executePythonCode_is_the_runner (H : Interpreter.Host)
    (tempDir sessionId code : list N) (data : option Interpreter.JSONValue)
    (run : Interpreter.ChildRun) (w : Interpreter.World) :
  executePythonCode H tempDir sessionId code data run w
  = Interpreter.executeStormwaterAnalysis H tempDir sessionId code data
      Interpreter.data_analysis run w
  /\ exists r, snd (executePythonCode H tempDir sessionId code data run w)
               = Returned r.
Proof.
  unfold executePythonCode, Interpreter.io_try.
  destruct (InterpreterMore.inputs_written_dec H tempDir sessionId data)
    as [Hin|[msg [[Hd Hw]|[Hwd Hws]]]].
  - rewrite InterpreterMore.analysis_result_after_writes by done.
    split; [reflexivity|]. by eexists.
  - destruct data as [d|]; [|discriminate].
    rewrite (InterpreterMore.data_write_failure H tempDir sessionId code d
               Interpreter.data_analysis run w msg) by done.
    split; [reflexivity|]. by eexists.
  - rewrite (InterpreterMore.script_write_failure H tempDir sessionId code data
               Interpreter.data_analysis run w msg) by done.
    split; [reflexivity|]. by eexists.
Qed.

End ChatSpec.
